(** * Campaign performance report: a shallow embedding of [report.py]

    The program reads a cost feed and a revenue feed, converts their
    Eastern-time stamps to UTC, keeps the rows of an inclusive window of UTC
    days, aggregates per (day, campaign), outer-joins the two aggregates,
    derives profit, cost-per-click and ROI with a division that yields NaN on
    a zero denominator, optionally adds two hourly columns, and writes the
    table sorted by (date, campaign).

    The embedding follows [report.py] statement by statement.  The pandas and
    numpy operations it calls are modelled by executable functions on lists of
    records:

    - a DataFrame is a [list] of row records, in row order;
    - a numeric cell is a primitive [float] (binary64, one NaN), the dtype
      [safe_div] converts to; a column pandas keeps as int64 because every
      cell is an integer has the same values up to 2^53 (beyond that
      pandas adds the integers themselves, and wraps at 2^63);
    - the [sum] and [mean] reducers of a group-by are modelled by the
      compensated kernel of pandas' [group_sum]; with three or more cells
      the float64 value of a sum depends on the order and grouping of the
      additions, which is internal to the library, so what is stated about
      the value of a grouped sum is that it adds up the cells of its group
      ([float64_sum_of]);
    - a nullable string cell is an [option string], [None] being <NA>;
    - a datetime64[ns] cell is an [option Z] of nanoseconds since the epoch,
      [None] being NaT;
    - a raised exception is the result [None] of the stage that raises.

    Command-line parsing and CSV input/output are outside the embedding: [main]
    takes the two loaded tables (numeric columns as [pd.to_numeric] with
    [errors="coerce"] leaves them, NaN where the text was not a number) and the
    parsed options, and returns the table handed to [to_csv]. *)

From Stdlib Require Import ZArith Floats String Ascii List Lia Bool.
From stdpp Require Import base option list sorting sets gmap strings.

Local Open Scope Z_scope.

(** ** Proleptic Gregorian calendar on day numbers (days since 1970-01-01) *)

Module Calendar.

Definition is_leap (y : Z) : bool :=
  ((y mod 4 =? 0) && negb (y mod 100 =? 0)) || (y mod 400 =? 0).

Definition days_in_month (y m : Z) : Z :=
  if m =? 2 then (if is_leap y then 29 else 28)
  else if (m =? 4) || (m =? 6) || (m =? 9) || (m =? 11) then 30
  else 31.

(** Day number of the civil date [y]-[m]-[d]. *)
Definition days_from_civil (y m d : Z) : Z :=
  let y' := if m <=? 2 then y - 1 else y in
  let era := y' / 400 in
  let yoe := y' - era * 400 in
  let mp := if m <=? 2 then m + 9 else m - 3 in
  let doy := (153 * mp + 2) / 5 + d - 1 in
  let doe := yoe * 365 + yoe / 4 - yoe / 100 + doy in
  era * 146097 + doe - 719468.

(** Civil date (year, month, day) of a day number. *)
Definition civil_from_days (z : Z) : Z * Z * Z :=
  let z' := z + 719468 in
  let era := z' / 146097 in
  let doe := z' - era * 146097 in
  let yoe := (doe - doe / 1460 + doe / 36524 - doe / 146096) / 365 in
  let doy := doe - (365 * yoe + yoe / 4 - yoe / 100) in
  let mp := (5 * doy + 2) / 153 in
  let d := doy - (153 * mp + 2) / 5 + 1 in
  let m := if mp <? 10 then mp + 3 else mp - 9 in
  ((if m <=? 2 then yoe + era * 400 + 1 else yoe + era * 400), m, d).

(** Day of the week, 0 = Sunday; 1970-01-01 was a Thursday. *)
Definition weekday (z : Z) : Z := (z + 4) mod 7.

(** First Sunday on or after day [d] of month [m]: the tz database's
    [Sun>=d]. *)
Definition sunday_on_or_after (y m d : Z) : Z :=
  let z := days_from_civil y m d in
  z + (7 - weekday z) mod 7.

(** Last Sunday of month [m]: the tz database's [lastSun]. *)
Definition last_sunday (y m : Z) : Z :=
  let z := days_from_civil y m (days_in_month y m) in
  z - weekday z.

End Calendar.

(** ** Timestamps: int64 nanoseconds, as pandas keeps datetime64[ns] *)

Definition pps : Z := 1000000000.       (* periods per second *)
Definition ppm : Z := 60 * pps.         (* per minute *)
Definition pph : Z := 3600 * pps.       (* per hour *)
Definition ppd : Z := 24 * pph.         (* per day *)

(** [Series.dt.floor("D")] and [Series.dt.floor("h")] on a UTC stamp; NaT
    stays NaT. *)
Definition floor_to (unit : Z) (t : Z) : Z := t - t mod unit.
Definition floor_D (t : option Z) : option Z := floor_to ppd <$> t.
Definition floor_h (t : option Z) : option Z := floor_to pph <$> t.

(** [pd.Timestamp("YYYY-MM-DD", tz="UTC")]: midnight UTC of a civil date. *)
Definition utc_midnight (y m d : Z) : Z := Calendar.days_from_civil y m d * ppd.

(** ** The source zone: [SOURCE_TZ = "America/New_York"]

    pandas localizes through the zone's table of UTC transition instants
    ([tdata]) and of the UTC offsets in force from each of them ([deltas]).
    The table below is generated from the tz database's rules for the zone
    from 1967 on (Zone America/New_York, Rule US), which cover every year the
    two-digit [%y] directive can produce (1969 to 2068):

    - daylight time starts at 02:00 EST (07:00 UTC) on the last Sunday of
      April (1967-1973, 1976-1986), on 6 January 1974, on 23 February 1975,
      on the first Sunday of April (1987-2006), on the second Sunday of March
      (2007 on);
    - daylight time ends at 02:00 EDT (06:00 UTC) on the last Sunday of
      October (to 2006), on the first Sunday of November (2007 on).

    As in pandas the first entry is a sentinel at the start of time; the
    zone's history before 1967 is not reachable from [%y] and is collapsed
    into it. *)

Module NewYork.

Definition EST : Z := -5 * pph.
Definition EDT : Z := -4 * pph.

Definition dst_start_day (y : Z) : Z :=
  if y =? 1974 then Calendar.days_from_civil 1974 1 6
  else if y =? 1975 then Calendar.last_sunday 1975 2
  else if y <=? 1986 then Calendar.last_sunday y 4
  else if y <=? 2006 then Calendar.sunday_on_or_after y 4 1
  else Calendar.sunday_on_or_after y 3 8.

Definition dst_end_day (y : Z) : Z :=
  if y <=? 2006 then Calendar.last_sunday y 10
  else Calendar.sunday_on_or_after y 11 1.

(** UTC instants of the two transitions of year [y]. *)
Definition dst_start_utc (y : Z) : Z := dst_start_day y * ppd + 7 * pph.
Definition dst_end_utc (y : Z) : Z := dst_end_day y * ppd + 6 * pph.

Definition first_year : Z := 1967.
Definition n_years : nat := 103.      (* 1967 .. 2069 *)

Definition years : list Z :=
  map (fun i => first_year + Z.of_nat i) (seq 0 n_years).

(** [NPY_NAT + 1], the sentinel pandas puts in front of the table. *)
Definition start_of_time : Z := - 2 ^ 63 + 1.

Definition tdata : list Z :=
  start_of_time :: flat_map (fun y => [dst_start_utc y; dst_end_utc y]) years.

Definition deltas : list Z :=
  EST :: flat_map (fun _ => [EDT; EST]) years.

End NewYork.

(** [bisect_right_i8]: the number of entries of the sorted [data] that are
    [<= x], i.e. the insertion point to the right of [x]. *)
Fixpoint bisect_right (data : list Z) (x : Z) : nat :=
  match data with
  | [] => 0%nat
  | t :: data' => if t <=? x then S (bisect_right data' x) else 0%nat
  end.

(** [deltas[i]]. *)
Definition delta_at (i : nat) : Z := nth i NewYork.deltas NewYork.EST.

(** UTC offset in force at the UTC instant [t]:
    [deltas[bisect_right(tdata, t) - 1]]. *)
Definition utcoffset_at (t : Z) : Z :=
  delta_at (bisect_right NewYork.tdata t - 1)%nat.

(** ** [pd.to_datetime(col, format="%m/%d/%y %H:%M", errors="raise")]

    pandas turns the format into a regular expression, one alternation per
    directive, matches it at the start of the value, and raises when nothing
    matches or when the match stops before the end of the value.  The parsers
    below return every match of a pattern in the order a backtracking matcher
    tries them, so the head of the list is the match the regular expression
    finds.  Characters are ASCII. *)

Module Strptime.

Definition parser (A : Type) : Type := list ascii -> list (A * list ascii).

Definition ret {A} (a : A) : parser A := fun s => [(a, s)].
Definition bind {A B} (p : parser A) (f : A -> parser B) : parser B :=
  fun s => flat_map (fun r => f (fst r) (snd r)) (p s).
Definition alt {A} (p q : parser A) : parser A := fun s => p s ++ q s.

Definition digit_of (c : ascii) : option Z :=
  let n := Z.of_N (N_of_ascii c) in
  if (48 <=? n) && (n <=? 57) then Some (n - 48) else None.

(** One digit between [lo] and [hi]: the class [[lo-hi]]. *)
Definition digit_in (lo hi : Z) : parser Z := fun s =>
  match s with
  | c :: s' =>
      match digit_of c with
      | Some d => if (lo <=? d) && (d <=? hi) then [(d, s')] else []
      | None => []
      end
  | [] => []
  end.

(** Two digits, the first in [[a-b]], the second in [[c-d]]. *)
Definition two (a b c d : Z) : parser Z :=
  bind (digit_in a b) (fun x => bind (digit_in c d) (fun y => ret (10 * x + y))).

Definition char (c : ascii) : parser unit := fun s =>
  match s with
  | c' :: s' => if Ascii.eqb c c' then [(tt, s')] else []
  | [] => []
  end.

Definition is_space (c : ascii) : bool :=
  let n := N_of_ascii c in
  (n =? 32)%N || ((9 <=? n)%N && (n <=? 13)%N).

(** [\s*], greedy: the longest run first, then each shorter one. *)
Fixpoint spaces (s : list ascii) : list (unit * list ascii) :=
  match s with
  | c :: s' => if is_space c then spaces s' ++ [(tt, s)] else [(tt, s)]
  | [] => [(tt, [])]
  end.

(** [\s+], what a blank of the format becomes. *)
Definition spaces1 : parser unit := fun s =>
  match s with
  | c :: s' => if is_space c then spaces s' else []
  | [] => []
  end.

(** [%m]: [1[0-2]|0[1-9]|[1-9]] *)
Definition p_m : parser Z :=
  alt (two 1 1 0 2) (alt (two 0 0 1 9) (digit_in 1 9)).
(** [%d]: [3[0-1]|[1-2]\d|0[1-9]|[1-9]| [1-9]] *)
Definition p_d : parser Z :=
  alt (two 3 3 0 1) (alt (two 1 2 0 9) (alt (two 0 0 1 9) (alt (digit_in 1 9)
    (bind (char " ") (fun _ => digit_in 1 9))))).
(** [%y]: [\d\d] *)
Definition p_y : parser Z := two 0 9 0 9.
(** [%H]: [2[0-3]|[0-1]\d|\d] *)
Definition p_H : parser Z :=
  alt (two 2 2 0 3) (alt (two 0 1 0 9) (digit_in 0 9)).
(** [%M]: [[0-5]\d|\d] *)
Definition p_M : parser Z :=
  alt (two 0 5 0 9) (digit_in 0 9).

(** The whole format, yielding (month, day, two-digit year, hour, minute). *)
Definition p_format : parser (Z * Z * Z * Z * Z) :=
  bind p_m (fun m => bind (char "/") (fun _ =>
  bind p_d (fun d => bind (char "/") (fun _ =>
  bind p_y (fun y => bind spaces1 (fun _ =>
  bind p_H (fun H => bind (char ":") (fun _ =>
  bind p_M (fun M => ret (m, d, y, H, M)))))))))).

(** Values pandas reads as NaT instead of parsing. *)
Definition nat_strings : list string :=
  ["NaT"; "nat"; "NAT"; "nan"; "NaN"; "NAN"]%string.

(** Two-digit years: 69-99 are 1969-1999, 00-68 are 2000-2068. *)
Definition full_year (y : Z) : Z := if y <=? 68 then y + 2000 else y + 1900.

(** One value: [None] is the raised [ValueError], [Some None] is NaT,
    [Some (Some t)] the naive wall-clock stamp. *)
Definition strptime (val : string) : option (option Z) :=
  if bool_decide (val = ""%string) || bool_decide (val ∈ nat_strings)
  then Some None
  else
    match p_format (list_ascii_of_string val) with
    | ((m, d, y, H, M), []) :: _ =>
        let year := full_year y in
        if d <=? Calendar.days_in_month year m
        then Some (Some (Calendar.days_from_civil year m d * ppd + H * pph + M * ppm))
        else None
    | _ => None
    end.

End Strptime.

(** A missing cell is NaT; the first value that does not parse aborts. *)
Definition to_datetime (col : list (option string)) : option (list (option Z)) :=
  mapM (fun v => match v with
                 | None => Some None
                 | Some s => Strptime.strptime s
                 end) col.

(** ** [Series.dt.tz_localize(SOURCE_TZ, ambiguous="infer",
       nonexistent="shift_forward")]

    pandas' [tz_localize_to_utc].  For each wall-clock value it first computes
    the two candidate UTC instants ([_get_utc_bounds]): [result_a] with the
    offset in force a day earlier, [result_b] with the offset in force a day
    later, each kept only if the zone really has that offset at the candidate
    instant. *)

Definition utc_bounds (v : Z) : option Z * option Z :=
  let v_left := v - utcoffset_at (v - ppd) in        (* v - deltas[isl] *)
  let v_right := v - utcoffset_at (v + ppd) in       (* v - deltas[isr] *)
  (if v_left + utcoffset_at v_left =? v then Some v_left else None,
   if v_right + utcoffset_at v_right =? v then Some v_right else None).

(** A value is ambiguous when both candidates exist and differ. *)
Definition ambiguous_bounds (v : Z) : option (Z * Z) :=
  match utc_bounds v with
  | (Some a, Some b) => if a =? b then None else Some (a, b)
  | _ => None
  end.

Definition mismatch (val : option Z) : option (Z * Z * Z) :=
  v ← val; ab ← ambiguous_bounds v; Some (v, ab.1, ab.2).

(** [np.diff]. *)
Fixpoint diffs (l : list Z) : list Z :=
  match l with
  | x :: (y :: _) as t => (y - x) :: diffs t
  | _ => []
  end.

(** Positions of the entries of [l] that satisfy [p], counted from [i]. *)
Fixpoint nonzero_from (i : nat) (p : Z -> bool) (l : list Z) : list nat :=
  match l with
  | [] => []
  | x :: l' => if p x then i :: nonzero_from (S i) p l' else nonzero_from (S i) p l'
  end.

(** One contiguous block of ambiguous values (value, result_a, result_b), in
    row order.  The block must contain exactly one step that does not
    increase; the values before it take the earlier instant [result_a], the
    values from it on take [result_b].  Anything else raises
    [AmbiguousTimeError]. *)
Definition infer_group (grp : list (Z * Z * Z)) : option (list Z) :=
  let delta := diffs (map (fun e => e.1.1) grp) in
  if (length grp =? 1)%nat || forallb (fun d => 0 <? d) delta then None
  else
    let switch_idxs := nonzero_from 0 (fun d => d <=? 0) delta in
    if (1 <? length switch_idxs)%nat then None
    else
      let switch_idx := S (hd 0%nat switch_idxs) in
      Some (map (fun e => e.1.2) (take switch_idx grp)
              ++ map (fun e => e.2) (drop switch_idx grp)).

Definition flush_group (grp : list (Z * Z * Z)) : option (list (option Z)) :=
  match grp with
  | [] => Some []
  | _ => fmap (M := list) Some <$> infer_group grp
  end.

(** [_get_dst_hours] after its first test: walk the rows, collecting each
    maximal run of ambiguous values in [grp], and resolve the run when it
    ends.  Rows outside a run get NaT. *)
Fixpoint dst_hours_from (vals : list (option Z)) (grp : list (Z * Z * Z))
  : option (list (option Z)) :=
  match vals with
  | [] => flush_group grp
  | val :: vals' =>
      match mismatch val with
      | Some e => dst_hours_from vals' (grp ++ [e])
      | None =>
          r ← flush_group grp;
          r' ← dst_hours_from vals' [];
          Some (r ++ None :: r')
      end
  end.

(** [_get_dst_hours]: a single ambiguous value in the whole column cannot be
    inferred; otherwise resolve block by block. *)
Definition get_dst_hours (vals : list (option Z)) : option (list (option Z)) :=
  if (length (omap mismatch vals) =? 1)%nat then None
  else dst_hours_from vals [].

(** A wall-clock value in the spring-forward gap moves to the next full hour,
    converted with the offset of the transition that follows. *)
Definition shift_forward (v : Z) : Z :=
  let new_local := v + (pph - v mod pph) in
  new_local - delta_at (bisect_right NewYork.tdata new_local).

(** The main loop of [tz_localize_to_utc] for one row, given its entry of
    [dst_hours]. *)
Definition localize_one (val : option Z) (dst_hour : option Z) : option (option Z) :=
  match val with
  | None => Some None
  | Some v =>
      match utc_bounds v with
      | (Some a, Some b) =>
          if a =? b then Some (Some a)
          else match dst_hour with
               | Some t => Some (Some t)
               | None => None
               end
      | (Some a, None) => Some (Some a)
      | (None, Some b) => Some (Some b)
      | (None, None) => Some (Some (shift_forward v))
      end
  end.

Definition tz_localize (vals : list (option Z)) : option (list (option Z)) :=
  dst_hours ← get_dst_hours vals;
  mapM (fun p => localize_one p.1 p.2) (zip vals dst_hours).

(** ** [parse_est_to_utc]: the frame with [dt_utc], [date_utc], [hour_utc] *)

Record stamped (A : Type) : Type := Stamped {
  row_of : A;
  dt_utc : option Z;
  date_utc : option Z;
  hour_utc : option Z
}.
Arguments Stamped {A}.
Arguments row_of {A}.
Arguments dt_utc {A}.
Arguments date_utc {A}.
Arguments hour_utc {A}.

Definition parse_est_to_utc {A} (col : A -> option string) (df : list A)
  : option (list (stamped A)) :=
  dt ← to_datetime (map col df);
  dt ← tz_localize dt;       (* tz_convert("UTC") keeps the instant *)
  Some (zip_with (fun r t => Stamped r t (floor_D t) (floor_h t)) df dt).

(** ** float64 cells *)

(** [x != x], the NaN test pandas' reducers use. *)
Definition isnan (x : float) : bool := negb (x =? x)%float.

(** [Series.fillna(d)] on one cell. *)
Definition fillna (d x : float) : float := if isnan x then d else x.

(** [a[mask]]: the cells of [a] where the boolean [mask] holds. *)
Fixpoint take_mask {A} (mask : list bool) (a : list A) : list A :=
  match mask, a with
  | m :: mask', x :: a' => if m then x :: take_mask mask' a' else take_mask mask' a'
  | _, _ => []
  end.

(** [out[mask] = vals]: the cells of [out] where [mask] holds are replaced,
    in order, by the cells of [vals]. *)
Fixpoint put_mask {A} (mask : list bool) (out vals : list A) : list A :=
  match mask, out with
  | m :: mask', o :: out' =>
      if m then
        match vals with
        | v :: vals' => v :: put_mask mask' out' vals'
        | [] => o :: put_mask mask' out' []
        end
      else o :: put_mask mask' out' vals
  | _, _ => out
  end.

(** [safe_div(a, b)] on two columns of one frame: the output starts as NaN
    everywhere and takes [a / b] on the cells where [b != 0]. *)
Definition safe_div (a b : list float) : list float :=
  let out := map (fun _ => nan) a in
  let mask := map (fun y => negb (y =? 0)%float) b in
  put_mask mask out (zip_with PrimFloat.div (take_mask mask a) (take_mask mask b)).

(** What [safe_div] computes on one cell. *)
Definition safe_div_cell (x y : float) : float :=
  if negb (y =? 0)%float then (x / y)%float else nan.

(** [int64 -> float64]. *)
Definition float_of_nat (n : nat) : float :=
  PrimFloat.of_uint63 (Uint63.of_Z (Z.of_nat n)).

(** One step of pandas' grouped accumulation ([group_sum], [group_mean]):
    NaN cells are skipped, the others are added with Kahan compensation, and a
    compensation that became NaN (an infinite cell) is reset. *)
Definition kahan_step (st : float * float) (val : float) : float * float :=
  if isnan val then st
  else
    let y := (val - st.2)%float in
    let t := (st.1 + y)%float in
    let c := (t - st.1 - y)%float in
    (t, if isnan c then 0%float else c).

(** The [sum] reducer of a group (its cells in row order). *)
Definition group_sum (vals : list float) : float :=
  (fold_left kahan_step vals (0%float, 0%float)).1.

(** The [mean] reducer of a group: compensated sum over the number of
    non-NaN cells, NaN when there is none. *)
Definition group_mean (vals : list float) : float :=
  let nobs := length (filter (fun v => isnan v = false) vals) in
  if (nobs =? 0)%nat then nan
  else (group_sum vals / float_of_nat nobs)%float.

(** ** What a float64 sum of a group may be

    The statements about the value of a grouped sum do not fix the order of
    its additions. *)

(** A float64 value obtained by adding up the cells of a column, each once,
    in some order and grouping of the additions: a running sum from 0.0, a
    pairwise sum, a sum of partial sums. *)
Inductive added_up : list float -> float -> Prop :=
| added_up_nil : added_up [] 0
| added_up_one (x : float) : added_up [x] x
| added_up_app (l1 l2 : list float) (s1 s2 : float) :
    added_up l1 s1 -> added_up l2 s2 -> added_up (l1 ++ l2) (s1 + s2)
| added_up_perm (l l' : list float) (s : float) :
    l ≡ₚ l' -> added_up l s -> added_up l' s.

(** The cells added in row order with a running compensation (Kahan's
    summation). *)
Definition compensated_sum (cells : list float) : float :=
  (fold_left (fun (st : float * float) (v : float) =>
                let y := (v - st.2)%float in
                let t := (st.1 + y)%float in
                let c := (t - st.1 - y)%float in
                (t, if isnan c then 0%float else c))
             cells (0%float, 0%float)).1.

(** A float64 sum of a group: its cells that are not NaN, added up in some
    order or with compensation. *)
Definition float64_sum_of (cells : list float) (s : float) : Prop :=
  let present := filter (fun v => isnan v = false) cells in
  added_up present s \/ s = compensated_sum present.

(** The [min] reducer on a nullable string column: <NA> cells are skipped,
    strings compare by code point; <NA> when the group has no string. *)
Definition str_min2 (acc x : option string) : option string :=
  match acc, x with
  | None, _ => x
  | _, None => acc
  | Some a, Some b => Some (if String.leb a b then a else b)
  end.
Definition group_min (vals : list (option string)) : option string :=
  fold_left str_min2 vals None.

(** [m] is the least string of the column [vals] in code-point order, <NA>
    when the column holds no string. *)
Definition is_lex_min (m : option string) (vals : list (option string)) : Prop :=
  match m with
  | Some s => Some s ∈ vals /\ forall n, Some n ∈ vals -> String.leb s n = true
  | None => forall n, Some n ∉ vals
  end.

(** ** Group keys and their order

    Group-by and join keys are tuples of UTC stamps and campaign ids; pandas
    orders them lexicographically, stamps by value and strings by code
    point. *)

Class KeyOrder (K : Type) := {
  key_le : relation K;
  key_le_dec :: RelDecision key_le
}.

Definition string_le (s1 s2 : string) : Prop := String.leb s1 s2 = true.

Definition pair_le {A B} (RA : relation A) (RB : relation B) : relation (A * B) :=
  fun p q => (RA p.1 q.1 /\ p.1 <> q.1) \/ (p.1 = q.1 /\ RB p.2 q.2).

#[global] Instance string_le_dec : RelDecision string_le.
Proof. intros s1 s2. unfold string_le. apply _. Defined.

#[global] Instance pair_le_dec {A B} (RA : relation A) (RB : relation B)
  `{!EqDecision A, !RelDecision RA, !RelDecision RB} : RelDecision (pair_le RA RB).
Proof. intros p q. unfold pair_le. apply _. Defined.

#[global] Instance Z_key : KeyOrder Z := {| key_le := Z.le |}.
#[global] Instance string_key : KeyOrder string := {| key_le := string_le |}.
#[global] Instance pair_key `{EqDecision A, KeyOrder A, KeyOrder B} : KeyOrder (A * B) :=
  {| key_le := pair_le key_le key_le |}.

(** A key cell that holds one of the keys [ks]. *)
Definition in_keys {K} (ks : list K) (o : option K) : Prop :=
  match o with
  | Some k => k ∈ ks
  | None => False
  end.

#[global] Instance in_keys_dec `{EqDecision K} (ks : list K) (o : option K) :
  Decision (in_keys ks o).
Proof. destruct o; simpl; apply _. Defined.

(** ** DataFrame operations *)

Section Frames.
Context `{EqDecision K, KeyOrder K}.

(** The distinct keys of a column, in key order. *)
Definition unique_keys (ks : list K) : list K :=
  merge_sort key_le (remove_dups ks).

(** The rows whose key is [k], in row order. *)
Definition rows_of {A} (key : A -> option K) (k : K) (df : list A) : list A :=
  filter (fun r => key r = Some k) df.

(** [df.groupby(keys, as_index=False).agg(...)]: rows with a missing key
    are dropped, there is one output row per distinct key, the output is in
    key order, and each reducer sees its group in row order. *)
Definition groupby {A V} (key : A -> option K) (agg : list A -> V) (df : list A)
  : list (K * V) :=
  map (fun k => (k, agg (rows_of key k df))) (unique_keys (omap key df)).

(** The entries of a keyed frame under key [k]. *)
Definition matches {V} (k : K) (df : list (K * V)) : list V :=
  (filter (fun r => r.1 = k) df).*2.

(** The first cell a keyed frame holds under [k], if any. *)
Definition cell {V} (k : K) (df : list (K * V)) : option V := head (matches k df).

(** [pd.merge(left, right, on=keys, how="outer")]: the union of the keys in
    key order; under each key every left row paired with every right row,
    a side without rows contributing missing cells. *)
Definition merge_outer {V W} (left : list (K * V)) (right : list (K * W))
  : list (K * option V * option W) :=
  flat_map (fun k =>
    match matches k left, matches k right with
    | [], ws => map (fun w => (k, None, Some w)) ws
    | vs, [] => map (fun v => (k, Some v, None)) vs
    | vs, ws => flat_map (fun v => map (fun w => (k, Some v, Some w)) ws) vs
    end) (unique_keys (left.*1 ++ right.*1)).

(** [left.merge(right, on=keys, how="left")]: the left rows in their order,
    each paired with every right row of its key, or with missing cells. *)
Definition merge_left {A W} (key : A -> K) (left : list A) (right : list (K * W))
  : list (A * option W) :=
  flat_map (fun a =>
    match matches (key a) right with
    | [] => [(a, None)]
    | ws => map (fun w => (a, Some w)) ws
    end) left.

(** [df.sort_values(keys)]. *)
Definition key_of_le {A} (key : A -> K) : relation A :=
  fun r1 r2 => key_le (key r1) (key r2).
#[global] Instance key_of_le_dec {A} (key : A -> K) : RelDecision (key_of_le key).
Proof. intros r1 r2. unfold key_of_le. apply _. Defined.
Definition sort_values {A} (key : A -> K) (df : list A) : list A :=
  merge_sort (key_of_le key) df.

End Frames.

(** ** The feeds and the options *)

(** A row of the cost feed as loaded: [campaign_id] and [campaign_name] are
    nullable strings, [clicks] and [cost] are what [pd.to_numeric] with
    [errors="coerce"] yields (NaN for a cell that is not a number). *)
Record cost_row : Type := CostRow {
  cost_campaign_id : option string;
  cost_campaign_name : option string;
  cost_clicks : float;
  cost_cost : float;
  cost_data_date : option string
}.

Record rev_row : Type := RevRow {
  rev_campaign_id : option string;
  rev_revenue : float;
  rev_data_date : option string
}.

(** [date_from] and [date_to] are the instants
    [pd.Timestamp(args.date_from, tz="UTC")] and
    [pd.Timestamp(args.date_to, tz="UTC")]. *)
Record args : Type := Args {
  date_from : Z;
  date_to : Z;
  hourly : bool
}.

(** ** [main], stage by stage *)

(** 2) Numeric casting: the [fillna(0.0)] after the coercion. *)
Definition cast_cost (r : cost_row) : cost_row :=
  CostRow (cost_campaign_id r) (cost_campaign_name r)
          (fillna 0 (cost_clicks r)) (fillna 0 (cost_cost r)) (cost_data_date r).

Definition cast_rev (r : rev_row) : rev_row :=
  RevRow (rev_campaign_id r) (fillna 0 (rev_revenue r)) (rev_data_date r).

(** 4) [(df["date_utc"] >= d_from) & (df["date_utc"] <= d_to)]; a comparison
    with NaT is false. *)
Definition in_window (d_from d_to : Z) (d : option Z) : bool :=
  match d with
  | Some d => (d_from <=? d) && (d <=? d_to)
  | None => false
  end.

Definition filter_window {A} (d_from d_to : Z) (df : list (stamped A))
  : list (stamped A) :=
  filter (fun r => in_window d_from d_to (date_utc r)) df.

(** 5) Daily aggregates, keyed by [(date_utc, campaign_id)]. *)
Definition daily_key {A} (cid : A -> option string) (r : stamped A)
  : option (Z * string) :=
  d ← date_utc r; c ← cid (row_of r); Some (d, c).

(** The cost aggregate holds (campaign_name, total_cost, total_clicks). *)
Definition cost_daily (cost : list (stamped cost_row))
  : list (Z * string * (option string * float * float)) :=
  groupby (daily_key cost_campaign_id)
    (fun g => (group_min (map (fun r => cost_campaign_name (row_of r)) g),
               group_sum (map (fun r => cost_cost (row_of r)) g),
               group_sum (map (fun r => cost_clicks (row_of r)) g)))
    cost.

Definition rev_daily (rev : list (stamped rev_row)) : list (Z * string * float) :=
  groupby (daily_key rev_campaign_id)
    (fun g => group_sum (map (fun r => rev_revenue (row_of r)) g))
    rev.

(** 6) Outer join and the four [fillna]. *)
Record joined_row : Type := Joined {
  j_date_utc : Z;
  j_campaign_id : string;
  j_campaign_name : string;
  j_total_cost : float;
  j_total_clicks : float;
  j_total_revenue : float
}.

Definition fill_joined
  (r : Z * string * option (option string * float * float) * option float)
  : joined_row :=
  let '(k, c, v) := r in
  Joined k.1 k.2
    (default ""%string (c ≫= fun c => c.1.1))
    (fillna 0 (default nan ((fun c => c.1.2) <$> c)))
    (fillna 0 (default nan ((fun c => c.2) <$> c)))
    (fillna 0 (default nan v)).

Definition reconcile
  (cd : list (Z * string * (option string * float * float)))
  (rd : list (Z * string * float)) : list joined_row :=
  map fill_joined (merge_outer cd rd).

Definition j_key (r : joined_row) : Z * string := (j_date_utc r, j_campaign_id r).

(** 7) Calculations, column by column as in the source. *)
Record metrics_row : Type := Metrics {
  m_date_utc : Z;
  m_campaign_id : string;
  m_campaign_name : string;
  m_total_revenue : float;
  m_total_cost : float;
  m_total_profit : float;
  m_total_clicks : float;
  m_total_roi : float;
  m_avg_cpc : float
}.

Definition calculations (report : list joined_row) : list metrics_row :=
  let total_revenue := map j_total_revenue report in
  let total_cost := map j_total_cost report in
  let total_clicks := map j_total_clicks report in
  let total_profit := zip_with PrimFloat.sub total_revenue total_cost in
  let avg_cpc := safe_div total_cost total_clicks in
  let uv := safe_div total_revenue total_clicks in
  let cpc := safe_div total_cost total_clicks in
  let total_roi := safe_div uv cpc in
  zip_with (fun r c =>
              Metrics (j_date_utc r) (j_campaign_id r) (j_campaign_name r)
                      (j_total_revenue r) (j_total_cost r) c.1.1
                      (j_total_clicks r) c.2 c.1.2)
           report (zip (zip total_profit avg_cpc) total_roi).

(** The same calculations read row by row. *)
Definition derive (r : joined_row) : metrics_row :=
  let avg_cpc := safe_div_cell (j_total_cost r) (j_total_clicks r) in
  let uv := safe_div_cell (j_total_revenue r) (j_total_clicks r) in
  Metrics (j_date_utc r) (j_campaign_id r) (j_campaign_name r)
          (j_total_revenue r) (j_total_cost r)
          (j_total_revenue r - j_total_cost r)%float
          (j_total_clicks r) (safe_div_cell uv avg_cpc) avg_cpc.

Definition m_key (r : metrics_row) : Z * string := (m_date_utc r, m_campaign_id r).

(** 8) Hourly aggregates, keyed by [(date_utc, hour_utc, campaign_id)]. *)
Definition hourly_key {A} (cid : A -> option string) (r : stamped A)
  : option (Z * Z * string) :=
  d ← date_utc r; h ← hour_utc r; c ← cid (row_of r); Some (d, h, c).

Definition cost_h (cost : list (stamped cost_row)) : list (Z * Z * string * float) :=
  groupby (hourly_key cost_campaign_id)
    (fun g => group_sum (map (fun r => cost_cost (row_of r)) g)) cost.

Definition rev_h (rev : list (stamped rev_row)) : list (Z * Z * string * float) :=
  groupby (hourly_key rev_campaign_id)
    (fun g => group_sum (map (fun r => rev_revenue (row_of r)) g)) rev.

(** The (day, campaign) key an hourly key belongs to, and the hourly keys of
    a (day, campaign) key. *)
Definition day_of_hour_key (k : Z * Z * string) : Z * string := (k.1.1, k.2).

Definition hours_of (k : Z * string) (keys : list (Z * Z * string))
  : list (Z * Z * string) :=
  filter (fun k2 => day_of_hour_key k2 = k) keys.

(** The total, over the hour buckets of a (day, campaign) key, of an hourly
    aggregate, summed as pandas sums a column. *)
Definition hourly_total (k : Z * string) (hs : list (Z * Z * string * float)) : float :=
  group_sum (filter (fun r => day_of_hour_key r.1 = k) hs).*2.

(** A row of [h]: the hourly outer join, zero-filled, with its profit. *)
Record hour_row : Type := Hour {
  h_date_utc : Z;
  h_hour_utc : Z;
  h_campaign_id : string;
  h_cost : float;
  h_revenue : float;
  h_profit : float
}.

Definition fill_hour (r : Z * Z * string * option float * option float) : hour_row :=
  let '(k, c, v) := r in
  let cost := fillna 0 (default nan c) in
  let revenue := fillna 0 (default nan v) in
  Hour k.1.1 k.1.2 k.2 cost revenue (revenue - cost)%float.

Definition hourly_frame (cost : list (stamped cost_row)) (rev : list (stamped rev_row))
  : list hour_row :=
  map fill_hour (merge_outer (cost_h cost) (rev_h rev)).

Definition h_key (b : hour_row) : option (Z * string) :=
  Some (h_date_utc b, h_campaign_id b).

(** [h[h["profit"] > 0].groupby([...]).size()] *)
Definition pos_hours (h : list hour_row) : list (Z * string * nat) :=
  groupby h_key (fun g => length g)
    (filter (fun b => (0 <? h_profit b)%float) h).

(** [h.groupby([...]).agg(hourly_avg_revenue=("revenue", "mean"))] *)
Definition avg_hourly_rev (h : list hour_row) : list (Z * string * float) :=
  groupby h_key (fun g => group_mean (map h_revenue g)) h.

(** The report frame: the metrics and, in hourly mode, the two extra
    columns. *)
Record hourly_cols : Type := HourlyCols {
  hourly_avg_revenue : float;
  positive_profit_hours : Z
}.

(** The two left joins and their [fillna]; [astype(int)] of a count. *)
Definition enrich (h : list hour_row) (report : list metrics_row)
  : list (metrics_row * hourly_cols) :=
  let report1 := merge_left m_key report (pos_hours h) in
  let report2 := merge_left (fun r => m_key r.1) report1 (avg_hourly_rev h) in
  map (fun r =>
         let '(m, pos, avg) := r in
         (m, HourlyCols (fillna 0 (default nan avg))
                        (default 0 (Z.of_nat <$> pos))))
      report2.

(** The hourly columns of the report row with key [k], read off [h]. *)
Definition hourly_cols_of (h : list hour_row) (k : Z * string) : hourly_cols :=
  HourlyCols (fillna 0 (default nan (cell k (avg_hourly_rev h))))
             (default 0 (Z.of_nat <$> cell k (pos_hours h))).

(** 9) Output: [OUT_DATE_FMT = "%Y/%m/%d"], the columns, the row order. *)
Definition digit_char (n : Z) : ascii := ascii_of_N (Z.to_N (48 + n mod 10)).

Definition pad2 (n : Z) : string :=
  String (digit_char (n / 10)) (String (digit_char n) EmptyString).

Definition pad4 (n : Z) : string :=
  String (digit_char (n / 1000)) (String (digit_char (n / 100)) (pad2 n)).

Definition strftime (t : Z) : string :=
  let '(y, m, d) := Calendar.civil_from_days (t / ppd) in
  (pad4 y ++ "/" ++ pad2 m ++ "/" ++ pad2 d)%string.

Record report_row : Type := Report {
  date : string;
  campaign_id : string;
  campaign_name : string;
  total_revenue : float;
  total_cost : float;
  total_profit : float;
  total_clicks : float;
  total_roi : float;
  avg_cpc : float;
  hourly_columns : option hourly_cols
}.

Definition format_row (r : metrics_row * option hourly_cols) : report_row :=
  let m := r.1 in
  Report (strftime (m_date_utc m)) (m_campaign_id m) (m_campaign_name m)
         (m_total_revenue m) (m_total_cost m) (m_total_profit m)
         (m_total_clicks m) (m_total_roi m) (m_avg_cpc m) r.2.

Definition out_key (r : report_row) : string * string := (date r, campaign_id r).

(** Steps 4 to 9 on the stamped feeds. *)
Definition report_of (a : args) (cost : list (stamped cost_row))
  (rev : list (stamped rev_row)) : list report_row :=
  let d_from := floor_to ppd (date_from a) in
  let d_to := floor_to ppd (date_to a) in
  let cost := filter_window d_from d_to cost in
  let rev := filter_window d_from d_to rev in
  let report := calculations (reconcile (cost_daily cost) (rev_daily rev)) in
  let report :=
    if hourly a
    then map (fun r => (r.1, Some r.2)) (enrich (hourly_frame cost rev) report)
    else map (fun r => (r, None)) report in
  sort_values out_key (map format_row report).

(** The frame before formatting, read row by row: one entry per joined
    row. *)
Definition report_frame (a : args) (cost : list (stamped cost_row))
  (rev : list (stamped rev_row)) : list (metrics_row * option hourly_cols) :=
  let cost := filter_window (floor_to ppd (date_from a)) (floor_to ppd (date_to a)) cost in
  let rev := filter_window (floor_to ppd (date_from a)) (floor_to ppd (date_to a)) rev in
  map (fun j => (derive j,
                 if hourly a
                 then Some (hourly_cols_of (hourly_frame cost rev) (j_key j))
                 else None))
      (reconcile (cost_daily cost) (rev_daily rev)).

(** [main]: [None] when a timestamp does not parse or an ambiguous local
    time cannot be inferred; otherwise the table written to [args.out]. *)
Definition main (a : args) (cost : list cost_row) (rev : list rev_row)
  : option (list report_row) :=
  let cost := map cast_cost cost in
  let rev := map cast_rev rev in
  cost ← parse_est_to_utc cost_data_date cost;
  rev ← parse_est_to_utc rev_data_date rev;
  Some (report_of a cost rev).

(** Every result of a parser of the format satisfies [P]. *)
Definition yields {A} (p : Strptime.parser A) (P : A -> Prop) : Prop :=
  forall s a rest, (a, rest) ∈ p s -> P a.

(** ** Texts used to state round trips *)

(** The zero-padded text [MM/DD/YY HH:MM] of a month, a day, a two-digit
    year, an hour and a minute. *)
Definition stamp_text (m d y H M : Z) : string :=
  (pad2 m ++ "/" ++ pad2 d ++ "/" ++ pad2 y ++ " " ++ pad2 H ++ ":" ++ pad2 M)%string.

(** The day numbers a feed can name: two-digit years are read as 1969 to
    2068, and the shift to UTC moves a stamp by at most five hours, into the
    first day of 2069 at the latest. *)
Definition first_day : Z := Calendar.days_from_civil 1969 1 1.
Definition last_day : Z := Calendar.days_from_civil 2069 1 1.

(** The [OUT_DATE_FMT] text of day number [n]: [strftime t] is the text of
    day [t / ppd]. *)
Definition date_text (n : Z) : string :=
  let '(y, m, d) := Calendar.civil_from_days n in
  (pad4 y ++ "/" ++ pad2 m ++ "/" ++ pad2 d)%string.

(** [p] holds of the [k] consecutive numbers from [n] on. *)
Fixpoint holds_from (p : Z -> bool) (n : Z) (k : nat) : bool :=
  match k with
  | O => true
  | S k => p n && holds_from p (n + 1) k
  end.

(** A timestamp text the normalizer always takes: one that reads as NaT, or
    as a wall-clock time that did not occur twice. *)
Definition unambiguous_stamp (s : string) : Prop :=
  exists ov, Strptime.strptime s = Some ov /\
             forall v, ov = Some v -> ambiguous_bounds v = None.

(** A report row without its hourly columns. *)
Definition drop_hourly (r : report_row) : report_row :=
  Report (date r) (campaign_id r) (campaign_name r) (total_revenue r)
         (total_cost r) (total_profit r) (total_clicks r) (total_roi r)
         (avg_cpc r) None.

(** ** Sample runs *)

Module Sample.

(** The end-to-end example: one cost row, one revenue row, one day. *)
Definition one_day : args :=
  Args (utc_midnight 2019 1 1) (utc_midnight 2019 1 1) false.
Definition cost_feed : list cost_row :=
  [CostRow (Some "A") (Some "Ads") 10 5 (Some "12/31/18 19:00")]%string.
Definition revenue_feed : list rev_row :=
  [RevRow (Some "A") 20 (Some "12/31/18 19:00")]%string.

(** A campaign with cost but no click. *)
Definition no_click_feed : list cost_row :=
  [CostRow (Some "A") (Some "Ads") 0 5 (Some "12/31/18 19:00")]%string.

(** Two hours of one day in hourly mode: the first hour earns 15.0, the
    second breaks even. *)
Definition hourly_day : args :=
  Args (utc_midnight 2019 1 1) (utc_midnight 2019 1 1) true.
Definition two_hours_cost : list cost_row :=
  [CostRow (Some "A") (Some "Ads") 10 5 (Some "12/31/18 19:00");
   CostRow (Some "A") (Some "Ads") 4 3 (Some "12/31/18 20:30")]%string.
Definition two_hours_revenue : list rev_row :=
  [RevRow (Some "A") 20 (Some "12/31/18 19:15");
   RevRow (Some "A") 3 (Some "12/31/18 20:00")]%string.
Definition two_hours_cost_utc : list (stamped cost_row) :=
  default [] (parse_est_to_utc cost_data_date (map cast_cost two_hours_cost)).
Definition two_hours_revenue_utc : list (stamped rev_row) :=
  default [] (parse_est_to_utc rev_data_date (map cast_rev two_hours_revenue)).
Definition two_hours_row : report_row :=
  Report "2019/01/01" "A" "Ads" 23 8 15 14 2.875 (8 / 14)%float
         (Some (HourlyCols 11.5 1)).

(** Two cost rows of one key whose names differ, the greater name first. *)
Definition renamed_cost : list (stamped cost_row) :=
  [Stamped (CostRow (Some "A") (Some "Beta") 1 1 None) (Some 0) (Some 0) (Some 0);
   Stamped (CostRow (Some "A") (Some "Alpha") 1 1 None) (Some pph) (Some 0) (Some pph)
  ]%string.

(** Four cost rows of one day and campaign, two in each of two hours, with a
    cost too large for the small ones to register one at a time. *)
Definition rounding_cost : list cost_row :=
  [CostRow (Some "A") (Some "Ads") 1 1e16 (Some "01/01/19 10:00");
   CostRow (Some "A") (Some "Ads") 1 1 (Some "01/01/19 10:30");
   CostRow (Some "A") (Some "Ads") 1 1 (Some "01/01/19 11:00");
   CostRow (Some "A") (Some "Ads") 1 1 (Some "01/01/19 11:30")]%string.
Definition rounding_cost_utc : list (stamped cost_row) :=
  filter_window (utc_midnight 2019 1 1) (utc_midnight 2019 1 1)
    (default [] (parse_est_to_utc cost_data_date (map cast_cost rounding_cost))).

(** Three (day, campaign) keys, given out of order. *)
Definition three_days : args :=
  Args (utc_midnight 2019 1 1) (utc_midnight 2019 1 3) false.
Definition unordered_cost : list cost_row :=
  [CostRow (Some "B") (Some "Shop") 1 1 (Some "01/02/19 10:00");
   CostRow (Some "A") (Some "Ads") 1 1 (Some "01/02/19 10:00")]%string.
Definition unordered_revenue : list rev_row :=
  [RevRow (Some "B") 2 (Some "01/01/19 10:00")]%string.

(** 01:30 on 4 November 2018, a wall-clock time that occurred twice, and
    03:30 of the same day, which occurred once. *)
Definition fall_back_stamp : string := "11/04/18 01:30".
Definition later_stamp : string := "11/04/18 03:30".
Definition fall_back_local : Z :=
  Calendar.days_from_civil 2018 11 4 * ppd + 1 * pph + 30 * ppm.

(** 02:30 on 11 March 2018, a wall-clock time that was skipped. *)
Definition skipped_local : Z :=
  Calendar.days_from_civil 2018 3 11 * ppd + 2 * pph + 30 * ppm.

End Sample.

(** * Properties *)

(** ** The key order is a total order *)

Class KeyLaws (K : Type) `{KeyOrder K} := {
  key_le_po :: PartialOrder (key_le (K := K));
  key_le_total :: Total (key_le (K := K))
}.

Lemma ascii_compare_trans (a b c : ascii) (o : comparison) :
  Ascii.compare a b = o -> Ascii.compare b c = o -> Ascii.compare a c = o.
Proof.
  unfold Ascii.compare. intros H1 H2. destruct o.
  - apply N.compare_eq_iff in H1, H2. apply N.compare_eq_iff. congruence.
  - rewrite N.compare_lt_iff in *. lia.
  - rewrite N.compare_gt_iff in *. lia.
Qed.

Lemma string_compare_lt_trans (s1 s2 s3 : string) :
  String.compare s1 s2 = Lt -> String.compare s2 s3 = Lt -> String.compare s1 s3 = Lt.
Proof.
  revert s2 s3. induction s1 as [|a s1 IH]; intros [|b s2] [|c s3]; simpl; try done.
  destruct (Ascii.compare a b) eqn:Hab; try done;
    destruct (Ascii.compare b c) eqn:Hbc; try done; intros H1 H2.
  - rewrite (ascii_compare_trans _ _ _ _ Hab Hbc). eauto.
  - apply Ascii.compare_eq_iff in Hab. subst. by rewrite Hbc.
  - apply Ascii.compare_eq_iff in Hbc. subst. by rewrite Hab.
  - by rewrite (ascii_compare_trans _ _ _ _ Hab Hbc).
Qed.

Lemma string_le_cases (s1 s2 : string) :
  string_le s1 s2 <-> String.compare s1 s2 = Lt \/ s1 = s2.
Proof.
  unfold string_le, String.leb. split.
  - destruct (String.compare s1 s2) eqn:E; try done; auto.
    right. by apply String.compare_eq_iff.
  - intros [->| ->]; [done|].
    replace (String.compare s2 s2) with Eq; [done|].
    symmetry. induction s2 as [|a s IH]; simpl; [done|].
    unfold Ascii.compare. by rewrite N.compare_refl.
Qed.

#[global] Instance string_le_po : PartialOrder string_le.
Proof.
  split; [split|].
  - intros s. apply string_le_cases. by right.
  - intros s1 s2 s3 [H1| ->]%string_le_cases [H2| ->]%string_le_cases;
      apply string_le_cases; eauto using string_compare_lt_trans.
  - intros s1 s2. apply String.leb_antisym.
Qed.

#[global] Instance string_le_total : Total string_le.
Proof. intros s1 s2. apply String.leb_total. Qed.

#[global] Instance pair_le_po {A B} (RA : relation A) (RB : relation B)
  `{!PartialOrder RA, !PartialOrder RB} : PartialOrder (pair_le RA RB).
Proof.
  split; [split|].
  - intros [a b]. right. done.
  - intros [a1 b1] [a2 b2] [a3 b3]; unfold pair_le; simpl.
    intros [[H1 N1]|[-> H1]] [[H2 N2]|[-> H2]]; auto.
    + left. split; [by etrans|]. intros ->.
      apply N1. by apply (anti_symm RA).
    + right. split; [done|]. by etrans.
  - intros [a1 b1] [a2 b2]; unfold pair_le; simpl.
    intros [[H1 N1]|[-> H1]] [[H2 N2]|[E H2]]; try done.
    + destruct N1. by apply (anti_symm RA).
    + f_equal. by apply (anti_symm RB).
Qed.

#[global] Instance pair_le_total {A B} (RA : relation A) (RB : relation B)
  `{!EqDecision A, !Total RA, !Total RB} : Total (pair_le RA RB).
Proof.
  intros [a1 b1] [a2 b2]; unfold pair_le; simpl.
  destruct (decide (a1 = a2)) as [->|N].
  - destruct (total RB b1 b2); auto.
  - destruct (total RA a1 a2); [left; left|right; left]; split; auto.
Qed.

#[global] Instance Z_laws : KeyLaws Z.
Proof. split; simpl; apply _. Qed.
#[global] Instance string_laws : KeyLaws string.
Proof. split; simpl; apply _. Qed.
#[global] Instance pair_laws `{EqDecision A, KeyOrder A, KeyOrder B, !KeyLaws A, !KeyLaws B} :
  KeyLaws (A * B).
Proof. split; simpl; apply _. Qed.

(** ** Frames: keys, groups and joins *)

Section FrameFacts.
Context `{EqDecision K, KeyOrder K}.

Lemma unique_keys_perm (ks : list K) : unique_keys ks ≡ₚ remove_dups ks.
Proof. apply merge_sort_Permutation. Qed.

Lemma elem_of_unique_keys (ks : list K) (k : K) : k ∈ unique_keys ks <-> k ∈ ks.
Proof. by rewrite unique_keys_perm, elem_of_remove_dups. Qed.

Lemma NoDup_unique_keys (ks : list K) : NoDup (unique_keys ks).
Proof. rewrite unique_keys_perm. apply NoDup_remove_dups. Qed.

Lemma length_unique_keys `{!Countable K} (ks : list K) :
  length (unique_keys ks) = size (list_to_set ks : gset K).
Proof.
  rewrite unique_keys_perm.
  rewrite <- (size_list_to_set (C := gset K)) by apply NoDup_remove_dups.
  f_equal. apply set_eq. intros k.
  by rewrite !elem_of_list_to_set, elem_of_remove_dups.
Qed.

(** The key order of a permuted column is the same list. *)
Lemma unique_keys_Permutation `{!KeyLaws K} (ks ks' : list K) :
  ks ≡ₚ ks' -> unique_keys ks = unique_keys ks'.
Proof.
  intros Hp. apply (Sorted_unique key_le).
  - apply Sorted_merge_sort, _.
  - apply Sorted_merge_sort, _.
  - rewrite !unique_keys_perm. apply NoDup_Permutation.
    + apply NoDup_remove_dups.
    + apply NoDup_remove_dups.
    + intros k. rewrite !elem_of_remove_dups. by rewrite Hp.
Qed.

Lemma groupby_keys {A V} (key : A -> option K) (agg : list A -> V) (df : list A) :
  (groupby key agg df).*1 = unique_keys (omap key df).
Proof.
  unfold groupby. generalize (unique_keys (omap key df)).
  intros l. induction l; csimpl; [done|by f_equal].
Qed.

Lemma NoDup_groupby_keys {A V} (key : A -> option K) (agg : list A -> V) df :
  NoDup (groupby key agg df).*1.
Proof. rewrite groupby_keys. apply NoDup_unique_keys. Qed.

Lemma elem_of_groupby_keys {A V} (key : A -> option K) (agg : list A -> V) df k :
  k ∈ (groupby key agg df).*1 <-> exists r, r ∈ df /\ key r = Some k.
Proof.
  rewrite groupby_keys, elem_of_unique_keys, list_elem_of_omap. done.
Qed.

Lemma elem_of_groupby {A V} (key : A -> option K) (agg : list A -> V) df k v :
  (k, v) ∈ groupby key agg df <->
  k ∈ unique_keys (omap key df) /\ v = agg (rows_of key k df).
Proof.
  unfold groupby. rewrite list_elem_of_fmap. split.
  - intros (k' & [= -> ->] & Hk). done.
  - intros [Hk ->]. eauto.
Qed.

(** A key with no entry matches nothing; in a frame with distinct keys an
    entry is the only match of its key. *)
Lemma matches_nil {V} (k : K) (df : list (K * V)) :
  matches k df = [] <-> k ∉ df.*1.
Proof.
  unfold matches. induction df as [|[k' v] df IH]; simpl.
  - split; [|done]. intros _. apply not_elem_of_nil.
  - rewrite filter_cons. simpl. rewrite not_elem_of_cons.
    destruct (decide (k' = k)) as [->|N]; simpl.
    + split; [done|]. by intros [? _].
    + rewrite IH. split; [by split|]. by intros [_ ?].
Qed.

Lemma matches_not_in {V} (k : K) (df : list (K * V)) :
  k ∉ df.*1 -> matches k df = [].
Proof. apply matches_nil. Qed.

Lemma matches_unique {V} (k : K) (v : V) (df : list (K * V)) :
  NoDup df.*1 -> (k, v) ∈ df -> matches k df = [v].
Proof.
  unfold matches. induction df as [|[k' v'] df IH]; simpl.
  - intros _ []%elem_of_nil.
  - rewrite NoDup_cons, filter_cons. simpl. intros [Hk Hnd] Hin.
    apply elem_of_cons in Hin as [[= -> ->]|Hin].
    + rewrite decide_True by done. simpl. f_equal.
      by apply (matches_not_in k').
    + rewrite decide_False; [by apply IH|].
      intros ->. apply Hk. apply list_elem_of_fmap. by exists (k, v).
Qed.

Lemma elem_of_matches {V} (k : K) (v : V) (df : list (K * V)) :
  v ∈ matches k df <-> (k, v) ∈ df.
Proof.
  unfold matches. rewrite list_elem_of_fmap. split.
  - intros ([k' v'] & -> & [Hk Hin]%list_elem_of_filter). simpl in *. by subst.
  - intros Hin. exists (k, v). split; [done|]. by apply list_elem_of_filter.
Qed.

Lemma matches_groupby {A V} (key : A -> option K) (agg : list A -> V) df k :
  matches k (groupby key agg df) =
  if decide (k ∈ omap key df) then [agg (rows_of key k df)] else [].
Proof.
  destruct (decide _) as [Hin|Hin].
  - apply matches_unique; [apply NoDup_groupby_keys|].
    apply elem_of_groupby. by rewrite elem_of_unique_keys.
  - apply matches_not_in. by rewrite groupby_keys, elem_of_unique_keys.
Qed.

End FrameFacts.

Lemma flat_map_singletons {A B} (f : A -> list B) (g : A -> B) (l : list A) :
  (forall x, x ∈ l -> f x = [g x]) -> flat_map f l = map g l.
Proof.
  induction l as [|x l IH]; simpl; intros Hf; [done|].
  rewrite Hf by left. rewrite IH; [done|]. intros y Hy. apply Hf. by right.
Qed.

Section JoinFacts.
Context `{EqDecision K, KeyOrder K}.

Lemma matches_cell {V} (k : K) (df : list (K * V)) :
  NoDup df.*1 -> matches k df = option_list (cell k df).
Proof.
  intros Hnd. unfold cell. destruct (matches k df) as [|v l] eqn:E; [done|].
  assert (Hin : (k, v) ∈ df) by (apply elem_of_matches; rewrite E; left).
  rewrite (matches_unique k v df Hnd Hin) in E. by injection E as <-.
Qed.

Lemma cell_None {V} (k : K) (df : list (K * V)) : k ∉ df.*1 -> cell k df = None.
Proof. intros Hk. unfold cell. by rewrite matches_not_in. Qed.

Lemma cell_Some {V} (k : K) (v : V) (df : list (K * V)) :
  cell k df = Some v -> (k, v) ∈ df.
Proof.
  unfold cell. intros Hc. apply elem_of_matches.
  destruct (matches k df); simplify_eq/=. left.
Qed.

Lemma cell_in {V} (k : K) (df : list (K * V)) : k ∈ df.*1 -> is_Some (cell k df).
Proof.
  intros Hk. unfold cell. destruct (matches k df) eqn:E; [|by eexists].
  by apply matches_nil in E.
Qed.

Lemma cell_groupby {A V} (key : A -> option K) (agg : list A -> V) df k :
  cell k (groupby key agg df) =
  if decide (k ∈ omap key df) then Some (agg (rows_of key k df)) else None.
Proof. unfold cell. rewrite matches_groupby. by destruct (decide _). Qed.

(** With distinct keys on both sides the outer join has one row per key of
    the union, holding the cell of each side. *)
Lemma merge_outer_rows {V W} (left : list (K * V)) (right : list (K * W)) :
  NoDup left.*1 -> NoDup right.*1 ->
  merge_outer left right =
  map (fun k => (k, cell k left, cell k right)) (unique_keys (left.*1 ++ right.*1)).
Proof.
  intros Hl Hr. unfold merge_outer. apply flat_map_singletons.
  intros k [Hk|Hk]%elem_of_unique_keys%elem_of_app;
    rewrite (matches_cell k left Hl), (matches_cell k right Hr);
    apply cell_in in Hk as [? Hk]; rewrite Hk;
    [by destruct (cell k right)|by destruct (cell k left)].
Qed.

Lemma merge_left_rows {A W} (key : A -> K) (left : list A) (right : list (K * W)) :
  NoDup right.*1 ->
  merge_left key left right = map (fun a => (a, cell (key a) right)) left.
Proof.
  intros Hr. unfold merge_left. apply flat_map_singletons.
  intros a _. rewrite (matches_cell _ right Hr). by destruct (cell (key a) right).
Qed.

End JoinFacts.

(** ** The cells of [safe_div] *)

Lemma put_mask_take_mask (mask : list bool) (a : list float) (b : list float) :
  length a = length mask -> length b = length mask ->
  put_mask mask (map (fun _ => nan) a)
    (zip_with PrimFloat.div (take_mask mask a) (take_mask mask b))
  = zip_with (fun x m => if m : bool then x else nan)
      (zip_with PrimFloat.div a b) mask.
Proof.
  revert a b. induction mask as [|m mask IH]; intros [|x a] [|y b]; simpl; try done.
  intros [= Ha] [= Hb]. destruct m; simpl; by rewrite IH.
Qed.

(** [safe_div] works cell by cell. *)
Lemma safe_div_cells (a b : list float) :
  length a = length b -> safe_div a b = zip_with safe_div_cell a b.
Proof.
  intros Hlen. unfold safe_div.
  rewrite put_mask_take_mask by (by rewrite ?length_map).
  clear Hlen. revert b. induction a as [|x a IH]; intros [|y b]; simpl; try done.
  rewrite IH. unfold safe_div_cell at 2. by destruct (negb _).
Qed.

Lemma calculations_rows (report : list joined_row) :
  calculations report = map derive report.
Proof.
  unfold calculations.
  rewrite (safe_div_cells (map j_total_cost report)) by (by rewrite !length_map).
  rewrite (safe_div_cells (map j_total_revenue report)) by (by rewrite !length_map).
  rewrite safe_div_cells by (rewrite !length_zip_with, !length_map; lia).
  induction report as [|r report IH]; simpl; [done|]. by f_equal.
Qed.

(** ** Rows of the report *)

Lemma elem_of_sort_values `{EqDecision K, KeyOrder K} {A} (key : A -> K) (df : list A) r :
  r ∈ sort_values key df <-> r ∈ df.
Proof. unfold sort_values. by rewrite merge_sort_Permutation. Qed.

Lemma length_sort_values `{EqDecision K, KeyOrder K} {A} (key : A -> K) (df : list A) :
  length (sort_values key df) = length df.
Proof. unfold sort_values. by rewrite merge_sort_Permutation. Qed.

Lemma enrich_rows (h : list hour_row) (report : list metrics_row) :
  enrich h report = map (fun m => (m, hourly_cols_of h (m_key m))) report.
Proof.
  unfold enrich, pos_hours, avg_hourly_rev.
  rewrite (merge_left_rows m_key) by apply NoDup_groupby_keys.
  rewrite (merge_left_rows (fun r => m_key r.1)) by apply NoDup_groupby_keys.
  rewrite !map_map. done.
Qed.

Lemma report_of_frame (a : args) cost rev :
  report_of a cost rev = sort_values out_key (map format_row (report_frame a cost rev)).
Proof.
  unfold report_of, report_frame. rewrite calculations_rows.
  destruct (hourly a).
  - rewrite enrich_rows, !map_map. done.
  - rewrite !map_map. done.
Qed.

Lemma elem_of_report_of (a : args) cost rev (row : report_row) :
  row ∈ report_of a cost rev <->
  exists j, j ∈ reconcile
               (cost_daily (filter_window (floor_to ppd (date_from a))
                                          (floor_to ppd (date_to a)) cost))
               (rev_daily (filter_window (floor_to ppd (date_from a))
                                         (floor_to ppd (date_to a)) rev))
            /\ row = format_row
                 (derive j,
                  if hourly a
                  then Some (hourly_cols_of
                               (hourly_frame
                                  (filter_window (floor_to ppd (date_from a))
                                                 (floor_to ppd (date_to a)) cost)
                                  (filter_window (floor_to ppd (date_from a))
                                                 (floor_to ppd (date_to a)) rev))
                               (j_key j))
                  else None).
Proof.
  rewrite report_of_frame, elem_of_sort_values. unfold report_frame.
  rewrite map_map. rewrite list_elem_of_fmap.
  split; intros (j & ? & ?); eauto.
Qed.

Lemma main_Some (a : args) cost rev out :
  main a cost rev = Some out ->
  exists scost srev,
    parse_est_to_utc cost_data_date (map cast_cost cost) = Some scost /\
    parse_est_to_utc rev_data_date (map cast_rev rev) = Some srev /\
    out = report_of a scost srev.
Proof.
  unfold main. intros Hm.
  destruct (parse_est_to_utc cost_data_date _) as [scost|]; [|done].
  destruct (parse_est_to_utc rev_data_date _) as [srev|]; [|done].
  simpl in Hm. exists scost, srev. by injection Hm as <-.
Qed.

(** ** binary64 facts used below *)

Lemma SFeqb_refl_nan (f : spec_float) : SFeqb f f = false <-> f = S754_nan.
Proof.
  unfold SFeqb. destruct f as [s|s| |s m e]; simpl; try done.
  - by destruct s.
  - destruct s; rewrite Z.compare_refl, Pos.compare_cont_refl; done.
Qed.

Lemma isnan_Prim2SF (x : float) : isnan x = true <-> Prim2SF x = S754_nan.
Proof.
  unfold isnan. rewrite FloatAxioms.eqb_spec, <- SFeqb_refl_nan.
  by destruct (SFeqb _ _).
Qed.

Lemma isnan_false_Prim2SF (x : float) : isnan x = false <-> Prim2SF x <> S754_nan.
Proof. rewrite <- isnan_Prim2SF. by destruct (isnan x). Qed.

Lemma Prim2SF_zero : Prim2SF 0 = S754_zero false.
Proof. reflexivity. Qed.

Lemma eqb_zero_Prim2SF (x : float) :
  (x =? 0)%float = true <-> exists s, Prim2SF x = S754_zero s.
Proof.
  rewrite FloatAxioms.eqb_spec, Prim2SF_zero. unfold SFeqb.
  destruct (Prim2SF x) as [s|s| |s m e]; simpl; split; try done; eauto.
  - by destruct s.
  - by intros [? ?].
  - by intros [? ?].
  - by destruct s.
  - by intros [? ?].
Qed.

Lemma isnan_div_l (x y : float) : isnan x = true -> isnan (x / y)%float = true.
Proof.
  rewrite !isnan_Prim2SF, div_spec. intros ->. reflexivity.
Qed.

Lemma isnan_div_r (x y : float) : isnan y = true -> isnan (x / y)%float = true.
Proof.
  rewrite !isnan_Prim2SF, div_spec. intros ->.
  unfold SF64div, SFdiv. by destruct (Prim2SF x).
Qed.

Lemma zero_div (x y : float) :
  (x =? 0)%float = true -> (y =? 0)%float = false -> isnan y = false ->
  (x / y =? 0)%float = true.
Proof.
  intros [sx Hx]%eqb_zero_Prim2SF Hy Hn.
  apply eqb_zero_Prim2SF. rewrite div_spec, Hx.
  apply isnan_false_Prim2SF in Hn.
  destruct (Prim2SF y) as [s|s| |s m e] eqn:E; simpl; eauto.
  - assert ((y =? 0)%float = true) by (apply eqb_zero_Prim2SF; eauto). congruence.
  - done.
Qed.

Lemma isnan_nan : isnan nan = true.
Proof. reflexivity. Qed.

(** ** C2: [safe_div] *)

(** C2.  For two columns of equal length [safe_div] returns a column of the
    same length (no cell faults), and the cell at each index depends on the
    two input cells at that index only: it is NaN when the denominator equals
    zero, whatever the numerator; it is exactly [x / y] otherwise, which is a
    zero when [x] is zero and [y] is a non-zero number; and it is NaN as soon
    as one of the two input cells is NaN. *)
Theorem safe_div_spec (a b : list float) :
  length a = length b ->
  length (safe_div a b) = length a /\
  forall (i : nat) (x y : float),
    a !! i = Some x -> b !! i = Some y ->
    exists q,
      safe_div a b !! i = Some q /\
      ((y =? 0)%float = true -> q = nan) /\
      ((y =? 0)%float = false -> q = (x / y)%float) /\
      ((x =? 0)%float = true -> (y =? 0)%float = false -> isnan y = false ->
         (q =? 0)%float = true) /\
      (isnan x = true \/ isnan y = true -> isnan q = true).
Proof.
  intros Hlen. rewrite safe_div_cells by done. split.
  - rewrite length_zip_with. lia.
  - intros i x y Hx Hy. exists (safe_div_cell x y). split.
    { rewrite lookup_zip_with, Hx. simpl. by rewrite Hy. }
    unfold safe_div_cell. repeat split.
    + by intros ->.
    + by intros ->.
    + intros H0 Hy0 Hn. rewrite Hy0. simpl. by apply zero_div.
    + intros [Hn|Hn]; destruct (negb _); auto using isnan_div_l, isnan_div_r.
Qed.

Lemma safe_div_spec_witness :
  length (safe_div [1; 0; 0; nan; 6]%float [0; 0; -2; 3; 4]%float) = 5%nat /\
  forall (i : nat) (x y : float),
    [1; 0; 0; nan; 6]%float !! i = Some x -> [0; 0; -2; 3; 4]%float !! i = Some y ->
    exists q,
      safe_div [1; 0; 0; nan; 6]%float [0; 0; -2; 3; 4]%float !! i = Some q /\
      ((y =? 0)%float = true -> q = nan) /\
      ((y =? 0)%float = false -> q = (x / y)%float) /\
      ((x =? 0)%float = true -> (y =? 0)%float = false -> isnan y = false ->
         (q =? 0)%float = true) /\
      (isnan x = true \/ isnan y = true -> isnan q = true).
Proof. apply (safe_div_spec [1; 0; 0; nan; 6]%float [0; 0; -2; 3; 4]%float). reflexivity. Defined.

(** ** C1: the end-to-end example *)

(** C1, as the code runs it.  The cost feed has the single row
    (A, Ads, 10 clicks, cost 5.0, 12/31/18 19:00), the revenue feed the single
    row (A, 20.0, 12/31/18 19:00), the window is 2019-01-01 to 2019-01-01 and
    hourly mode is off.  The report has exactly one row: 2019/01/01, A, Ads,
    revenue 20.0, cost 5.0, profit 15.0, clicks 10.0, ROI 4.0 (per-click
    revenue 2.0 over per-click cost 0.5), cost-per-click 0.5. *)
Theorem end_to_end_example :
  main Sample.one_day Sample.cost_feed Sample.revenue_feed =
  Some [Report "2019/01/01" "A" "Ads" 20 5 15 10 4 0.5 None].
Proof. vm_compute. reflexivity. Qed.

(** The row the example of the specification lists, with ROI 1.0, is not
    the row the run produces. *)
Lemma end_to_end_example_roi_not_one :
  main Sample.one_day Sample.cost_feed Sample.revenue_feed <>
  Some [Report "2019/01/01" "A" "Ads" 20 5 15 10 1 0.5 None].
Proof.
  intros H.
  apply (f_equal (fun o => match o with
                           | Some [r] => (total_roi r =? 1)%float
                           | _ => false
                           end)) in H.
  vm_compute in H. discriminate H.
Qed.

(** ** C3: the ROI formula *)

(** C3.  In every report row the ROI is the per-click revenue divided by the
    per-click cost, each of the three divisions being [safe_div]:
    [total_roi = safe_div(safe_div(total_revenue, total_clicks),
                          safe_div(total_cost, total_clicks))]. *)
Theorem total_roi_double_division (a : args) (cost : list cost_row)
  (rev : list rev_row) (out : list report_row) (row : report_row) :
  main a cost rev = Some out ->
  row ∈ out ->
  total_roi row =
    safe_div_cell (safe_div_cell (total_revenue row) (total_clicks row))
                  (safe_div_cell (total_cost row) (total_clicks row)).
Proof.
  intros (scost & srev & _ & _ & ->)%main_Some (j & _ & ->)%elem_of_report_of.
  reflexivity.
Qed.

Lemma total_roi_double_division_witness :
  total_roi (Report "2019/01/01" "A" "Ads" 20 5 15 10 4 0.5 None) =
    safe_div_cell (safe_div_cell 20 10) (safe_div_cell 5 10).
Proof.
  apply (total_roi_double_division Sample.one_day Sample.cost_feed Sample.revenue_feed
           [Report "2019/01/01" "A" "Ads" 20 5 15 10 4 0.5 None]).
  - vm_compute. reflexivity.
  - left.
Defined.

(** The double division is not the plain ratio revenue / cost: with cost 5.0,
    revenue 20.0 and no click the ROI is NaN, while revenue / cost is 4.0. *)
Example roi_is_not_revenue_over_cost :
  exists row,
    main Sample.one_day Sample.no_click_feed Sample.revenue_feed = Some [row] /\
    total_roi row = nan /\
    safe_div_cell (total_revenue row) (total_cost row) = 4%float.
Proof. eexists. split; [vm_compute; reflexivity|]. split; reflexivity. Qed.

(** ** C4: the outer join of the daily aggregates *)

Lemma j_key_fill (k : Z * string) c v : j_key (fill_joined (k, c, v)) = k.
Proof. by destruct k. Qed.

Lemma reconcile_rows (cd : list (Z * string * (option string * float * float)))
  (rd : list (Z * string * float)) :
  NoDup cd.*1 -> NoDup rd.*1 ->
  reconcile cd rd =
  map (fun k => fill_joined (k, cell k cd, cell k rd)) (unique_keys (cd.*1 ++ rd.*1)).
Proof.
  intros Hc Hr. unfold reconcile. rewrite merge_outer_rows by done.
  by rewrite map_map.
Qed.

Lemma reconcile_keys cd rd :
  NoDup cd.*1 -> NoDup rd.*1 ->
  j_key <$> reconcile cd rd = unique_keys (cd.*1 ++ rd.*1).
Proof.
  intros Hc Hr. rewrite reconcile_rows by done.
  generalize (unique_keys (cd.*1 ++ rd.*1)). intros ks.
  induction ks as [|k ks IH]; [done|].
  cbn [map fmap list_fmap]. rewrite j_key_fill. f_equal. apply IH.
Qed.

Lemma elem_of_reconcile cd rd (j : joined_row) :
  NoDup cd.*1 -> NoDup rd.*1 ->
  j ∈ reconcile cd rd <->
  (j_key j ∈ cd.*1 \/ j_key j ∈ rd.*1) /\
  j = fill_joined (j_key j, cell (j_key j) cd, cell (j_key j) rd).
Proof.
  intros Hc Hr. rewrite reconcile_rows by done. split.
  - intros (k & -> & Hk)%list_elem_of_fmap.
    apply elem_of_unique_keys, elem_of_app in Hk. by rewrite !j_key_fill.
  - intros [Hk Hj]. apply list_elem_of_fmap. exists (j_key j). split; [done|].
    by apply elem_of_unique_keys, elem_of_app.
Qed.

(** C4.  For two daily aggregates (frames whose keys are distinct) the outer
    join has exactly one row for each (day, campaign) key of the union of the
    two key sets: its keys are distinct, a key occurs in it exactly when it
    occurs on one side, its row count is the size of the key union and at
    least the row count of either side.  In the row of a key absent from the
    cost side the cost and the clicks are 0.0 and the campaign name is the
    empty string; in the row of a key absent from the revenue side the
    revenue is 0.0. *)
Theorem reconcile_key_union
  (cd : list (Z * string * (option string * float * float)))
  (rd : list (Z * string * float)) :
  NoDup cd.*1 -> NoDup rd.*1 ->
  NoDup (j_key <$> reconcile cd rd) /\
  (forall k, k ∈ j_key <$> reconcile cd rd <-> k ∈ cd.*1 \/ k ∈ rd.*1) /\
  length (reconcile cd rd) =
    size (list_to_set cd.*1 ∪ list_to_set rd.*1 : gset (Z * string)) /\
  (length cd `max` length rd <= length (reconcile cd rd))%nat /\
  (forall j, j ∈ reconcile cd rd -> j_key j ∉ cd.*1 ->
     j_total_cost j = 0%float /\ j_total_clicks j = 0%float /\
     j_campaign_name j = ""%string) /\
  (forall j, j ∈ reconcile cd rd -> j_key j ∉ rd.*1 ->
     j_total_revenue j = 0%float).
Proof.
  intros Hc Hr.
  assert (Hlen : length (reconcile cd rd) =
            size (list_to_set cd.*1 ∪ list_to_set rd.*1 : gset (Z * string))).
  { rewrite <- (length_fmap j_key), reconcile_keys, length_unique_keys by done.
    by rewrite list_to_set_app_L. }
  split; [|split; [|split; [|split; [|split]]]].
  - rewrite reconcile_keys by done. apply NoDup_unique_keys.
  - intros k. rewrite reconcile_keys by done.
    by rewrite elem_of_unique_keys, elem_of_app.
  - done.
  - rewrite Hlen.
    rewrite <- (length_fmap fst cd), <- (length_fmap fst rd).
    rewrite <- (size_list_to_set (C := gset (Z * string)) cd.*1) by done.
    rewrite <- (size_list_to_set (C := gset (Z * string)) rd.*1) by done.
    apply Nat.max_lub; apply subseteq_size;
      [apply union_subseteq_l|apply union_subseteq_r].
  - intros j [_ ->]%elem_of_reconcile Hk; [|done..].
    rewrite j_key_fill in Hk. rewrite (cell_None _ cd Hk).
    destruct (j_key j). done.
  - intros j [_ ->]%elem_of_reconcile Hk; [|done..].
    rewrite j_key_fill in Hk. rewrite (cell_None _ rd Hk).
    destruct (j_key j). done.
Qed.

Lemma reconcile_key_union_witness :
  let cd := [((0, "A"%string), (Some "Ads"%string, 5%float, 10%float));
             ((0, "B"%string), (None, 1%float, 2%float))] in
  let rd := [((0, "B"%string), 7%float); ((ppd, "C"%string), 20%float)] in
  NoDup (j_key <$> reconcile cd rd) /\
  (forall k, k ∈ j_key <$> reconcile cd rd <-> k ∈ cd.*1 \/ k ∈ rd.*1) /\
  length (reconcile cd rd) =
    size (list_to_set cd.*1 ∪ list_to_set rd.*1 : gset (Z * string)) /\
  (length cd `max` length rd <= length (reconcile cd rd))%nat /\
  (forall j, j ∈ reconcile cd rd -> j_key j ∉ cd.*1 ->
     j_total_cost j = 0%float /\ j_total_clicks j = 0%float /\
     j_campaign_name j = ""%string) /\
  (forall j, j ∈ reconcile cd rd -> j_key j ∉ rd.*1 ->
     j_total_revenue j = 0%float).
Proof.
  apply (reconcile_key_union
           [((0, "A"%string), (Some "Ads"%string, 5%float, 10%float));
            ((0, "B"%string), (None, 1%float, 2%float))]
           [((0, "B"%string), 7%float); ((ppd, "C"%string), 20%float)]).
  - apply (bool_decide_unpack _). vm_compute. exact I.
  - apply (bool_decide_unpack _). vm_compute. exact I.
Defined.

(** ** Stamped rows, the window and the daily keys *)

Lemma parse_est_to_utc_stamps {A} (col : A -> option string) (df : list A)
  (out : list (stamped A)) (r : stamped A) :
  parse_est_to_utc col df = Some out -> r ∈ out ->
  date_utc r = floor_D (dt_utc r) /\ hour_utc r = floor_h (dt_utc r).
Proof.
  unfold parse_est_to_utc. intros Hp Hr.
  destruct (to_datetime (map col df)) as [dt|]; [|done]. simpl in Hp.
  destruct (tz_localize dt) as [dt'|]; [|done]. simpl in Hp.
  injection Hp as <-.
  apply elem_of_zip_with in Hr as (x & t & -> & _ & _). done.
Qed.

Lemma floor_to_mod (unit t : Z) : unit <> 0 -> floor_to unit t mod unit = 0.
Proof.
  intros Hu. unfold floor_to.
  rewrite Zminus_mod, Z.mod_mod, Z.sub_diag by done. apply Z.mod_0_l. done.
Qed.

Lemma elem_of_filter_window {A} (d_from d_to : Z) (df : list (stamped A)) r :
  r ∈ filter_window d_from d_to df <->
  in_window d_from d_to (date_utc r) = true /\ r ∈ df.
Proof.
  unfold filter_window. rewrite list_elem_of_filter.
  by rewrite Is_true_true.
Qed.

Lemma in_window_Some (d_from d_to d : Z) :
  in_window d_from d_to (Some d) = true <-> d_from <= d <= d_to.
Proof. simpl. rewrite andb_true_iff, !Z.leb_le. done. Qed.

Lemma daily_key_Some {A} (cid : A -> option string) (r : stamped A) d c :
  daily_key cid r = Some (d, c) <-> date_utc r = Some d /\ cid (row_of r) = Some c.
Proof.
  unfold daily_key. destruct (date_utc r) as [d'|]; simpl; [|by split; [|intros []]].
  destruct (cid (row_of r)) as [c'|]; simpl; [|by split; [|intros []]].
  split; [by intros [= -> ->]|by intros [[= ->] [= ->]]].
Qed.

Lemma elem_of_cost_daily_keys (cost : list (stamped cost_row)) d c :
  (d, c) ∈ (cost_daily cost).*1 <->
  exists r, r ∈ cost /\ date_utc r = Some d /\ cost_campaign_id (row_of r) = Some c.
Proof.
  unfold cost_daily. rewrite elem_of_groupby_keys.
  by setoid_rewrite daily_key_Some.
Qed.

Lemma elem_of_rev_daily_keys (rev : list (stamped rev_row)) d c :
  (d, c) ∈ (rev_daily rev).*1 <->
  exists r, r ∈ rev /\ date_utc r = Some d /\ rev_campaign_id (row_of r) = Some c.
Proof.
  unfold rev_daily. rewrite elem_of_groupby_keys.
  by setoid_rewrite daily_key_Some.
Qed.

Lemma NoDup_cost_daily cost : NoDup (cost_daily cost).*1.
Proof. apply NoDup_groupby_keys. Qed.

Lemma NoDup_rev_daily rev : NoDup (rev_daily rev).*1.
Proof. apply NoDup_groupby_keys. Qed.

(** ** C10: every reported day lies in the window *)

(** C10.  Whatever the options and the two feeds, every row of the table
    [main] returns carries the date string of a UTC day bucket (a UTC
    midnight) that lies in the inclusive window from the day of [date_from]
    to the day of [date_to]. *)
Theorem report_dates_in_window (a : args) (cost : list cost_row)
  (rev : list rev_row) (out : list report_row) (row : report_row) :
  main a cost rev = Some out ->
  row ∈ out ->
  exists d : Z,
    date row = strftime d /\
    d mod ppd = 0 /\
    floor_to ppd (date_from a) <= d <= floor_to ppd (date_to a).
Proof.
  intros (scost & srev & Hc & Hr & ->)%main_Some (j & Hj & ->)%elem_of_report_of.
  apply elem_of_reconcile in Hj as [Hk _];
    [|apply NoDup_cost_daily|apply NoDup_rev_daily].
  exists (j_date_utc j). split; [done|].
  destruct (j_key j) as [d c] eqn:Ek.
  assert (d = j_date_utc j) as <- by (by injection Ek).
  assert (exists t : option Z, Some d = floor_D t /\
            in_window (floor_to ppd (date_from a)) (floor_to ppd (date_to a))
                      (Some d) = true) as (t & Ht & Hw).
  { destruct Hk as [Hk|Hk].
    - apply elem_of_cost_daily_keys in Hk as (r & [Hw Hin]%elem_of_filter_window & Hd & _).
      destruct (parse_est_to_utc_stamps _ _ _ _ Hc Hin) as [E _].
      exists (dt_utc r). by rewrite <- E, <- Hd.
    - apply elem_of_rev_daily_keys in Hk as (r & [Hw Hin]%elem_of_filter_window & Hd & _).
      destruct (parse_est_to_utc_stamps _ _ _ _ Hr Hin) as [E _].
      exists (dt_utc r). by rewrite <- E, <- Hd. }
  split; [|by apply in_window_Some].
  destruct t as [t|]; [|done]. injection Ht as ->.
  by apply floor_to_mod.
Qed.

Lemma report_dates_in_window_witness :
  exists d : Z,
    "2019/01/01"%string = strftime d /\
    d mod ppd = 0 /\
    utc_midnight 2019 1 1 <= d <= utc_midnight 2019 1 1.
Proof.
  apply (report_dates_in_window Sample.one_day Sample.cost_feed Sample.revenue_feed
           [Report "2019/01/01" "A" "Ads" 20 5 15 10 4 0.5 None]
           (Report "2019/01/01" "A" "Ads" 20 5 15 10 4 0.5 None)).
  - vm_compute. reflexivity.
  - left.
Defined.

(** ** C6: a campaign with revenue only *)

(** C6.  Take a run whose feeds parse, a UTC day [d] of the window and a
    campaign [c] such that some revenue row falls on day [d] for [c] while no
    cost row does.  The report has a row for ([d], [c]) whose total cost is
    0.0, whose campaign name is the empty string, and whose cost-per-click
    and ROI are NaN. *)
Theorem revenue_only_campaign (a : args) (cost : list cost_row) (rev : list rev_row)
  (scost : list (stamped cost_row)) (srev : list (stamped rev_row))
  (d : Z) (c : string) :
  parse_est_to_utc cost_data_date (map cast_cost cost) = Some scost ->
  parse_est_to_utc rev_data_date (map cast_rev rev) = Some srev ->
  floor_to ppd (date_from a) <= d <= floor_to ppd (date_to a) ->
  (exists r, r ∈ srev /\ date_utc r = Some d /\ rev_campaign_id (row_of r) = Some c) ->
  (forall r, r ∈ scost -> date_utc r = Some d -> cost_campaign_id (row_of r) <> Some c) ->
  exists out row,
    main a cost rev = Some out /\
    row ∈ out /\
    date row = strftime d /\
    campaign_id row = c /\
    total_cost row = 0%float /\
    campaign_name row = ""%string /\
    avg_cpc row = nan /\
    total_roi row = nan.
Proof.
  intros Hc Hr Hw (r & Hin & Hd & Hid) Hno.
  set (d_from := floor_to ppd (date_from a)) in *.
  set (d_to := floor_to ppd (date_to a)) in *.
  set (cd := cost_daily (filter_window d_from d_to scost)).
  set (rd := rev_daily (filter_window d_from d_to srev)).
  set (j := fill_joined ((d, c), cell (d, c) cd, cell (d, c) rd)).
  assert (Hrd : (d, c) ∈ rd.*1).
  { apply elem_of_rev_daily_keys. exists r. split; [|done].
    apply elem_of_filter_window. split; [|done].
    rewrite Hd. by apply in_window_Some. }
  assert (Hcd : (d, c) ∉ cd.*1).
  { intros (r' & [_ Hin']%elem_of_filter_window & Hd' & Hid')%elem_of_cost_daily_keys.
    by apply (Hno r'). }
  assert (Hj : j ∈ reconcile cd rd).
  { apply elem_of_reconcile; [apply NoDup_cost_daily|apply NoDup_rev_daily|].
    unfold j. rewrite j_key_fill. auto. }
  eexists _, _. split; [|split].
  - unfold main. rewrite Hc. simpl. rewrite Hr. simpl. reflexivity.
  - apply elem_of_report_of. exists j. split; [exact Hj|reflexivity].
  - unfold j. rewrite (cell_None _ cd Hcd). repeat split; reflexivity.
Qed.

Lemma revenue_only_campaign_witness :
  exists out row,
    main Sample.one_day [] Sample.revenue_feed = Some out /\
    row ∈ out /\
    date row = strftime (utc_midnight 2019 1 1) /\
    campaign_id row = "A"%string /\
    total_cost row = 0%float /\
    campaign_name row = ""%string /\
    avg_cpc row = nan /\
    total_roi row = nan.
Proof.
  apply (revenue_only_campaign Sample.one_day [] Sample.revenue_feed []
           [Stamped (RevRow (Some "A"%string) 20 (Some "12/31/18 19:00"%string))
                    (Some (utc_midnight 2019 1 1)) (Some (utc_midnight 2019 1 1))
                    (Some (utc_midnight 2019 1 1))]).
  - reflexivity.
  - vm_compute. reflexivity.
  - vm_compute. split; discriminate.
  - eexists. split; [left|]. split; reflexivity.
  - intros r Hr. by apply elem_of_nil in Hr.
Defined.

(** ** The hourly frame *)

Lemma filter_filter_comm {A} (P Q : A -> Prop) `{!forall x, Decision (P x)}
  `{!forall x, Decision (Q x)} (l : list A) :
  filter P (filter Q l) = filter Q (filter P l).
Proof.
  induction l as [|x l IH]; [done|].
  rewrite !filter_cons.
  destruct (decide (P x)), (decide (Q x)); rewrite ?filter_cons;
    rewrite ?decide_True by done; rewrite ?decide_False by done; by rewrite ?IH.
Qed.

Lemma rows_of_filter `{EqDecision K} {A} (key : A -> option K) (k : K)
  (P : A -> Prop) `{!forall x, Decision (P x)} (df : list A) :
  rows_of key k (filter P df) = filter P (rows_of key k df).
Proof. unfold rows_of. apply filter_filter_comm. Qed.

Lemma rows_of_nil `{EqDecision K} {A} (key : A -> option K) (k : K) (df : list A) :
  k ∉ omap key df -> rows_of key k df = [].
Proof.
  intros Hk. unfold rows_of. induction df as [|r df IH]; [done|].
  rewrite filter_cons. destruct (decide (key r = Some k)) as [E|N].
  - destruct Hk. apply list_elem_of_omap. exists r. split; [left|done].
  - apply IH. intros Hin. apply Hk.
    apply list_elem_of_omap in Hin as (x & Hx & E).
    apply list_elem_of_omap. exists x. split; [by right|done].
Qed.

Lemma isnan_fillna_zero (x : float) : isnan (fillna 0 x) = false.
Proof. unfold fillna. by destruct (isnan x) eqn:E. Qed.

Lemma group_mean_no_nan (vals : list float) :
  Forall (fun v => isnan v = false) vals -> vals <> [] ->
  group_mean vals = (group_sum vals / float_of_nat (length vals))%float.
Proof.
  intros Hall Hne. unfold group_mean.
  assert (filter (fun v => isnan v = false) vals = vals) as ->.
  { clear Hne. induction vals as [|v vs IH]; [done|].
    apply Forall_cons in Hall as [Hv Hall].
    rewrite filter_cons, decide_True by done. by rewrite IH. }
  destruct vals; done.
Qed.

Lemma hourly_frame_revenue cost rev (b : hour_row) :
  b ∈ hourly_frame cost rev ->
  isnan (h_revenue b) = false /\ isnan (h_cost b) = false /\
  h_profit b = (h_revenue b - h_cost b)%float.
Proof.
  unfold hourly_frame. intros ([[k c] v] & -> & _)%list_elem_of_fmap.
  simpl. auto using isnan_fillna_zero.
Qed.

(** ** C9: the campaign name of a group *)

Lemma str_min2_choice (acc v : option string) :
  str_min2 acc v = acc \/ str_min2 acc v = v.
Proof.
  destruct acc as [a|], v as [b|]; simpl; auto.
  destruct (String.leb a b); auto.
Qed.

Lemma str_min2_le (acc v : option string) (x : string) :
  acc = Some x \/ v = Some x ->
  exists y, str_min2 acc v = Some y /\ string_le y x.
Proof.
  destruct acc as [a|], v as [b|]; simpl; intros [[= <-]|[= <-]].
  - destruct (String.leb a b) eqn:E; eexists; (split; [done|]); [done|].
    destruct (total string_le b a); [done|]. unfold string_le in *. congruence.
  - destruct (String.leb a b) eqn:E; eexists; (split; [done|]); done.
  - by eexists.
  - by eexists.
Qed.

Lemma is_lex_min_step (m acc v : option string) (vals : list (option string)) :
  is_lex_min m (str_min2 acc v :: vals) -> is_lex_min m (acc :: v :: vals).
Proof.
  destruct m as [s|]; simpl.
  - intros [Hin Hle]. split.
    + apply elem_of_cons in Hin as [->|Hin]; [|by do 2 right].
      destruct (str_min2_choice acc v) as [-> | ->]; [left|right; left].
    + intros n Hn.
      assert (Hstep : acc = Some n \/ v = Some n -> String.leb s n = true).
      { intros (y & Hy & Hyn)%str_min2_le.
        apply (transitivity (R := string_le) (y := y)); [|done].
        apply Hle. rewrite Hy. left. }
      apply elem_of_cons in Hn as [Hn|Hn]; [by apply Hstep; left|].
      apply elem_of_cons in Hn as [Hn|Hn]; [by apply Hstep; right|].
      apply Hle. by right.
  - intros Hno n Hn.
    assert (Hstep : ~ (acc = Some n \/ v = Some n)).
    { intros (y & Hy & _)%str_min2_le. apply (Hno y). rewrite Hy. left. }
    apply elem_of_cons in Hn as [Hn|Hn]; [by apply Hstep; left|].
    apply elem_of_cons in Hn as [Hn|Hn]; [by apply Hstep; right|].
    apply (Hno n). by right.
Qed.

Lemma fold_str_min2_spec (vals : list (option string)) (acc : option string) :
  is_lex_min (fold_left str_min2 vals acc) (acc :: vals).
Proof.
  revert acc. induction vals as [|v vals IH]; intros acc; simpl.
  - destruct acc as [a|]; simpl.
    + split; [left|]. intros n [[= ->]|[]%elem_of_nil]%elem_of_cons.
      apply (reflexivity (R := string_le)).
    + intros n [[=]|[]%elem_of_nil]%elem_of_cons.
  - apply is_lex_min_step, IH.
Qed.

Lemma group_min_spec (vals : list (option string)) : is_lex_min (group_min vals) vals.
Proof.
  pose proof (fold_str_min2_spec vals None) as H. unfold group_min.
  destruct (fold_left str_min2 vals None) as [m|]; simpl in *.
  - destruct H as [Hin Hle]. split.
    + by apply elem_of_cons in Hin as [[=]|Hin].
    + intros n Hn. apply Hle. by right.
  - intros n Hn. apply (H n). by right.
Qed.

Lemma is_lex_min_unique (m m' : option string) (l l' : list (option string)) :
  l ≡ₚ l' -> is_lex_min m l -> is_lex_min m' l' -> m = m'.
Proof.
  intros Hp. destruct m as [s|], m' as [s'|]; simpl.
  - intros [Hin Hle] [Hin' Hle']. f_equal.
    apply (anti_symm string_le).
    + apply Hle. by rewrite Hp.
    + apply Hle'. by rewrite <- Hp.
  - intros [Hin _] Hno. destruct (Hno s). by rewrite <- Hp.
  - intros Hno [Hin _]. destruct (Hno s'). by rewrite Hp.
  - done.
Qed.

Lemma group_min_Permutation (l l' : list (option string)) :
  l ≡ₚ l' -> group_min l = group_min l'.
Proof.
  intros Hp. eapply is_lex_min_unique; [exact Hp|apply group_min_spec..].
Qed.

(** C9.  The daily cost aggregate has one row for each (day, campaign) key
    that a cost row carries, and the campaign name of that row is the least,
    in code-point order, of the names of the rows of the group (<NA> if no
    row of the group has a name).  Hence the names of the aggregate do not
    depend on the row order: for every permutation of the cost rows the
    aggregate has the same keys with the same names, in the same order. *)
Theorem campaign_name_is_minimum (cost cost' : list (stamped cost_row)) :
  cost ≡ₚ cost' ->
  NoDup (cost_daily cost).*1 /\
  (forall r k, r ∈ cost -> daily_key cost_campaign_id r = Some k ->
     exists name total_cost total_clicks,
       (k, (name, total_cost, total_clicks)) ∈ cost_daily cost /\
       is_lex_min name
         (map (fun r => cost_campaign_name (row_of r))
              (rows_of (daily_key cost_campaign_id) k cost)) /\
       (forall n, cost_campaign_name (row_of r) = Some n ->
          exists m, name = Some m /\ String.leb m n = true)) /\
  (forall k name total_cost total_clicks,
     (k, (name, total_cost, total_clicks)) ∈ cost_daily cost ->
     (exists r, r ∈ cost /\ daily_key cost_campaign_id r = Some k) /\
     is_lex_min name
       (map (fun r => cost_campaign_name (row_of r))
            (rows_of (daily_key cost_campaign_id) k cost))) /\
  map (fun r => (r.1, r.2.1.1)) (cost_daily cost') =
  map (fun r => (r.1, r.2.1.1)) (cost_daily cost).
Proof.
  intros Hp. split; [apply NoDup_groupby_keys|]. split; [|split].
  - intros r k Hr Hk.
    set (names := map (fun r => cost_campaign_name (row_of r))
                      (rows_of (daily_key cost_campaign_id) k cost)).
    exists (group_min names). eexists _, _. split; [|split].
    + apply elem_of_groupby. split; [|reflexivity].
      apply elem_of_unique_keys, list_elem_of_omap. eauto.
    + apply group_min_spec.
    + intros n Hn.
      assert (Hin : Some n ∈ names).
      { unfold names. change (map ?f ?l) with (f <$> l). apply list_elem_of_fmap.
        exists r. split; [done|]. unfold rows_of. by apply list_elem_of_filter. }
      pose proof (group_min_spec names) as Hmin.
      destruct (group_min names) as [m|]; simpl in Hmin.
      * exists m. split; [done|]. by apply Hmin.
      * by destruct (Hmin n).
  - intros k name tc tk [Hk [= -> _ _]]%elem_of_groupby. split.
    + by apply elem_of_unique_keys, list_elem_of_omap in Hk.
    + apply group_min_spec.
  - unfold cost_daily, groupby. rewrite !map_map. simpl.
    rewrite (unique_keys_Permutation (omap (daily_key cost_campaign_id) cost')
               (omap (daily_key cost_campaign_id) cost)) by (by rewrite Hp).
    apply map_ext. intros k. f_equal.
    apply group_min_Permutation.
    change (map ?f ?l) with (f <$> l). unfold rows_of. by rewrite Hp.
Qed.

Lemma campaign_name_is_minimum_witness :
  NoDup (cost_daily Sample.renamed_cost).*1 /\
  (forall r k, r ∈ Sample.renamed_cost -> daily_key cost_campaign_id r = Some k ->
     exists name total_cost total_clicks,
       (k, (name, total_cost, total_clicks)) ∈ cost_daily Sample.renamed_cost /\
       is_lex_min name
         (map (fun r => cost_campaign_name (row_of r))
              (rows_of (daily_key cost_campaign_id) k Sample.renamed_cost)) /\
       (forall n, cost_campaign_name (row_of r) = Some n ->
          exists m, name = Some m /\ String.leb m n = true)) /\
  (forall k name total_cost total_clicks,
     (k, (name, total_cost, total_clicks)) ∈ cost_daily Sample.renamed_cost ->
     (exists r, r ∈ Sample.renamed_cost /\ daily_key cost_campaign_id r = Some k) /\
     is_lex_min name
       (map (fun r => cost_campaign_name (row_of r))
            (rows_of (daily_key cost_campaign_id) k Sample.renamed_cost))) /\
  map (fun r => (r.1, r.2.1.1)) (cost_daily (reverse Sample.renamed_cost)) =
  map (fun r => (r.1, r.2.1.1)) (cost_daily Sample.renamed_cost).
Proof.
  apply (campaign_name_is_minimum Sample.renamed_cost (reverse Sample.renamed_cost)).
  symmetry. apply reverse_Permutation.
Defined.

(** The name kept is the least one, not the first one seen. *)
Example campaign_name_not_first_seen :
  map (fun r => r.2.1.1) (cost_daily Sample.renamed_cost) = [Some "Alpha"%string].
Proof. vm_compute. reflexivity. Qed.

(** ** C8: hourly sums against daily sums *)

Lemma filter_ext_in {A} (P Q : A -> Prop) `{!forall x, Decision (P x)}
  `{!forall x, Decision (Q x)} (l : list A) :
  (forall x, x ∈ l -> P x <-> Q x) -> filter P l = filter Q l.
Proof.
  induction l as [|x l IH]; intros Hpq; [done|].
  rewrite !filter_cons.
  assert (Hx : P x <-> Q x) by (apply Hpq; left).
  rewrite IH by (intros y Hy; apply Hpq; by right).
  destruct (decide (P x)), (decide (Q x)); tauto.
Qed.

Lemma filter_disjoint_app {A} (P Q : A -> Prop) `{!forall x, Decision (P x)}
  `{!forall x, Decision (Q x)} (l : list A) :
  (forall x, P x -> Q x -> False) ->
  filter P l ++ filter Q l ≡ₚ filter (fun x => P x \/ Q x) l.
Proof.
  intros Hd. induction l as [|x l IH]; [done|].
  rewrite !filter_cons.
  destruct (decide (P x)) as [HP|HP], (decide (Q x)) as [HQ|HQ].
  - destruct (Hd x HP HQ).
  - rewrite decide_True by auto. simpl. by rewrite IH.
  - rewrite decide_True by auto. rewrite <- Permutation_middle. by rewrite IH.
  - rewrite decide_False by tauto. done.
Qed.

Lemma filter_never {A} (l : list A) : filter (fun _ => False) l = [].
Proof. by induction l. Qed.

Section Partition.
Context `{EqDecision K1, EqDecision K2, KeyOrder K2} {A : Type}.
Context (f : A -> option K1) (g : A -> option K2) (proj : K2 -> K1).
Context (df : list A).
Hypothesis g_refines_f : forall r k2, g r = Some k2 -> f r = Some (proj k2).
Hypothesis f_has_g : forall r k1, r ∈ df -> f r = Some k1 -> is_Some (g r).

(** The rows whose fine key is one of [ks]. *)
Lemma concat_rows_of (ks : list K2) :
  NoDup ks ->
  concat (map (fun k => rows_of g k df) ks) ≡ₚ
  filter (fun r => in_keys ks (g r)) df.
Proof.
  induction 1 as [|k ks Hk Hnd IH]; simpl.
  - rewrite (filter_ext_in _ (fun _ => False)).
    + by rewrite filter_never.
    + intros r _. unfold in_keys. destruct (g r); [|done].
      split; [|done]. by intros []%elem_of_nil.
  - rewrite IH. unfold rows_of. rewrite filter_disjoint_app.
    + apply reflexive_eq, filter_ext_in. intros r _. unfold in_keys.
      destruct (g r) as [k'|]; rewrite ?elem_of_cons.
      * split; intros [E|E]; auto; [injection E as ->; by left|left; by f_equal].
      * split; [by intros [|]|done].
    + intros r E. unfold in_keys. rewrite E. done.
Qed.

(** The fine groups of a coarse key are a partition of its group. *)
Lemma rows_of_partition (k1 : K1) :
  concat (map (fun k => rows_of g k df)
              (filter (fun k => proj k = k1) (unique_keys (omap g df)))) ≡ₚ
  rows_of f k1 df.
Proof.
  rewrite concat_rows_of by (apply NoDup_filter, NoDup_unique_keys).
  apply reflexive_eq, filter_ext_in. intros r Hr. unfold in_keys. split.
  - destruct (g r) as [k|] eqn:E; [|done].
    intros [Hp _]%list_elem_of_filter. rewrite <- Hp. by apply g_refines_f.
  - intros E. destruct (f_has_g r k1 Hr E) as [k Hk]. rewrite Hk.
    apply list_elem_of_filter. split.
    + apply g_refines_f in Hk. congruence.
    + apply elem_of_unique_keys, list_elem_of_omap. eauto.
Qed.

(** A coarse key with a single fine key: the two groups are the same rows in
    the same order. *)
Lemma rows_of_single (k1 : K1) (k : K2) :
  filter (fun k => proj k = k1) (unique_keys (omap g df)) = [k] ->
  rows_of g k df = rows_of f k1 df.
Proof.
  intros Hone. unfold rows_of. apply filter_ext_in. intros r Hr.
  assert (Hk : proj k = k1).
  { assert (Hin : k ∈ [k]) by left. rewrite <- Hone in Hin.
    by apply list_elem_of_filter in Hin as [? _]. }
  split.
  - intros E. rewrite <- Hk. by apply g_refines_f.
  - intros E. destruct (f_has_g r k1 Hr E) as [k' Hk'].
    assert (Hin : k' ∈ [k]).
    { rewrite <- Hone. apply list_elem_of_filter. split.
      - apply g_refines_f in Hk'. congruence.
      - apply elem_of_unique_keys, list_elem_of_omap. eauto. }
    apply list_elem_of_singleton in Hin. congruence.
Qed.

End Partition.

Lemma hourly_key_daily {A} (cid : A -> option string) (r : stamped A) k :
  hourly_key cid r = Some k -> daily_key cid r = Some (day_of_hour_key k).
Proof.
  unfold hourly_key, daily_key.
  destruct (date_utc r) as [d|], (hour_utc r) as [h|], (cid (row_of r)) as [c|];
    simpl; try done.
  by intros [= <-].
Qed.

Lemma daily_key_hourly {A} (col : A -> option string) (cid : A -> option string)
  (df : list A) (out : list (stamped A)) (r : stamped A) k :
  parse_est_to_utc col df = Some out -> r ∈ out ->
  daily_key cid r = Some k -> is_Some (hourly_key cid r).
Proof.
  intros Hp Hr. destruct (parse_est_to_utc_stamps _ _ _ _ Hp Hr) as [Hd Hh].
  unfold hourly_key, daily_key. rewrite Hd, Hh.
  destruct (dt_utc r); simpl; [|done].
  destruct (cid (row_of r)); simpl; [|done]. by eexists.
Qed.

(** ** The grouped sum is a float64 sum of its cells *)

Lemma group_sum_float64_sum (cells : list float) :
  float64_sum_of cells (group_sum cells).
Proof.
  right. unfold group_sum, compensated_sum.
  generalize (0%float, 0%float). induction cells as [|v cells IH]; intros st; [done|].
  rewrite filter_cons. cbn [fold_left]. unfold kahan_step at 2.
  destruct (isnan v) eqn:E.
  - rewrite decide_False by done. apply IH.
  - rewrite decide_True by done. cbn [fold_left]. apply IH.
Qed.

(** C8, as the code has it.  Take a run whose feeds parse, its filtered
    feeds, and a (day, campaign) key.  The hour buckets of the key partition
    its daily group: the rows of the hourly groups of that day and campaign,
    taken together, are the rows of the daily group, each once.  The daily
    total cost (revenue) of the key adds up the cost (revenue) cells of the
    rows of its daily group, and the hourly cost (revenue) of each of its
    buckets adds up the cells of the rows of that bucket.  So the hourly
    sums and the daily total add up the same cells; as float64 values,
    rounded in different groupings, they need not be equal. *)
Theorem hourly_partition_of_daily (a : args) (cost : list cost_row) (rev : list rev_row)
  (scost : list (stamped cost_row)) (srev : list (stamped rev_row))
  (d : Z) (c : string) :
  parse_est_to_utc cost_data_date (map cast_cost cost) = Some scost ->
  parse_est_to_utc rev_data_date (map cast_rev rev) = Some srev ->
  let cost' := filter_window (floor_to ppd (date_from a)) (floor_to ppd (date_to a)) scost in
  let rev' := filter_window (floor_to ppd (date_from a)) (floor_to ppd (date_to a)) srev in
  let cost_hours := hours_of (d, c) (cost_h cost').*1 in
  let rev_hours := hours_of (d, c) (rev_h rev').*1 in
  concat (map (fun k => rows_of (hourly_key cost_campaign_id) k cost') cost_hours) ≡ₚ
    rows_of (daily_key cost_campaign_id) (d, c) cost' /\
  concat (map (fun k => rows_of (hourly_key rev_campaign_id) k rev') rev_hours) ≡ₚ
    rows_of (daily_key rev_campaign_id) (d, c) rev' /\
  (rows_of (daily_key cost_campaign_id) (d, c) cost' <> [] ->
     exists name total clicks, ((d, c), (name, total, clicks)) ∈ cost_daily cost') /\
  (forall name total clicks, ((d, c), (name, total, clicks)) ∈ cost_daily cost' ->
     float64_sum_of
       (map (fun r => cost_cost (row_of r))
            (rows_of (daily_key cost_campaign_id) (d, c) cost')) total) /\
  (forall k, k ∈ cost_hours ->
     exists v, (k, v) ∈ cost_h cost' /\
       forall v', (k, v') ∈ cost_h cost' ->
         float64_sum_of
           (map (fun r => cost_cost (row_of r))
                (rows_of (hourly_key cost_campaign_id) k cost')) v') /\
  (rows_of (daily_key rev_campaign_id) (d, c) rev' <> [] ->
     exists total, ((d, c), total) ∈ rev_daily rev') /\
  (forall total, ((d, c), total) ∈ rev_daily rev' ->
     float64_sum_of
       (map (fun r => rev_revenue (row_of r))
            (rows_of (daily_key rev_campaign_id) (d, c) rev')) total) /\
  (forall k, k ∈ rev_hours ->
     exists v, (k, v) ∈ rev_h rev' /\
       forall v', (k, v') ∈ rev_h rev' ->
         float64_sum_of
           (map (fun r => rev_revenue (row_of r))
                (rows_of (hourly_key rev_campaign_id) k rev')) v').
Proof.
  intros Hc Hr cost' rev' cost_hours rev_hours.
  assert (Hfc : forall r k1, r ∈ cost' -> daily_key cost_campaign_id r = Some k1 ->
            is_Some (hourly_key cost_campaign_id r)).
  { intros r k1 [_ Hin]%elem_of_filter_window. by eapply daily_key_hourly. }
  assert (Hfr : forall r k1, r ∈ rev' -> daily_key rev_campaign_id r = Some k1 ->
            is_Some (hourly_key rev_campaign_id r)).
  { intros r k1 [_ Hin]%elem_of_filter_window. by eapply daily_key_hourly. }
  assert (Hkey : forall {A} (key : stamped A -> option (Z * string)) (df : list (stamped A)),
            rows_of key (d, c) df <> [] -> (d, c) ∈ unique_keys (omap key df)).
  { intros A key df Hne. apply elem_of_unique_keys.
    destruct (decide ((d, c) ∈ omap key df)) as [Hin|Hin]; [done|].
    destruct Hne. by apply rows_of_nil. }
  split; [|split; [|split; [|split; [|split; [|split; [|split]]]]]].
  - unfold cost_hours, hours_of, cost_h. rewrite groupby_keys.
    apply (rows_of_partition _ _ day_of_hour_key); [apply hourly_key_daily|done].
  - unfold rev_hours, hours_of, rev_h. rewrite groupby_keys.
    apply (rows_of_partition _ _ day_of_hour_key); [apply hourly_key_daily|done].
  - intros Hne%Hkey. eexists _, _, _. apply elem_of_groupby. by split.
  - intros name total clicks [_ [= _ -> _]]%elem_of_groupby.
    apply group_sum_float64_sum.
  - intros k [_ Hk]%list_elem_of_filter. unfold cost_h in Hk.
    rewrite groupby_keys in Hk. eexists. split.
    + apply elem_of_groupby. by split.
    + intros v' [_ ->]%elem_of_groupby. apply group_sum_float64_sum.
  - intros Hne%Hkey. eexists. apply elem_of_groupby. by split.
  - intros total [_ ->]%elem_of_groupby. apply group_sum_float64_sum.
  - intros k [_ Hk]%list_elem_of_filter. unfold rev_h in Hk.
    rewrite groupby_keys in Hk. eexists. split.
    + apply elem_of_groupby. by split.
    + intros v' [_ ->]%elem_of_groupby. apply group_sum_float64_sum.
Qed.

Lemma hourly_partition_of_daily_witness :
  let cost' := filter_window (floor_to ppd (date_from Sample.hourly_day))
                 (floor_to ppd (date_to Sample.hourly_day))
                 Sample.two_hours_cost_utc in
  let rev' := filter_window (floor_to ppd (date_from Sample.hourly_day))
                (floor_to ppd (date_to Sample.hourly_day))
                Sample.two_hours_revenue_utc in
  let d := utc_midnight 2019 1 1 in
  let c := "A"%string in
  let cost_hours := hours_of (d, c) (cost_h cost').*1 in
  let rev_hours := hours_of (d, c) (rev_h rev').*1 in
  concat (map (fun k => rows_of (hourly_key cost_campaign_id) k cost') cost_hours) ≡ₚ
    rows_of (daily_key cost_campaign_id) (d, c) cost' /\
  concat (map (fun k => rows_of (hourly_key rev_campaign_id) k rev') rev_hours) ≡ₚ
    rows_of (daily_key rev_campaign_id) (d, c) rev' /\
  (rows_of (daily_key cost_campaign_id) (d, c) cost' <> [] ->
     exists name total clicks, ((d, c), (name, total, clicks)) ∈ cost_daily cost') /\
  (forall name total clicks, ((d, c), (name, total, clicks)) ∈ cost_daily cost' ->
     float64_sum_of
       (map (fun r => cost_cost (row_of r))
            (rows_of (daily_key cost_campaign_id) (d, c) cost')) total) /\
  (forall k, k ∈ cost_hours ->
     exists v, (k, v) ∈ cost_h cost' /\
       forall v', (k, v') ∈ cost_h cost' ->
         float64_sum_of
           (map (fun r => cost_cost (row_of r))
                (rows_of (hourly_key cost_campaign_id) k cost')) v') /\
  (rows_of (daily_key rev_campaign_id) (d, c) rev' <> [] ->
     exists total, ((d, c), total) ∈ rev_daily rev') /\
  (forall total, ((d, c), total) ∈ rev_daily rev' ->
     float64_sum_of
       (map (fun r => rev_revenue (row_of r))
            (rows_of (daily_key rev_campaign_id) (d, c) rev')) total) /\
  (forall k, k ∈ rev_hours ->
     exists v, (k, v) ∈ rev_h rev' /\
       forall v', (k, v') ∈ rev_h rev' ->
         float64_sum_of
           (map (fun r => rev_revenue (row_of r))
                (rows_of (hourly_key rev_campaign_id) k rev')) v').
Proof.
  apply (hourly_partition_of_daily Sample.hourly_day Sample.two_hours_cost
           Sample.two_hours_revenue Sample.two_hours_cost_utc
           Sample.two_hours_revenue_utc (utc_midnight 2019 1 1) "A"%string).
  - vm_compute. reflexivity.
  - vm_compute. reflexivity.
Defined.

(** With several hour buckets the float64 sums need not agree.  The four cost
    rows of [Sample.rounding_cost] (1e16, 1.0, 1.0, 1.0; two per hour) parse
    and fall on one day.  Their daily total is 10000000000000004.0, the two
    hourly totals are 1e16 and 2.0, and these add up to 10000000000000002.0,
    whether pandas sums them or they are added one to the other. *)
Lemma hourly_sum_differs_from_daily :
  let k := (utc_midnight 2019 1 1, "A"%string) in
  is_Some (parse_est_to_utc cost_data_date (map cast_cost Sample.rounding_cost)) /\
  exists name total clicks,
    cost_daily Sample.rounding_cost_utc = [(k, (name, total, clicks))] /\
    (cost_h Sample.rounding_cost_utc).*2 = [1e16; 2]%float /\
    (hourly_total k (cost_h Sample.rounding_cost_utc) =? total)%float = false /\
    (1e16 + 2 =? total)%float = false.
Proof.
  split.
  - vm_compute. by eexists.
  - eexists _, _, _. split; [vm_compute; reflexivity|].
    split; [vm_compute; reflexivity|]. split; vm_compute; reflexivity.
Qed.


(** The same rows summed cell after cell without compensation differ as
    well: 1e16 for the day, 1e16 + 2.0 for the two hours. *)
Example plain_sum_differs_too :
  fold_left PrimFloat.add [1e16; 1; 1; 1]%float 0%float = 1e16%float /\
  (fold_left PrimFloat.add [1e16; 1]%float 0 + fold_left PrimFloat.add [1; 1]%float 0)%float
    = 10000000000000002%float /\
  group_sum [1e16; 1; 1; 1]%float = 10000000000000004%float.
Proof. repeat split; vm_compute; reflexivity. Qed.

(** ** C5: ambiguous local times *)

(** *** The zone table *)

Lemma bisect_right_between (data : list Z) (t t' : Z) :
  t <= t' ->
  (forall T, T ∈ data -> ~ (t < T <= t')) ->
  bisect_right data t = bisect_right data t'.
Proof.
  intros Htt. induction data as [|T data IH]; intros Hno; simpl; [done|].
  assert (HT : ~ (t < T <= t')) by (apply Hno; left).
  destruct (Z.leb_spec T t), (Z.leb_spec T t'); try lia.
  f_equal. apply IH. intros T' HT'. apply Hno. by right.
Qed.

(** Between two instants with different offsets lies a transition. *)
Lemma utcoffset_change (t t' : Z) :
  t <= t' -> utcoffset_at t <> utcoffset_at t' ->
  exists T, T ∈ NewYork.tdata /\ t < T <= t'.
Proof.
  intros Htt Hne.
  destruct (decide (Exists (fun T => t < T <= t') NewYork.tdata)) as [Hex|Hno].
  - apply Exists_exists in Hex as (T & HT & Hb). eauto.
  - destruct Hne. unfold utcoffset_at. f_equal. f_equal.
    apply bisect_right_between; [done|].
    intros T HT Hb. apply Hno, Exists_exists. eauto.
Qed.

(** Two transitions are more than a day apart. *)
Lemma tdata_gaps (T1 T2 : Z) :
  T1 ∈ NewYork.tdata -> T2 ∈ NewYork.tdata -> T1 < T2 -> T1 + 30 * pph <= T2.
Proof.
  intros H1 H2 Hlt.
  assert (Hall : forallb (fun T1 =>
                    forallb (fun T2 => (T2 <=? T1) || (T1 + 30 * pph <=? T2))
                            NewYork.tdata) NewYork.tdata = true)
    by (vm_compute; reflexivity).
  rewrite forallb_forall in Hall.
  apply list_elem_of_In, Hall in H1. rewrite forallb_forall in H1.
  apply list_elem_of_In, H1 in H2.
  apply orb_true_iff in H2 as [H2|H2]; lia.
Qed.

(** Every offset of the table is EST or EDT. *)
Lemma utcoffset_at_cases (t : Z) :
  utcoffset_at t = -5 * pph \/ utcoffset_at t = -4 * pph.
Proof.
  unfold utcoffset_at, delta_at.
  generalize (bisect_right NewYork.tdata t - 1)%nat. intros i.
  destruct (lt_dec i (length NewYork.deltas)) as [Hi|Hi].
  - assert (Hall : forallb (fun d => (d =? -5 * pph) || (d =? -4 * pph))
                     NewYork.deltas = true) by (vm_compute; reflexivity).
    rewrite forallb_forall in Hall.
    specialize (Hall _ (nth_In NewYork.deltas NewYork.EST Hi)).
    apply orb_true_iff in Hall as [H|H]; lia.
  - left. apply nth_overflow. lia.
Qed.

Section TwoReadings.
Variable off : Z -> Z.
Variable trans : list Z.
Hypothesis off_cases : forall t, off t = -5 * pph \/ off t = -4 * pph.
Hypothesis off_change :
  forall t t', t <= t' -> off t <> off t' -> exists T, T ∈ trans /\ t < T <= t'.
Hypothesis trans_gaps :
  forall T1 T2, T1 ∈ trans -> T2 ∈ trans -> T1 < T2 -> T1 + 30 * pph <= T2.

(** If both readings of a wall-clock value are consistent and differ, the
    offset a day before is EDT and the offset a day after is EST. *)
Lemma two_readings (v : Z) :
  off (v - off (v - ppd)) = off (v - ppd) ->
  off (v - off (v + ppd)) = off (v + ppd) ->
  off (v - ppd) <> off (v + ppd) ->
  off (v - ppd) = -4 * pph /\ off (v + ppd) = -5 * pph.
Proof.
  intros Ha Hb Hne.
  destruct (off_cases (v - ppd)) as [Hl|Hl], (off_cases (v + ppd)) as [Hr|Hr];
    try (split; congruence); try congruence.
  exfalso. rewrite Hl in Ha. rewrite Hr in Hb.
  assert (Hpos : 0 < pph) by (unfold pph, pps; lia).
  assert (Hd : ppd = 24 * pph) by reflexivity.
  destruct (off_change (v - ppd) (v - -4 * pph)) as (T1 & HT1 & Hb1);
    [lia|congruence|].
  destruct (off_change (v - -4 * pph) (v - -5 * pph)) as (T2 & HT2 & Hb2);
    [lia|congruence|].
  pose proof (trans_gaps T1 T2 HT1 HT2). lia.
Qed.

End TwoReadings.

(** An ambiguous wall-clock value has exactly the two readings EDT and EST,
    one hour apart, the EDT one first. *)
Lemma ambiguous_bounds_hour (v a b : Z) :
  ambiguous_bounds v = Some (a, b) ->
  a = v + 4 * pph /\ b = a + pph /\ utc_bounds v = (Some a, Some b) /\ a <> b.
Proof.
  unfold ambiguous_bounds, utc_bounds.
  pose proof (two_readings utcoffset_at NewYork.tdata utcoffset_at_cases
                utcoffset_change tdata_gaps v) as H2.
  revert H2.
  generalize (utcoffset_at (v - ppd)). intros dl.
  generalize (utcoffset_at (v + ppd)). intros dr.
  generalize (utcoffset_at (v - dl)). intros cl.
  generalize (utcoffset_at (v - dr)). intros cr.
  intros H2.
  destruct (Z.eqb_spec (v - dl + cl) v) as [Hl|]; [|done].
  destruct (Z.eqb_spec (v - dr + cr) v) as [Hr|]; [|done].
  destruct (Z.eqb_spec (v - dl) (v - dr)) as [|Hne]; [done|].
  intros [= <- <-].
  destruct H2 as [-> ->]; [lia..|]. repeat split; try lia.
Qed.

(** *** Blocks of ambiguous values *)

Lemma diffs_lookup (l : list Z) (i : nat) (x y : Z) :
  l !! i = Some x -> l !! S i = Some y -> diffs l !! i = Some (y - x).
Proof.
  revert i. induction l as [|x0 l IH]; intros i Hx Hy; [done|].
  destruct l as [|x1 l]; [done|].
  destruct i as [|i]; simpl in *.
  - by simplify_eq.
  - by apply IH.
Qed.

Lemma elem_of_nonzero_from (s : nat) (p : Z -> bool) (l : list Z) (i : nat) (x : Z) :
  l !! i = Some x -> p x = true -> (s + i)%nat ∈ nonzero_from s p l.
Proof.
  revert s i. induction l as [|x0 l IH]; intros s i Hx Hp; [done|].
  destruct i as [|i]; simpl in *.
  - simplify_eq. rewrite Hp, Nat.add_0_r. left.
  - replace (s + S i)%nat with (S s + i)%nat by lia.
    destruct (p x0); [right|]; by apply IH.
Qed.

Lemma mismatch_Some (val : option Z) (e : Z * Z * Z) :
  mismatch val = Some e <->
  val = Some e.1.1 /\ ambiguous_bounds e.1.1 = Some (e.1.2, e.2).
Proof.
  unfold mismatch. destruct val as [v|]; simpl; [|by split; [|intros []]].
  destruct (ambiguous_bounds v) as [[a b]|] eqn:E; simpl.
  - split.
    + intros [= <-]. simpl. by rewrite E.
    + intros [[= ->] H]. destruct e as [[? ?] ?]. simpl in *. congruence.
  - split; [done|]. intros [[= ->] ?]. congruence.
Qed.

(** In a block that is resolved, two consecutive rows with the same value get
    the earlier and the later reading. *)
Lemma infer_group_pair (grp : list (Z * Z * Z)) (r : list Z) (i : nat) (e : Z * Z * Z) :
  infer_group grp = Some r ->
  grp !! i = Some e -> grp !! S i = Some e ->
  length r = length grp /\ r !! i = Some e.1.2 /\ r !! S i = Some e.2.
Proof.
  unfold infer_group. intros Hr Hi HSi.
  destruct (_ || _); [done|].
  set (delta := diffs (map (fun e => e.1.1) grp)) in *.
  assert (Hd : delta !! i = Some 0).
  { replace 0 with (e.1.1 - e.1.1) by lia.
    apply diffs_lookup; change (map ?f ?l) with (f <$> l);
      rewrite list_lookup_fmap; [by rewrite Hi|by rewrite HSi]. }
  apply (elem_of_nonzero_from 0 (fun d => d <=? 0)) in Hd; [|done].
  simpl in Hd.
  destruct (nonzero_from 0 (fun d => d <=? 0) delta) as [|j [|j' js]] eqn:Ej.
  - by apply elem_of_nil in Hd.
  - apply list_elem_of_singleton in Hd as <-. simpl in Hr. injection Hr as <-.
    assert (Hlen : (S i < length grp)%nat) by (by apply lookup_lt_Some in HSi).
    split; [|split].
    + rewrite length_app, !length_map, length_take, length_drop. lia.
    + rewrite lookup_app_l by (rewrite length_map, length_take; lia).
      change (map ?f ?l) with (f <$> l). rewrite list_lookup_fmap.
      rewrite lookup_take_lt by lia. by rewrite Hi.
    + rewrite lookup_app_r by (rewrite length_map, length_take; lia).
      rewrite length_map, length_take.
      replace (S i - S i `min` length grp)%nat with 0%nat by lia.
      change (map ?f ?l) with (f <$> l). rewrite list_lookup_fmap.
      rewrite lookup_drop, Nat.add_0_r. by rewrite HSi.
  - done.
Qed.

Lemma infer_group_length (grp : list (Z * Z * Z)) (r : list Z) :
  infer_group grp = Some r -> length r = length grp.
Proof.
  unfold infer_group. destruct (_ || _); [done|].
  destruct (_ <? _)%nat; [done|]. intros [= <-].
  rewrite length_app, !length_map, length_take, length_drop. lia.
Qed.

Lemma flush_group_pair (grp : list (Z * Z * Z)) (r : list (option Z)) :
  flush_group grp = Some r ->
  length r = length grp /\
  forall i e, grp !! i = Some e -> grp !! S i = Some e ->
    r !! i = Some (Some e.1.2) /\ r !! S i = Some (Some e.2).
Proof.
  unfold flush_group. destruct grp as [|e0 grp]; [by intros [= <-]|].
  destruct (infer_group (e0 :: grp)) as [r0|] eqn:E; [|done].
  simpl. intros [= <-]. split.
  - rewrite length_fmap. by rewrite (infer_group_length _ _ E).
  - intros i e Hi HSi.
    destruct (infer_group_pair _ _ _ _ E Hi HSi) as (_ & H1 & H2).
    rewrite !list_lookup_fmap, H1, H2. done.
Qed.

Lemma mismatch_ambiguous (v a b : Z) :
  ambiguous_bounds v = Some (a, b) -> mismatch (Some v) = Some (v, a, b).
Proof. intros E. unfold mismatch. simpl. by rewrite E. Qed.

Lemma block_lookup (grp : list (Z * Z * Z)) (i : nat) (v a b : Z) :
  Forall (fun e => ambiguous_bounds e.1.1 = Some (e.1.2, e.2)) grp ->
  ((fun e => Some e.1.1) <$> grp) !! i = Some (Some v) ->
  ambiguous_bounds v = Some (a, b) ->
  grp !! i = Some (v, a, b).
Proof.
  intros Hall Hi Hv. rewrite list_lookup_fmap in Hi.
  destruct (grp !! i) as [[[v' a'] b']|] eqn:E; [|done].
  simpl in Hi. injection Hi as ->.
  rewrite Forall_forall in Hall.
  specialize (Hall _ (list_elem_of_lookup_2 _ _ _ E)). simpl in Hall. congruence.
Qed.

(** Walking the column: whatever block is open, two consecutive rows with the
    same ambiguous value get its earlier and its later reading. *)
Lemma dst_hours_from_pair (vals : list (option Z)) :
  forall (grp : list (Z * Z * Z)) (dh : list (option Z)),
  dst_hours_from vals grp = Some dh ->
  Forall (fun e => ambiguous_bounds e.1.1 = Some (e.1.2, e.2)) grp ->
  length dh = (length grp + length vals)%nat /\
  forall i v a b,
    (((fun e => Some e.1.1) <$> grp) ++ vals) !! i = Some (Some v) ->
    (((fun e => Some e.1.1) <$> grp) ++ vals) !! S i = Some (Some v) ->
    ambiguous_bounds v = Some (a, b) ->
    dh !! i = Some (Some a) /\ dh !! S i = Some (Some b).
Proof.
  induction vals as [|val vals IH]; intros grp dh Hdh Hall.
  - simpl in Hdh. apply flush_group_pair in Hdh as [Hlen Hpair].
    split; [simpl; lia|]. intros i v a b. rewrite app_nil_r. intros Hi HSi Hv.
    apply (Hpair i (v, a, b)); by eapply block_lookup.
  - simpl in Hdh. destruct (mismatch val) as [e|] eqn:Em.
    + apply mismatch_Some in Em as [-> Hb].
      apply IH in Hdh as [Hlen Hpair].
      * split; [rewrite Hlen, length_app; simpl; lia|].
        intros i v a b Hi HSi Hv. apply (Hpair i v a b); [| |done].
        -- by rewrite fmap_app, <- app_assoc.
        -- by rewrite fmap_app, <- app_assoc.
      * apply Forall_app. split; [done|]. by apply Forall_singleton.
    + destruct (flush_group grp) as [r|] eqn:Er; [|done]. simpl in Hdh.
      destruct (dst_hours_from vals []) as [r'|] eqn:Er'; [|done]. simpl in Hdh.
      injection Hdh as <-.
      apply flush_group_pair in Er as [Hlen Hpair].
      apply IH in Er' as [Hlen' Hpair']; [|by apply Forall_nil].
      simpl in Hlen'.
      split; [rewrite length_app; simpl; lia|].
      intros i v a b Hi HSi Hv.
      assert (Hn : length ((fun e => Some e.1.1) <$> grp) = length grp)
        by apply length_fmap.
      assert (Hval : forall j, (j = length grp)%nat ->
                (((fun e => Some e.1.1) <$> grp) ++ val :: vals) !! j = Some (Some v) ->
                False).
      { intros j -> Hj. rewrite lookup_app_r in Hj by lia.
        rewrite Hn, Nat.sub_diag in Hj. simpl in Hj. injection Hj as ->.
        rewrite (mismatch_ambiguous _ _ _ Hv) in Em. done. }
      destruct (decide (S i < length grp)%nat) as [Hlt|Hge].
      * rewrite lookup_app_l in Hi by lia. rewrite lookup_app_l in HSi by lia.
        rewrite !lookup_app_l by lia.
        apply (Hpair i (v, a, b)); by eapply block_lookup.
      * destruct (decide (S i = length grp)) as [E|NE]; [destruct (Hval _ E HSi)|].
        destruct (decide (i = length grp)) as [E|NE']; [destruct (Hval _ E Hi)|].
        rewrite lookup_app_r in Hi by lia. rewrite lookup_app_r in HSi by lia.
        rewrite !lookup_app_r by lia. rewrite Hn in Hi, HSi. rewrite Hlen.
        destruct (i - length grp)%nat as [|j] eqn:Ej; [lia|].
        replace (S i - length grp)%nat with (S (S j)) in * by lia.
        simpl in *. by apply (Hpair' j v a b).
Qed.

(** *** The amended claim *)

Lemma localize_one_ambiguous (v a b t : Z) :
  utc_bounds v = (Some a, Some b) -> a <> b ->
  localize_one (Some v) (Some t) = Some (Some t).
Proof.
  intros Hb Hne. unfold localize_one. rewrite Hb.
  by destruct (Z.eqb_spec a b).
Qed.

Lemma tz_localize_lookup (vals out dh : list (option Z)) (i : nat) (v t a b : Z) :
  mapM (fun p => localize_one p.1 p.2) (zip vals dh) = Some out ->
  vals !! i = Some (Some v) -> dh !! i = Some (Some t) ->
  utc_bounds v = (Some a, Some b) -> a <> b ->
  out !! i = Some (Some t).
Proof.
  intros Hm Hv Hd Hb Hne. apply mapM_Some in Hm.
  assert (Hz : zip vals dh !! i = Some (Some v, Some t)).
  { rewrite lookup_zip_with, Hv. simpl. by rewrite Hd. }
  destruct (Forall2_lookup_l _ _ _ _ _ Hm Hz) as (y & Hy & Hl).
  change (localize_one (Some v) (Some t) = Some y) in Hl.
  rewrite (localize_one_ambiguous v a b t Hb Hne) in Hl. congruence.
Qed.

Lemma tz_localize_pair (vals out : list (option Z)) (i : nat) (v : Z) :
  tz_localize vals = Some out ->
  vals !! i = Some (Some v) -> vals !! S i = Some (Some v) ->
  is_Some (ambiguous_bounds v) ->
  out !! i = Some (Some (v + 4 * pph)) /\
  out !! S i = Some (Some (v + 4 * pph + pph)).
Proof.
  intros Hl Hi HSi [[a b] Hv].
  destruct (ambiguous_bounds_hour v a b Hv) as (Ha & Hb & Hbounds & Hne).
  unfold tz_localize in Hl.
  destruct (get_dst_hours vals) as [dh|] eqn:Edh; [|done]. simpl in Hl.
  unfold get_dst_hours in Edh. destruct (_ =? _)%nat; [done|].
  apply dst_hours_from_pair in Edh as [_ Hpair]; [|by apply Forall_nil].
  destruct (Hpair i v a b Hi HSi Hv) as [Hdi HdSi].
  rewrite <- Ha, <- Hb. split.
  - by apply (tz_localize_lookup vals out dh i v a a b).
  - by apply (tz_localize_lookup vals out dh (S i) v b a b).
Qed.

(** C5, as the code has it.  Take a feed that the normalizer accepts and two
    consecutive rows of it whose timestamp text is the same and reads as a
    wall-clock value inside the repeated hour of a fall-back.  The first row
    resolves to the daylight-time instant (wall clock plus four hours), the
    second to the standard-time instant exactly one hour later. *)
Theorem fall_back_pair {A : Type} (col : A -> option string) (df : list A)
  (out : list (stamped A)) (i : nat) (r1 r2 : A) (s : string) (v : Z) :
  parse_est_to_utc col df = Some out ->
  df !! i = Some r1 -> df !! S i = Some r2 ->
  col r1 = Some s -> col r2 = Some s ->
  Strptime.strptime s = Some (Some v) ->
  is_Some (ambiguous_bounds v) ->
  exists o1 o2 t,
    out !! i = Some o1 /\ out !! S i = Some o2 /\
    row_of o1 = r1 /\ row_of o2 = r2 /\
    dt_utc o1 = Some t /\ dt_utc o2 = Some (t + pph) /\
    t = v + 4 * pph.
Proof.
  intros Hp H1 H2 Hc1 Hc2 Hs Hv. unfold parse_est_to_utc in Hp.
  destruct (to_datetime (map col df)) as [dt|] eqn:Edt; [|done]. simpl in Hp.
  destruct (tz_localize dt) as [dt'|] eqn:Etz; [|done]. simpl in Hp.
  injection Hp as <-.
  unfold to_datetime in Edt. apply mapM_Some in Edt.
  assert (Hdt : forall j r, df !! j = Some r -> col r = Some s ->
            dt !! j = Some (Some v)).
  { intros j r Hj Hc.
    assert (Hm : map col df !! j = Some (Some s)).
    { change (map col df) with (col <$> df). by rewrite list_lookup_fmap, Hj, <- Hc. }
    destruct (Forall2_lookup_l _ _ _ _ _ Edt Hm) as (y & Hy & Hpar).
    simpl in Hpar. congruence. }
  destruct (tz_localize_pair dt dt' i v Etz (Hdt _ _ H1 Hc1) (Hdt _ _ H2 Hc2) Hv)
    as [Ho1 Ho2].
  eexists _, _, (v + 4 * pph).
  split; [|split].
  - rewrite lookup_zip_with, H1. simpl. rewrite Ho1. simpl. reflexivity.
  - rewrite lookup_zip_with, H2. simpl. rewrite Ho2. simpl. reflexivity.
  - done.
Qed.

Lemma fall_back_pair_witness :
  exists o1 o2 t,
    default [] (parse_est_to_utc Some [Sample.fall_back_stamp; Sample.fall_back_stamp])
      !! 0%nat = Some o1 /\
    default [] (parse_est_to_utc Some [Sample.fall_back_stamp; Sample.fall_back_stamp])
      !! 1%nat = Some o2 /\
    row_of o1 = Sample.fall_back_stamp /\ row_of o2 = Sample.fall_back_stamp /\
    dt_utc o1 = Some t /\ dt_utc o2 = Some (t + pph) /\
    t = Sample.fall_back_local + 4 * pph.
Proof.
  apply (fall_back_pair Some [Sample.fall_back_stamp; Sample.fall_back_stamp]
           (default [] (parse_est_to_utc Some
                          [Sample.fall_back_stamp; Sample.fall_back_stamp]))
           0 Sample.fall_back_stamp Sample.fall_back_stamp
           Sample.fall_back_stamp Sample.fall_back_local).
  - vm_compute. reflexivity.
  - reflexivity.
  - reflexivity.
  - reflexivity.
  - reflexivity.
  - vm_compute. reflexivity.
  - vm_compute. by eexists.
Defined.

(** Feeds on which the claim as first stated fails.  The stamp 11/04/18 01:30
    reads as an ambiguous wall-clock value.  A feed with three rows of that
    stamp is rejected, and so is a feed where a later stamp separates the two
    rows: no UTC instant is produced.  A feed with two such pairs separated
    by a later stamp is accepted, and its first and fourth rows, whose wall
    clock is the same, resolve to the same instant. *)
Lemma ambiguous_pair_not_resolved :
  let s := Sample.fall_back_stamp in
  let x := Sample.later_stamp in
  Strptime.strptime s = Some (Some Sample.fall_back_local) /\
  is_Some (ambiguous_bounds Sample.fall_back_local) /\
  parse_est_to_utc Some [s; s; s] = None /\
  parse_est_to_utc Some [s; x; s] = None /\
  exists out o,
    parse_est_to_utc Some [s; s; x; s; s] = Some out /\
    dt_utc <$> out !! 0%nat = Some o /\ dt_utc <$> out !! 3%nat = Some o.
Proof.
  split; [vm_compute; reflexivity|].
  split; [vm_compute; by eexists|].
  split; [vm_compute; reflexivity|].
  split; [vm_compute; reflexivity|].
  eexists _, _. split; [vm_compute; reflexivity|]. split; reflexivity.
Qed.

(** * Further properties of the pipeline *)

(** ** The stamped frame *)

Lemma to_datetime_length (col : list (option string)) (dt : list (option Z)) :
  to_datetime col = Some dt -> length dt = length col.
Proof. intros H%mapM_Some. symmetry. by eapply Forall2_length. Qed.

Lemma get_dst_hours_length (vals dh : list (option Z)) :
  get_dst_hours vals = Some dh -> length dh = length vals.
Proof.
  unfold get_dst_hours. destruct (_ =? _)%nat; [done|].
  intros H%dst_hours_from_pair; [|by apply Forall_nil]. by destruct H as [-> _].
Qed.

Lemma tz_localize_length (vals out : list (option Z)) :
  tz_localize vals = Some out -> length out = length vals.
Proof.
  unfold tz_localize. destruct (get_dst_hours vals) as [dh|] eqn:E; [|done].
  simpl. intros H%mapM_Some%Forall2_length.
  rewrite <- H, length_zip_with, (get_dst_hours_length _ _ E). lia.
Qed.

Lemma floor_to_spec (unit t : Z) :
  0 < unit ->
  floor_to unit t mod unit = 0 /\ floor_to unit t <= t < floor_to unit t + unit.
Proof.
  intros Hu. split; [apply floor_to_mod; lia|].
  unfold floor_to. pose proof (Z.mod_pos_bound t unit Hu). lia.
Qed.

Lemma floor_day_of_hour (t : Z) : floor_to ppd (floor_to pph t) = floor_to ppd t.
Proof.
  assert (Hh : 0 < pph) by (unfold pph, pps; lia).
  unfold floor_to.
  rewrite !Zmod_eq_full by (unfold ppd, pph, pps; lia).
  replace (t - (t - t / pph * pph)) with (t / pph * pph) by ring.
  replace (t - (t - t / ppd * ppd)) with (t / ppd * ppd) by ring.
  replace (t / pph * pph - (t / pph * pph - t / pph * pph / ppd * ppd))
    with (t / pph * pph / ppd * ppd) by ring.
  f_equal. unfold ppd.
  rewrite (Z.mul_comm 24 pph), <- !Z.div_div by lia.
  by rewrite Z.div_mul by lia.
Qed.

(** X1.  [parse_est_to_utc] keeps the rows of the frame, in order, and adds three
    coherent columns: a row without instant has no buckets; otherwise the
    hour bucket is the start of the hour that contains the instant, the day
    bucket is the UTC midnight of the day that contains it, and the hour
    bucket lies in the day of the day bucket. *)
Theorem parse_est_to_utc_buckets {A : Type} (col : A -> option string)
  (df : list A) (out : list (stamped A)) :
  parse_est_to_utc col df = Some out ->
  map row_of out = df /\
  forall r, r ∈ out ->
    match dt_utc r with
    | Some t =>
        exists d h,
          date_utc r = Some d /\ hour_utc r = Some h /\
          d mod ppd = 0 /\ h mod pph = 0 /\
          d <= h /\ h <= t /\ t < h + pph /\ h < d + ppd /\
          floor_to ppd h = d
    | None => date_utc r = None /\ hour_utc r = None
    end.
Proof.
  intros Hp. split.
  - unfold parse_est_to_utc in Hp.
    destruct (to_datetime (map col df)) as [dt|] eqn:Edt; [|done]. simpl in Hp.
    destruct (tz_localize dt) as [dt'|] eqn:Etz; [|done]. simpl in Hp.
    injection Hp as <-.
    assert (Hlen : length dt' = length df).
    { rewrite (tz_localize_length _ _ Etz), (to_datetime_length _ _ Edt).
      apply length_map. }
    clear Edt Etz. revert dt' Hlen.
    induction df as [|x df IH]; intros [|t dt'] Hlen; simpl in *; try done.
    f_equal. apply IH. lia.
  - intros r Hr. destruct (parse_est_to_utc_stamps _ _ _ _ Hp Hr) as [Hd Hh].
    rewrite Hd, Hh. destruct (dt_utc r) as [t|]; simpl; [|done].
    assert (Hpph : 0 < pph) by (unfold pph, pps; lia).
    assert (Hppd : 0 < ppd) by (unfold ppd; lia).
    destruct (floor_to_spec pph t Hpph) as [Hm1 Hb1].
    destruct (floor_to_spec ppd t Hppd) as [Hm2 Hb2].
    destruct (floor_to_spec ppd (floor_to pph t) Hppd) as [_ Hb3].
    rewrite floor_day_of_hour in Hb3.
    exists (floor_to ppd t), (floor_to pph t).
    repeat split; try done; try lia. apply floor_day_of_hour.
Qed.

Lemma parse_est_to_utc_buckets_witness :
  map row_of Sample.two_hours_cost_utc = map cast_cost Sample.two_hours_cost /\
  forall r, r ∈ Sample.two_hours_cost_utc ->
    match dt_utc r with
    | Some t =>
        exists d h,
          date_utc r = Some d /\ hour_utc r = Some h /\
          d mod ppd = 0 /\ h mod pph = 0 /\
          d <= h /\ h <= t /\ t < h + pph /\ h < d + ppd /\
          floor_to ppd h = d
    | None => date_utc r = None /\ hour_utc r = None
    end.
Proof.
  apply (parse_est_to_utc_buckets cost_data_date (map cast_cost Sample.two_hours_cost)
           Sample.two_hours_cost_utc).
  vm_compute. reflexivity.
Defined.

(** ** The window and the rows that count *)

Lemma filter_window_empty {A} (d_from d_to : Z) (df : list (stamped A)) :
  d_to < d_from -> filter_window d_from d_to df = [].
Proof.
  intros Hlt. unfold filter_window. induction df as [|r df IH]; [done|].
  rewrite filter_cons, IH.
  destruct (decide _) as [Hw|]; [|done].
  apply Is_true_true in Hw. destruct (date_utc r) as [d|]; [|done].
  apply in_window_Some in Hw. lia.
Qed.

(** X2.  A window whose first day comes after its last day gives an empty report,
    whatever the feeds hold. *)
Theorem reversed_window_empty (a : args) (cost : list (stamped cost_row))
  (rev : list (stamped rev_row)) :
  floor_to ppd (date_to a) < floor_to ppd (date_from a) ->
  report_of a cost rev = [].
Proof.
  intros Hlt. unfold report_of. rewrite !filter_window_empty by done.
  by destruct (hourly a).
Qed.

Lemma reversed_window_empty_witness :
  report_of (Args (utc_midnight 2019 1 2) (utc_midnight 2019 1 1) true)
            Sample.two_hours_cost_utc Sample.two_hours_revenue_utc = [].
Proof.
  apply (reversed_window_empty (Args (utc_midnight 2019 1 2) (utc_midnight 2019 1 1) true)).
  vm_compute. reflexivity.
Defined.

(** X3.  The number of rows of the report is the number of distinct
    (day, campaign) keys that the rows of the two filtered feeds carry; a row
    without campaign id or without day carries no key.  The hourly columns do
    not change it. *)
Theorem report_row_count (a : args) (cost : list (stamped cost_row))
  (rev : list (stamped rev_row)) :
  let cost' := filter_window (floor_to ppd (date_from a)) (floor_to ppd (date_to a)) cost in
  let rev' := filter_window (floor_to ppd (date_from a)) (floor_to ppd (date_to a)) rev in
  length (report_of a cost rev) =
  size (list_to_set (omap (daily_key cost_campaign_id) cost') ∪
        list_to_set (omap (daily_key rev_campaign_id) rev') : gset (Z * string)).
Proof.
  intros cost' rev'. rewrite report_of_frame, length_sort_values, length_map.
  unfold report_frame. rewrite length_map. fold cost' rev'.
  rewrite <- (length_fmap j_key).
  rewrite reconcile_keys by apply NoDup_groupby_keys.
  rewrite length_unique_keys, list_to_set_app_L.
  unfold cost_daily, rev_daily. rewrite !groupby_keys.
  f_equal. f_equal; apply set_eq; intros k;
    by rewrite !elem_of_list_to_set, elem_of_unique_keys.
Qed.

Lemma omap_filter_keyed `{EqDecision K} {A} (key : A -> option K) (P : A -> Prop)
  `{!forall x, Decision (P x)} (df : list A) :
  (forall r, is_Some (key r) -> P r) ->
  omap key (filter P df) = omap key df.
Proof.
  intros HP. induction df as [|r df IH]; [done|].
  rewrite filter_cons. destruct (decide (P r)) as [Hr|Hr].
  - change (omap key (r :: ?l)) with
      (match key r with Some y => y :: omap key l | None => omap key l end).
    by rewrite IH.
  - rewrite IH.
    change (omap key (r :: df)) with
      (match key r with Some y => y :: omap key df | None => omap key df end).
    destruct (key r) eqn:E; [|done]. destruct Hr. apply HP. by eexists.
Qed.

Lemma rows_of_filter_keyed `{EqDecision K} {A} (key : A -> option K) (P : A -> Prop)
  `{!forall x, Decision (P x)} (k : K) (df : list A) :
  (forall r, is_Some (key r) -> P r) ->
  rows_of key k (filter P df) = rows_of key k df.
Proof.
  intros HP. rewrite rows_of_filter. unfold rows_of.
  induction df as [|r df IH]; [done|].
  rewrite !filter_cons. destruct (decide (key r = Some k)) as [E|E]; [|done].
  rewrite filter_cons, decide_True by (apply HP; by eexists). by rewrite IH.
Qed.

Lemma groupby_filter_keyed `{EqDecision K, KeyOrder K} {A V} (key : A -> option K)
  (agg : list A -> V) (P : A -> Prop) `{!forall x, Decision (P x)} (df : list A) :
  (forall r, is_Some (key r) -> P r) ->
  groupby key agg (filter P df) = groupby key agg df.
Proof.
  intros HP. unfold groupby. rewrite omap_filter_keyed by done.
  apply map_ext. intros k. by rewrite rows_of_filter_keyed.
Qed.

Lemma filter_window_filter {A} (d_from d_to : Z) (P : stamped A -> Prop)
  `{!forall x, Decision (P x)} (df : list (stamped A)) :
  filter_window d_from d_to (filter P df) = filter P (filter_window d_from d_to df).
Proof. unfold filter_window. apply filter_filter_comm. Qed.

Lemma daily_key_is_Some {A} (cid : A -> option string) (r : stamped A) :
  is_Some (daily_key cid r) <-> is_Some (date_utc r) /\ is_Some (cid (row_of r)).
Proof.
  unfold daily_key. destruct (date_utc r), (cid (row_of r)); simpl;
    split; try (intros [? ?]; done); try (intros [[? ?] [? ?]]; done); eauto.
Qed.

Lemma hourly_key_is_Some {A} (cid : A -> option string) (r : stamped A) :
  is_Some (hourly_key cid r) -> is_Some (date_utc r) /\ is_Some (cid (row_of r)).
Proof.
  unfold hourly_key. destruct (date_utc r), (hour_utc r), (cid (row_of r)); simpl;
    try (intros [? ?]; done); eauto.
Qed.

(** X4.  Rows without a campaign id and rows without an instant are ignored:
    removing them from the stamped feeds leaves the report unchanged, with or
    without the hourly columns. *)
Theorem rows_without_key_ignored (a : args) (cost : list (stamped cost_row))
  (rev : list (stamped rev_row)) :
  report_of a
    (filter (fun r => is_Some (date_utc r) /\ is_Some (cost_campaign_id (row_of r))) cost)
    (filter (fun r => is_Some (date_utc r) /\ is_Some (rev_campaign_id (row_of r))) rev)
  = report_of a cost rev.
Proof.
  unfold report_of, hourly_frame, cost_daily, rev_daily, cost_h, rev_h.
  rewrite !filter_window_filter.
  rewrite !groupby_filter_keyed; try done;
    intros r Hr;
    first [by apply daily_key_is_Some in Hr|by apply hourly_key_is_Some in Hr].
Qed.

(** ** The totals and the ratios of a report row *)

Lemma fill_joined_no_nan r :
  isnan (j_total_revenue (fill_joined r)) = false /\
  isnan (j_total_cost (fill_joined r)) = false /\
  isnan (j_total_clicks (fill_joined r)) = false.
Proof. destruct r as [[k c] v]. simpl. auto using isnan_fillna_zero. Qed.

Lemma reconcile_no_nan cd rd (j : joined_row) :
  j ∈ reconcile cd rd ->
  isnan (j_total_revenue j) = false /\ isnan (j_total_cost j) = false /\
  isnan (j_total_clicks j) = false.
Proof.
  unfold reconcile. intros (r & -> & _)%list_elem_of_fmap. apply fill_joined_no_nan.
Qed.

(** X5.  The three totals of a report row are never NaN, and in hourly mode
    neither is the hourly average; the count of profitable hours is not
    negative.  (The profit and the two ratios can be NaN.) *)
Theorem report_totals_defined (a : args) (cost : list (stamped cost_row))
  (rev : list (stamped rev_row)) (row : report_row) :
  row ∈ report_of a cost rev ->
  isnan (total_revenue row) = false /\
  isnan (total_cost row) = false /\
  isnan (total_clicks row) = false /\
  forall hc, hourly_columns row = Some hc ->
    isnan (hourly_avg_revenue hc) = false /\ 0 <= positive_profit_hours hc.
Proof.
  intros (j & Hj & ->)%elem_of_report_of.
  destruct (reconcile_no_nan _ _ _ Hj) as (Hr & Hc & Hk).
  repeat split; try done.
  - simpl in H. destruct (hourly a); [|done]. injection H as <-.
    apply isnan_fillna_zero.
  - simpl in H. destruct (hourly a); [|done]. injection H as <-.
    unfold hourly_cols_of. cbn [positive_profit_hours].
    destruct (cell (j_key j) (pos_hours _)) as [n|]; [|done].
    change (0 <= Z.of_nat n). lia.
Qed.

Lemma report_totals_defined_witness :
  isnan (total_revenue Sample.two_hours_row) = false /\
  isnan (total_cost Sample.two_hours_row) = false /\
  isnan (total_clicks Sample.two_hours_row) = false /\
  forall hc, hourly_columns Sample.two_hours_row = Some hc ->
    isnan (hourly_avg_revenue hc) = false /\ 0 <= positive_profit_hours hc.
Proof.
  apply (report_totals_defined Sample.hourly_day Sample.two_hours_cost_utc
           Sample.two_hours_revenue_utc Sample.two_hours_row).
  assert (E : report_of Sample.hourly_day Sample.two_hours_cost_utc
                Sample.two_hours_revenue_utc = [Sample.two_hours_row])
    by (vm_compute; reflexivity).
  rewrite E. left.
Defined.

(** X6.  In every report row the profit is revenue minus cost and the
    cost-per-click is [safe_div] of cost by clicks.  A row without clicks has
    neither a cost-per-click nor an ROI (both NaN), and a row without cost
    has no ROI, whatever its clicks and its revenue. *)
Theorem report_ratios_undefined (a : args) (cost : list (stamped cost_row))
  (rev : list (stamped rev_row)) (row : report_row) :
  row ∈ report_of a cost rev ->
  total_profit row = (total_revenue row - total_cost row)%float /\
  avg_cpc row = safe_div_cell (total_cost row) (total_clicks row) /\
  ((total_clicks row =? 0)%float = true -> avg_cpc row = nan /\ total_roi row = nan) /\
  ((total_cost row =? 0)%float = true -> total_roi row = nan).
Proof.
  intros (j & Hj & ->)%elem_of_report_of.
  destruct (reconcile_no_nan _ _ _ Hj) as (Hr & Hc & Hk).
  simpl. split; [done|]. split; [done|].
  assert (Hzero : (j_total_clicks j =? 0)%float = true ->
            safe_div_cell (j_total_cost j) (j_total_clicks j) = nan /\
            safe_div_cell (safe_div_cell (j_total_revenue j) (j_total_clicks j))
                          (safe_div_cell (j_total_cost j) (j_total_clicks j)) = nan).
  { intros H0. unfold safe_div_cell. rewrite H0. simpl. done. }
  split; [exact Hzero|].
  intros Hcost. destruct (j_total_clicks j =? 0)%float eqn:Hclicks.
  - by apply Hzero.
  - unfold safe_div_cell at 1.
    assert (Hcpc : (safe_div_cell (j_total_cost j) (j_total_clicks j) =? 0)%float = true).
    { unfold safe_div_cell. rewrite Hclicks. simpl. by apply zero_div. }
    by rewrite Hcpc.
Qed.

Lemma report_ratios_undefined_witness :
  let row := Report "2019/01/01" "A" "" 20 0 20 0 nan nan None in
  total_profit row = (total_revenue row - total_cost row)%float /\
  avg_cpc row = safe_div_cell (total_cost row) (total_clicks row) /\
  ((total_clicks row =? 0)%float = true -> avg_cpc row = nan /\ total_roi row = nan) /\
  ((total_cost row =? 0)%float = true -> total_roi row = nan).
Proof.
  apply (report_ratios_undefined Sample.one_day []
           [Stamped (RevRow (Some "A"%string) 20 (Some "12/31/18 19:00"%string))
                    (Some (utc_midnight 2019 1 1)) (Some (utc_midnight 2019 1 1))
                    (Some (utc_midnight 2019 1 1))]).
  assert (E : report_of Sample.one_day []
                [Stamped (RevRow (Some "A"%string) 20 (Some "12/31/18 19:00"%string))
                         (Some (utc_midnight 2019 1 1)) (Some (utc_midnight 2019 1 1))
                         (Some (utc_midnight 2019 1 1))]
              = [Report "2019/01/01" "A" "" 20 0 20 0 nan nan None])
    by (vm_compute; reflexivity).
  rewrite E. left.
Defined.

(** ** Local times that do not exist, and the readings of those that do *)

Lemma bisect_right_none (data : list Z) (x : Z) :
  Forall (fun T => x < T) data -> bisect_right data x = 0%nat.
Proof.
  intros [|T rest HT _]; [done|]. simpl. destruct (Z.leb_spec T x); [lia|done].
Qed.

(** In a sorted table, the entry that follows [x] is the entry in force at
    the first transition after [x]. *)
Lemma bisect_right_next (data : list Z) (x T : Z) :
  StronglySorted Z.lt data ->
  T ∈ data -> x < T -> (forall T', T' ∈ data -> ~ (x < T' < T)) ->
  bisect_right data T = S (bisect_right data x).
Proof.
  induction 1 as [|t rest Hs IH Hall]; intros HT Hx Hno; [by apply elem_of_nil in HT|].
  assert (Ht : ~ (x < t < T)) by (apply Hno; left).
  simpl. destruct (Z.leb_spec t x) as [Htx|Htx].
  - destruct (Z.leb_spec t T); [|lia]. f_equal.
    apply elem_of_cons in HT as [->|HT]; [lia|].
    apply IH; [done..|]. intros T' HT'. apply Hno. by right.
  - assert (t = T) as ->.
    { apply elem_of_cons in HT as [->|HT]; [done|].
      rewrite Forall_forall in Hall. specialize (Hall _ HT). lia. }
    destruct (Z.leb_spec T T); [|lia]. f_equal. by apply bisect_right_none.
Qed.

Lemma tdata_sorted : StronglySorted Z.lt NewYork.tdata.
Proof. apply (bool_decide_unpack _). vm_compute. exact I. Qed.

Lemma tdata_gaps_two_days (T1 T2 : Z) :
  T1 ∈ NewYork.tdata -> T2 ∈ NewYork.tdata -> T1 < T2 -> T1 + 49 * pph <= T2.
Proof.
  intros H1 H2 Hlt.
  assert (Hall : forallb (fun T1 =>
                    forallb (fun T2 => (T2 <=? T1) || (T1 + 49 * pph <=? T2))
                            NewYork.tdata) NewYork.tdata = true)
    by (vm_compute; reflexivity).
  rewrite forallb_forall in Hall.
  apply list_elem_of_In, Hall in H1. rewrite forallb_forall in H1.
  apply list_elem_of_In, H1 in H2.
  apply orb_true_iff in H2 as [H2|H2]; lia.
Qed.

(** Every transition falls on a full hour. *)
Lemma tdata_hours (T : Z) :
  T ∈ NewYork.tdata -> T <> NewYork.start_of_time -> T mod pph = 0.
Proof.
  intros HT Hne.
  assert (Hall : forallb (fun T => (T =? NewYork.start_of_time) || (T mod pph =? 0))
                   NewYork.tdata = true) by (vm_compute; reflexivity).
  rewrite forallb_forall in Hall. apply list_elem_of_In, Hall in HT.
  apply orb_true_iff in HT as [HT|HT]; lia.
Qed.

Lemma delta_at_next (x T : Z) :
  T ∈ NewYork.tdata -> x < T ->
  (forall T', T' ∈ NewYork.tdata -> ~ (x < T' < T)) ->
  delta_at (bisect_right NewYork.tdata x) = utcoffset_at T.
Proof.
  intros HT Hx Hno. unfold utcoffset_at.
  rewrite (bisect_right_next _ x T tdata_sorted HT Hx Hno). f_equal. lia.
Qed.

Lemma next_full_hour (v m : Z) :
  m mod pph = 0 -> v < m <= v + pph -> v + (pph - v mod pph) = m.
Proof.
  assert (Hp : 0 < pph) by (unfold pph, pps; lia).
  intros Hm Hb.
  apply Z.mod_divide in Hm as [k ->]; [|lia].
  pose proof (Z.div_mod v pph ltac:(lia)) as Hv.
  pose proof (Z.mod_pos_bound v pph Hp) as Hr.
  assert (k = v / pph + 1) by nia. subst k. lia.
Qed.

Section Gap.
Variables off next : Z -> Z.
Variable data : list Z.
Variable lo : Z.
Hypothesis off_cases : forall t, off t = -5 * pph \/ off t = -4 * pph.
Hypothesis off_change :
  forall t t', t <= t' -> off t <> off t' -> exists T, T ∈ data /\ t < T <= t'.
Hypothesis data_gaps :
  forall T1 T2, T1 ∈ data -> T2 ∈ data -> T1 < T2 -> T1 + 49 * pph <= T2.
Hypothesis data_hours : forall T, T ∈ data -> T <> lo -> T mod pph = 0.
Hypothesis off_lo : off lo = -5 * pph.
Hypothesis next_off :
  forall x T, T ∈ data -> x < T -> (forall T', T' ∈ data -> ~ (x < T' < T)) ->
    next x = off T.

Lemma off_same (t t' : Z) :
  t <= t' -> (forall T, T ∈ data -> ~ (t < T <= t')) -> off t = off t'.
Proof.
  intros Htt Hno. destruct (decide (off t = off t')) as [|Hne]; [done|].
  destruct (off_change t t' Htt Hne) as (T & HT & Hb). destruct (Hno T HT Hb).
Qed.

(** A wall-clock value with no consistent reading lies in the hour skipped
    at a transition [T] to daylight time, and the shifted value is [T]. *)
Lemma gap_resolves (v : Z) :
  off (v - off (v - ppd)) <> off (v - ppd) ->
  off (v - off (v + ppd)) <> off (v + ppd) ->
  exists T,
    T ∈ data /\ T - 5 * pph <= v < T - 4 * pph /\
    v + (pph - v mod pph) - next (v + (pph - v mod pph)) = T /\
    off T = -4 * pph /\ off (T - 1) = -5 * pph.
Proof.
  intros Ha Hb.
  assert (Hpos : 0 < pph) by (unfold pph, pps; lia).
  assert (Hd : ppd = 24 * pph) by reflexivity.
  destruct (off_cases (v - ppd)) as [Hl|Hl], (off_cases (v + ppd)) as [Hr|Hr];
    rewrite ?Hl, ?Hr in Ha, Hb.
  - exfalso.
    destruct (off_cases (v - -5 * pph)) as [?|H5]; [congruence|].
    destruct (off_change (v - ppd) (v - -5 * pph)) as (T1 & HT1 & Hb1); [lia|congruence|].
    destruct (off_change (v - -5 * pph) (v + ppd)) as (T2 & HT2 & Hb2); [lia|congruence|].
    pose proof (data_gaps T1 T2 HT1 HT2). lia.
  - destruct (off_cases (v - -5 * pph)) as [?|H5]; [congruence|].
    destruct (off_cases (v - -4 * pph)) as [H4|?]; [|congruence].
    destruct (off_change (v - -4 * pph) (v - -5 * pph)) as (T & HT & HbT);
      [lia|congruence|].
    assert (Hnear : forall T', T' ∈ data -> T - 49 * pph < T' < T + 49 * pph -> T' = T).
    { intros T' HT' Hb'. destruct (Z.lt_trichotomy T' T) as [Hlt|[->|Hgt]]; [|done|].
      - pose proof (data_gaps T' T HT' HT Hlt). lia.
      - pose proof (data_gaps T T' HT HT' Hgt). lia. }
    assert (HoffT : off T = -4 * pph).
    { rewrite <- H5. apply off_same; [lia|].
      intros T' HT' Hb'. assert (T' = T) by (apply Hnear; [done|lia]). lia. }
    assert (HoffT1 : off (T - 1) = -5 * pph).
    { rewrite <- H4. symmetry. apply off_same; [lia|].
      intros T' HT' Hb'. assert (T' = T) by (apply Hnear; [done|lia]). lia. }
    assert (Hne : T <> lo) by (intros ->; lia).
    pose proof (data_hours T HT Hne) as Hhour.
    assert (Hnew : v + (pph - v mod pph) = T - 4 * pph).
    { apply next_full_hour; [|lia].
      rewrite Zminus_mod, Hhour, Z.mod_mul by lia. done. }
    exists T. split; [done|]. split; [lia|]. split; [|done].
    rewrite Hnew, (next_off (T - 4 * pph) T HT); [lia|lia|].
    intros T' HT' Hb'. assert (T' = T) by (apply Hnear; [done|lia]). lia.
  - exfalso.
    destruct (off_cases (v - -4 * pph)) as [H4|?]; [|congruence].
    destruct (off_cases (v - -5 * pph)) as [?|H5]; [congruence|].
    destruct (off_change (v - ppd) (v - -4 * pph)) as (T1 & HT1 & Hb1); [lia|congruence|].
    destruct (off_change (v - -4 * pph) (v - -5 * pph)) as (T2 & HT2 & Hb2);
      [lia|congruence|].
    pose proof (data_gaps T1 T2 HT1 HT2). lia.
  - exfalso.
    destruct (off_cases (v - -4 * pph)) as [H4|?]; [|congruence].
    destruct (off_change (v - ppd) (v - -4 * pph)) as (T1 & HT1 & Hb1); [lia|congruence|].
    destruct (off_change (v - -4 * pph) (v + ppd)) as (T2 & HT2 & Hb2); [lia|congruence|].
    pose proof (data_gaps T1 T2 HT1 HT2). lia.
Qed.

End Gap.

Lemma utcoffset_at_start : utcoffset_at NewYork.start_of_time = -5 * pph.
Proof. vm_compute. reflexivity. Qed.

(** Without a consistent reading, the offset a day before and the offset a
    day after are both wrong at the instant they give. *)
Lemma utc_bounds_none (v : Z) :
  utc_bounds v = (None, None) ->
  utcoffset_at (v - utcoffset_at (v - ppd)) <> utcoffset_at (v - ppd) /\
  utcoffset_at (v - utcoffset_at (v + ppd)) <> utcoffset_at (v + ppd).
Proof.
  unfold utc_bounds.
  generalize (utcoffset_at (v - ppd)). intros dl.
  generalize (utcoffset_at (v + ppd)). intros dr.
  generalize (utcoffset_at (v - dl)). intros cl.
  generalize (utcoffset_at (v - dr)). intros cr.
  destruct (Z.eqb_spec (v - dl + cl) v); [done|].
  destruct (Z.eqb_spec (v - dr + cr) v); [done|].
  intros _. split; lia.
Qed.

(** X7.  A wall-clock value that does not exist (neither reading is consistent)
    lies in the hour skipped when daylight time starts: between 02:00 and
    03:00 of a transition [T] of the zone table.  [shift_forward] resolves it
    to [T] itself, the first instant of daylight time, whose wall clock
    (03:00) is the first valid one after the value. *)
Theorem spring_forward_gap (v : Z) :
  utc_bounds v = (None, None) ->
  exists T,
    T ∈ NewYork.tdata /\
    T - 5 * pph <= v < T - 4 * pph /\
    shift_forward v = T /\
    utcoffset_at T = NewYork.EDT /\ utcoffset_at (T - 1) = NewYork.EST.
Proof.
  intros Hb. destruct (utc_bounds_none v Hb) as [Ha Hb'].
  exact (gap_resolves utcoffset_at (fun x => delta_at (bisect_right NewYork.tdata x))
           NewYork.tdata NewYork.start_of_time utcoffset_at_cases utcoffset_change
           tdata_gaps_two_days tdata_hours utcoffset_at_start delta_at_next v Ha Hb').
Qed.

Lemma spring_forward_gap_witness :
  exists T,
    T ∈ NewYork.tdata /\
    T - 5 * pph <= Sample.skipped_local < T - 4 * pph /\
    shift_forward Sample.skipped_local = T /\
    utcoffset_at T = NewYork.EDT /\ utcoffset_at (T - 1) = NewYork.EST.
Proof.
  apply (spring_forward_gap Sample.skipped_local). vm_compute. reflexivity.
Defined.

(** *** Every accepted row *)

Lemma infer_group_reading (grp : list (Z * Z * Z)) (r : list Z) (i : nat) (e : Z * Z * Z) :
  infer_group grp = Some r -> grp !! i = Some e ->
  r !! i = Some e.1.2 \/ r !! i = Some e.2.
Proof.
  unfold infer_group. destruct (_ || _); [done|].
  destruct (_ <? _)%nat; [done|]. intros [= <-] Hi.
  set (n := S (hd 0%nat _)).
  destruct (decide (i < n)%nat) as [Hlt|Hge].
  - left. rewrite lookup_app_l.
    + change (map ?f ?l) with (f <$> l). rewrite list_lookup_fmap.
      rewrite lookup_take_lt by done. by rewrite Hi.
    + rewrite length_map, length_take. apply lookup_lt_Some in Hi. lia.
  - right. apply lookup_lt_Some in Hi as Hlen. rewrite lookup_app_r.
    + rewrite length_map, length_take.
      change (map ?f ?l) with (f <$> l). rewrite list_lookup_fmap, lookup_drop.
      replace (n + (i - n `min` length grp))%nat with i by lia.
      by rewrite Hi.
    + rewrite length_map, length_take. lia.
Qed.

Lemma flush_group_reading (grp : list (Z * Z * Z)) (r : list (option Z)) (i : nat)
  (e : Z * Z * Z) :
  flush_group grp = Some r -> grp !! i = Some e ->
  r !! i = Some (Some e.1.2) \/ r !! i = Some (Some e.2).
Proof.
  unfold flush_group. destruct grp as [|e0 grp]; [done|].
  destruct (infer_group (e0 :: grp)) as [r0|] eqn:E; [|done].
  simpl. intros [= <-] Hi. rewrite !list_lookup_fmap.
  destruct (infer_group_reading _ _ _ _ E Hi) as [-> | ->]; auto.
Qed.

(** The entry of [dst_hours] of an ambiguous row is one of its two readings;
    the entry of any other row is NaT. *)
Lemma dst_hours_from_reading (vals : list (option Z)) :
  forall (grp : list (Z * Z * Z)) (dh : list (option Z)),
  dst_hours_from vals grp = Some dh ->
  Forall (fun e => ambiguous_bounds e.1.1 = Some (e.1.2, e.2)) grp ->
  forall i v a b,
    (((fun e => Some e.1.1) <$> grp) ++ vals) !! i = Some (Some v) ->
    ambiguous_bounds v = Some (a, b) ->
    dh !! i = Some (Some a) \/ dh !! i = Some (Some b).
Proof.
  induction vals as [|val vals IH]; intros grp dh Hdh Hall i v a b Hi Hv.
  - simpl in Hdh. rewrite app_nil_r in Hi.
    by apply (flush_group_reading grp dh i (v, a, b) Hdh), block_lookup.
  - simpl in Hdh. destruct (mismatch val) as [e|] eqn:Em.
    + apply mismatch_Some in Em as [-> Hb].
      apply (IH _ _ Hdh) with (v := v); [|by rewrite fmap_app, <- app_assoc|done].
      apply Forall_app. split; [done|]. by apply Forall_singleton.
    + destruct (flush_group grp) as [r|] eqn:Er; [|done]. simpl in Hdh.
      destruct (dst_hours_from vals []) as [r'|] eqn:Er'; [|done]. simpl in Hdh.
      injection Hdh as <-.
      destruct (flush_group_pair _ _ Er) as [Hlen _].
      assert (Hn : length ((fun e => Some e.1.1) <$> grp) = length grp)
        by apply length_fmap.
      destruct (decide (i < length grp)%nat) as [Hlt|Hge].
      * rewrite lookup_app_l in Hi by lia. rewrite lookup_app_l by lia.
        by apply (flush_group_reading grp r i (v, a, b) Er), block_lookup.
      * rewrite lookup_app_r in Hi by lia. rewrite lookup_app_r by lia.
        rewrite Hn in Hi. rewrite Hlen.
        destruct (i - length grp)%nat as [|j] eqn:Ej; simpl in *.
        -- injection Hi as ->. rewrite (mismatch_ambiguous _ _ _ Hv) in Em. done.
        -- apply (IH [] r' Er') with (v := v); [by apply Forall_nil|done|done].
Qed.

Lemma utc_bounds_consistent (v : Z) :
  (forall a, (utc_bounds v).1 = Some a ->
     a + utcoffset_at a = v /\ v + 4 * pph <= a <= v + 5 * pph) /\
  (forall b, (utc_bounds v).2 = Some b ->
     b + utcoffset_at b = v /\ v + 4 * pph <= b <= v + 5 * pph).
Proof.
  unfold utc_bounds.
  pose proof (utcoffset_at_cases (v - ppd)) as Hl.
  pose proof (utcoffset_at_cases (v + ppd)) as Hr.
  revert Hl Hr.
  generalize (utcoffset_at (v - ppd)). intros dl.
  generalize (utcoffset_at (v + ppd)). intros dr.
  remember (utcoffset_at (v - dl)) as cl eqn:Ecl.
  remember (utcoffset_at (v - dr)) as cr eqn:Ecr.
  assert (Hp : 0 < pph) by (unfold pph, pps; lia).
  intros Hl Hr. simpl. split.
  - intros a. destruct (Z.eqb_spec (v - dl + cl) v); [|done]. intros [= <-].
    rewrite <- Ecl. lia.
  - intros b. destruct (Z.eqb_spec (v - dr + cr) v); [|done]. intros [= <-].
    rewrite <- Ecr. lia.
Qed.

(** One cell of an accepted column. *)
Lemma tz_localize_cell (vals out : list (option Z)) (i : nat) :
  tz_localize vals = Some out ->
  match vals !! i with
  | Some (Some v) =>
      exists t, out !! i = Some (Some t) /\
        v + 4 * pph <= t <= v + 5 * pph /\
        (t + utcoffset_at t = v \/
         (utc_bounds v = (None, None) /\ t = shift_forward v /\
          v < t + utcoffset_at t <= v + pph))
  | Some None => out !! i = Some None
  | None => out !! i = None
  end.
Proof.
  intros Hl.
  pose proof (tz_localize_length _ _ Hl) as Hlen.
  unfold tz_localize in Hl.
  destruct (get_dst_hours vals) as [dh|] eqn:Edh; [|done]. simpl in Hl.
  pose proof (get_dst_hours_length _ _ Edh) as Hlen'.
  apply mapM_Some in Hl.
  destruct (vals !! i) as [val|] eqn:Ei.
  - destruct (lookup_lt_is_Some_2 dh i) as [d Hd].
    { rewrite Hlen'. by apply lookup_lt_Some in Ei. }
    assert (Hz : zip vals dh !! i = Some (val, d)).
    { rewrite lookup_zip_with, Ei. simpl. by rewrite Hd. }
    destruct (Forall2_lookup_l _ _ _ _ _ Hl Hz) as (y & Hy & Hone).
    change (localize_one val d = Some y) in Hone.
    destruct val as [v|]; [|by injection Hone as <-].
    unfold localize_one in Hone.
    destruct (utc_bounds_consistent v) as [Ha Hb].
    destruct (utc_bounds v) as [[a|] [b|]] eqn:Eb; simpl in Ha, Hb.
    + destruct (Z.eqb_spec a b) as [->|Hne].
      * injection Hone as <-. exists b. destruct (Hb b eq_refl). auto.
      * assert (Hamb : ambiguous_bounds v = Some (a, b)).
        { unfold ambiguous_bounds. rewrite Eb. by destruct (Z.eqb_spec a b). }
        unfold get_dst_hours in Edh. destruct (_ =? _)%nat; [done|].
        destruct (dst_hours_from_reading vals [] dh Edh (Forall_nil_2 _) i v a b Ei Hamb)
          as [Hr|Hr]; rewrite Hr in Hd; injection Hd as <-; injection Hone as <-.
        -- exists a. destruct (Ha a eq_refl). auto.
        -- exists b. destruct (Hb b eq_refl). auto.
    + injection Hone as <-. exists a. destruct (Ha a eq_refl). auto.
    + injection Hone as <-. exists b. destruct (Hb b eq_refl). auto.
    + injection Hone as <-. exists (shift_forward v).
      destruct (utc_bounds_none v Eb) as [Hna Hnb].
      assert (Hgap : exists T,
                T ∈ NewYork.tdata /\ T - 5 * pph <= v < T - 4 * pph /\
                shift_forward v = T /\
                utcoffset_at T = NewYork.EDT /\ utcoffset_at (T - 1) = NewYork.EST)
        by exact (gap_resolves utcoffset_at
                    (fun x => delta_at (bisect_right NewYork.tdata x))
                    NewYork.tdata NewYork.start_of_time utcoffset_at_cases
                    utcoffset_change tdata_gaps_two_days tdata_hours
                    utcoffset_at_start delta_at_next v Hna Hnb).
      destruct Hgap as (T & _ & Hv & Hs & Hoff & _).
      rewrite Hs in *. rewrite Hoff. unfold NewYork.EDT.
      assert (Hp : 0 < pph) by (unfold pph, pps; lia).
      split; [done|]. split; [lia|]. right. split; [done|]. split; [done|lia].
  - apply lookup_ge_None. rewrite Hlen. by apply lookup_ge_None.
Qed.

(** X8.  What [tz_localize] returns when it accepts a column.  The result has one
    cell per input cell; NaT stays NaT; a wall-clock value [v] becomes an
    instant 4 to 5 hours later.  If [v] exists in the zone, the Eastern wall
    clock of that instant is [v] again; if [v] was skipped by a
    spring-forward, the instant is [shift_forward v], whose wall clock is
    later than [v] by at most an hour. *)
Theorem tz_localize_sound (vals out : list (option Z)) :
  tz_localize vals = Some out ->
  length out = length vals /\
  forall i : nat,
    match vals !! i with
    | Some (Some v) =>
        exists t, out !! i = Some (Some t) /\
          v + 4 * pph <= t <= v + 5 * pph /\
          (t + utcoffset_at t = v \/
           (utc_bounds v = (None, None) /\ t = shift_forward v /\
            v < t + utcoffset_at t <= v + pph))
    | Some None => out !! i = Some None
    | None => out !! i = None
    end.
Proof.
  intros Hl. split; [by apply tz_localize_length|].
  intros i. by apply tz_localize_cell.
Qed.

Lemma tz_localize_sound_witness :
  let vals := [Some Sample.fall_back_local; Some Sample.fall_back_local; None;
               Some Sample.skipped_local] in
  let out := default [] (tz_localize vals) in
  length out = length vals /\
  forall i : nat,
    match vals !! i with
    | Some (Some v) =>
        exists t, out !! i = Some (Some t) /\
          v + 4 * pph <= t <= v + 5 * pph /\
          (t + utcoffset_at t = v \/
           (utc_bounds v = (None, None) /\ t = shift_forward v /\
            v < t + utcoffset_at t <= v + pph))
    | Some None => out !! i = Some None
    | None => out !! i = None
    end.
Proof.
  apply (tz_localize_sound
           [Some Sample.fall_back_local; Some Sample.fall_back_local; None;
            Some Sample.skipped_local]).
  vm_compute. reflexivity.
Defined.

(** ** What [strptime] accepts *)

Section Yields.
Import Strptime.

Lemma yields_weaken {A} (p : parser A) (P Q : A -> Prop) :
  yields p P -> (forall a, P a -> Q a) -> yields p Q.
Proof. intros Hp HPQ s a rest Hin. eapply HPQ, Hp, Hin. Qed.

Lemma yields_ret {A} (a : A) (P : A -> Prop) : P a -> yields (ret a) P.
Proof. intros Ha s a' rest [= -> ->]%list_elem_of_singleton. done. Qed.

Lemma yields_alt {A} (p q : parser A) (P : A -> Prop) :
  yields p P -> yields q P -> yields (alt p q) P.
Proof.
  intros Hp Hq s a rest [Hin|Hin]%elem_of_app; [eapply Hp|eapply Hq]; done.
Qed.

Lemma yields_bind {A B} (p : parser A) (f : A -> parser B) (P : A -> Prop)
  (Q : B -> Prop) :
  yields p P -> (forall a, P a -> yields (f a) Q) -> yields (bind p f) Q.
Proof.
  intros Hp Hf s b rest Hin. unfold bind in Hin.
  apply list_elem_of_In, in_flat_map in Hin as ([a r] & Hin & Hb).
  apply list_elem_of_In in Hin, Hb. eapply Hf; [eapply Hp, Hin|exact Hb].
Qed.

Lemma yields_digit_in (lo hi : Z) : yields (digit_in lo hi) (fun d => lo <= d <= hi).
Proof.
  intros [|c s] a rest Hin; simpl in Hin; [by apply elem_of_nil in Hin|].
  destruct (digit_of c) as [d|]; [|by apply elem_of_nil in Hin].
  destruct (Z.leb_spec lo d), (Z.leb_spec d hi); simpl in Hin;
    try (by apply elem_of_nil in Hin).
  apply list_elem_of_singleton in Hin as [= -> _]. lia.
Qed.

Lemma yields_two (a b c d : Z) :
  yields (two a b c d) (fun n => 10 * a + c <= n <= 10 * b + d).
Proof.
  unfold two. eapply yields_bind; [apply yields_digit_in|].
  intros x Hx. eapply yields_bind; [apply yields_digit_in|].
  intros y Hy. apply yields_ret. cbv beta in *. lia.
Qed.

Lemma yields_p_m : yields p_m (fun m => 1 <= m <= 12).
Proof.
  repeat apply yields_alt;
    (eapply yields_weaken; [first [apply yields_two|apply yields_digit_in]|];
     simpl; intros; lia).
Qed.

Lemma yields_p_d : yields p_d (fun d => 1 <= d <= 31).
Proof.
  unfold p_d. repeat apply yields_alt;
    try (eapply yields_weaken; [first [apply yields_two|apply yields_digit_in]|];
         simpl; intros; lia).
  eapply yields_bind with (P := fun _ => True); [done|].
  intros _ _. eapply yields_weaken; [apply yields_digit_in|]. simpl. intros. lia.
Qed.

Lemma yields_p_y : yields p_y (fun y => 0 <= y <= 99).
Proof. eapply yields_weaken; [apply yields_two|]. simpl. intros. lia. Qed.

Lemma yields_p_H : yields p_H (fun H => 0 <= H <= 23).
Proof.
  repeat apply yields_alt;
    (eapply yields_weaken; [first [apply yields_two|apply yields_digit_in]|];
     simpl; intros; lia).
Qed.

Lemma yields_p_M : yields p_M (fun M => 0 <= M <= 59).
Proof.
  repeat apply yields_alt;
    (eapply yields_weaken; [first [apply yields_two|apply yields_digit_in]|];
     simpl; intros; lia).
Qed.

Lemma yields_p_format :
  yields p_format (fun r =>
    let '(m, d, y, H, M) := r in
    1 <= m <= 12 /\ 1 <= d <= 31 /\ 0 <= y <= 99 /\ 0 <= H <= 23 /\ 0 <= M <= 59).
Proof.
  unfold p_format.
  eapply yields_bind; [apply yields_p_m|]. intros m Hm.
  eapply yields_bind with (P := fun _ => True); [done|]. intros _ _.
  eapply yields_bind; [apply yields_p_d|]. intros d Hd.
  eapply yields_bind with (P := fun _ => True); [done|]. intros _ _.
  eapply yields_bind; [apply yields_p_y|]. intros y Hy.
  eapply yields_bind with (P := fun _ => True); [done|]. intros _ _.
  eapply yields_bind; [apply yields_p_H|]. intros H HH.
  eapply yields_bind with (P := fun _ => True); [done|]. intros _ _.
  eapply yields_bind; [apply yields_p_M|]. intros M HM.
  apply yields_ret. done.
Qed.

End Yields.

(** X9.  Whatever text [strptime] accepts as a time denotes a real calendar date
    of the years 1969 to 2068 and a time of day: the value is the wall clock
    of some month 1-12, day within the month, two-digit year, hour 0-23 and
    minute 0-59. *)
Theorem strptime_accepts_real_dates (s : string) (v : Z) :
  Strptime.strptime s = Some (Some v) ->
  exists m d y H M,
    1 <= m <= 12 /\ 1 <= d <= Calendar.days_in_month (Strptime.full_year y) m /\
    0 <= y <= 99 /\ 0 <= H <= 23 /\ 0 <= M <= 59 /\
    1969 <= Strptime.full_year y <= 2068 /\
    v = Calendar.days_from_civil (Strptime.full_year y) m d * ppd + H * pph + M * ppm.
Proof.
  unfold Strptime.strptime. destruct (_ || _); [done|].
  destruct (Strptime.p_format (list_ascii_of_string s)) as [|[[[[[m d] y] H] M] rest] tl] eqn:E;
    [done|].
  destruct rest; [|done].
  destruct (Z.leb_spec d (Calendar.days_in_month (Strptime.full_year y) m)); [|done].
  intros [= <-].
  assert (Hin : ((m, d, y, H, M), []) ∈ Strptime.p_format (list_ascii_of_string s))
    by (rewrite E; left).
  apply yields_p_format in Hin as (Hm & Hd & Hy & HH & HM).
  exists m, d, y, H, M. repeat split; try lia.
  - unfold Strptime.full_year. destruct (Z.leb_spec y 68); lia.
  - unfold Strptime.full_year. destruct (Z.leb_spec y 68); lia.
Qed.

Lemma strptime_accepts_real_dates_witness :
  exists m d y H M,
    1 <= m <= 12 /\ 1 <= d <= Calendar.days_in_month (Strptime.full_year y) m /\
    0 <= y <= 99 /\ 0 <= H <= 23 /\ 0 <= M <= 59 /\
    1969 <= Strptime.full_year y <= 2068 /\
    Sample.fall_back_local =
      Calendar.days_from_civil (Strptime.full_year y) m d * ppd + H * pph + M * ppm.
Proof.
  apply (strptime_accepts_real_dates Sample.fall_back_stamp Sample.fall_back_local).
  vm_compute. reflexivity.
Defined.

(** *** Zero-padded stamps *)

Tactic Notation "upto_cases" constr(n) integer(bound) :=
  let k := fresh "k" in
  let E := fresh "E" in
  assert (exists k : nat, n = Z.of_nat k) as [k E] by (exists (Z.to_nat n); lia);
  subst n;
  do bound (destruct k as [|k];
            [first [lia | (vm_compute; eexists; reflexivity) | (vm_compute; reflexivity)]|]);
  lia.

Lemma p_m_head (n : Z) (rest : list ascii) :
  1 <= n <= 12 ->
  exists tl, Strptime.p_m (digit_char (n / 10) :: digit_char n :: rest) = (n, rest) :: tl.
Proof. intros Hn. upto_cases n 13. Qed.

Lemma p_d_head (n : Z) (rest : list ascii) :
  1 <= n <= 31 ->
  exists tl, Strptime.p_d (digit_char (n / 10) :: digit_char n :: rest) = (n, rest) :: tl.
Proof. intros Hn. upto_cases n 32. Qed.

Lemma p_y_head (n : Z) (rest : list ascii) :
  0 <= n <= 99 ->
  exists tl, Strptime.p_y (digit_char (n / 10) :: digit_char n :: rest) = (n, rest) :: tl.
Proof. intros Hn. upto_cases n 100. Qed.

Lemma p_H_head (n : Z) (rest : list ascii) :
  0 <= n <= 23 ->
  exists tl, Strptime.p_H (digit_char (n / 10) :: digit_char n :: rest) = (n, rest) :: tl.
Proof. intros Hn. upto_cases n 24. Qed.

Lemma p_M_head (n : Z) (rest : list ascii) :
  0 <= n <= 59 ->
  exists tl, Strptime.p_M (digit_char (n / 10) :: digit_char n :: rest) = (n, rest) :: tl.
Proof. intros Hn. upto_cases n 60. Qed.

Lemma is_space_digit_char (n : Z) : Strptime.is_space (digit_char n) = false.
Proof.
  unfold digit_char.
  pose proof (Z.mod_pos_bound n 10 ltac:(lia)) as Hr.
  generalize dependent (n mod 10). intros r Hr. upto_cases r 10.
Qed.

Lemma bind_head {A B} (p : Strptime.parser A) (f : A -> Strptime.parser B)
  (s : list ascii) (a : A) (r : list ascii) (x : B * list ascii) :
  (exists tl, p s = (a, r) :: tl) -> (exists tl, f a r = x :: tl) ->
  exists tl, Strptime.bind p f s = x :: tl.
Proof.
  intros [tl Hp] [tl' Hf]. unfold Strptime.bind. rewrite Hp. simpl. rewrite Hf.
  by eexists.
Qed.

Lemma char_head (c : ascii) (rest : list ascii) :
  exists tl, Strptime.char c (c :: rest) = (tt, rest) :: tl.
Proof. simpl. rewrite Ascii.eqb_refl. by eexists. Qed.

Lemma spaces1_head (c : ascii) (rest : list ascii) :
  Strptime.is_space c = false ->
  exists tl, Strptime.spaces1 (" "%char :: c :: rest) = (tt, c :: rest) :: tl.
Proof. intros Hc. simpl. rewrite Hc. by eexists. Qed.

Lemma stamp_text_chars (m d y H M : Z) :
  list_ascii_of_string (stamp_text m d y H M) =
  [digit_char (m / 10); digit_char m; "/"%char;
   digit_char (d / 10); digit_char d; "/"%char;
   digit_char (y / 10); digit_char y; " "%char;
   digit_char (H / 10); digit_char H; ":"%char;
   digit_char (M / 10); digit_char M].
Proof. reflexivity. Qed.

Lemma p_format_stamp_text (m d y H M : Z) :
  1 <= m <= 12 -> 1 <= d <= 31 -> 0 <= y <= 99 -> 0 <= H <= 23 -> 0 <= M <= 59 ->
  exists tl,
    Strptime.p_format (list_ascii_of_string (stamp_text m d y H M)) =
    ((m, d, y, H, M), []) :: tl.
Proof.
  intros Hm Hd Hy HH HM. rewrite stamp_text_chars. unfold Strptime.p_format.
  eapply bind_head; [by apply p_m_head|].
  eapply bind_head; [apply char_head|].
  eapply bind_head; [by apply p_d_head|].
  eapply bind_head; [apply char_head|].
  eapply bind_head; [by apply p_y_head|].
  eapply bind_head; [apply spaces1_head, is_space_digit_char|].
  eapply bind_head; [by apply p_H_head|].
  eapply bind_head; [apply char_head|].
  eapply bind_head; [by apply p_M_head|].
  by eexists.
Qed.

(** X10.  Every zero-padded stamp [MM/DD/YY HH:MM] of a real date and time parses,
    and parses to the wall clock it spells, with years 69-99 read as
    1969-1999 and years 00-68 as 2000-2068. *)
Theorem strptime_stamp_text (m d y H M : Z) :
  1 <= m <= 12 -> 1 <= d <= Calendar.days_in_month (Strptime.full_year y) m ->
  0 <= y <= 99 -> 0 <= H <= 23 -> 0 <= M <= 59 ->
  Strptime.strptime (stamp_text m d y H M) =
  Some (Some (Calendar.days_from_civil (Strptime.full_year y) m d * ppd
              + H * pph + M * ppm)).
Proof.
  intros Hm Hd Hy HH HM.
  assert (Hd31 : 1 <= d <= 31).
  { split; [lia|]. etrans; [apply Hd|]. unfold Calendar.days_in_month.
    repeat destruct (_ =? _); simpl; try lia; destruct (Calendar.is_leap _); lia. }
  destruct (p_format_stamp_text m d y H M Hm Hd31 Hy HH HM) as [tl Hp].
  unfold Strptime.strptime. rewrite Hp.
  assert (Hnat : bool_decide (stamp_text m d y H M = ""%string)
                 || bool_decide (stamp_text m d y H M ∈ Strptime.nat_strings) = false).
  { apply orb_false_iff. split; apply bool_decide_eq_false.
    - done.
    - unfold Strptime.nat_strings. rewrite !elem_of_cons, elem_of_nil.
      intros [E|[E|[E|[E|[E|[E|[]]]]]]]; discriminate E. }
  rewrite Hnat. destruct (Z.leb_spec d (Calendar.days_in_month (Strptime.full_year y) m));
    [done|lia].
Qed.

Lemma strptime_stamp_text_witness :
  Strptime.strptime (stamp_text 12 31 18 19 0) =
  Some (Some (Calendar.days_from_civil (Strptime.full_year 18) 12 31 * ppd
              + 19 * pph + 0 * ppm)).
Proof.
  apply (strptime_stamp_text 12 31 18 19 0); vm_compute; split; discriminate.
Defined.

(** ** The hourly option only adds columns *)

Section SortMap.
Context {A B : Type} (f : A -> B).
Context (RA : relation A) (RB : relation B).
Context `{!RelDecision RA, !RelDecision RB}.
Hypothesis R_f : forall x y, RA x y <-> RB (f x) (f y).

Lemma list_merge_fmap (l1 l2 : list A) :
  list_merge RB (f <$> l1) (f <$> l2) = f <$> list_merge RA l1 l2.
Proof.
  revert l2. induction l1 as [|x1 l1 IH1]; intros l2; [by destruct l2|].
  induction l2 as [|x2 l2 IH2]; [done|].
  rewrite !fmap_cons, !list_merge_cons.
  destruct (decide (RA x1 x2)) as [H|H], (decide (RB (f x1) (f x2))) as [H'|H'];
    try (by apply R_f in H); try (by apply R_f in H').
  - rewrite fmap_cons. f_equal. rewrite <- IH1. by rewrite fmap_cons.
  - rewrite fmap_cons. f_equal. rewrite <- IH2. by rewrite fmap_cons.
Qed.

Local Abbreviation stack_fmap :=
  (fmap (M := list) (fmap (M := option) (fmap (M := list) f))).

Lemma merge_list_to_stack_fmap (st : list (option (list A))) (l : list A) :
  merge_list_to_stack RB (stack_fmap st) (f <$> l) =
  stack_fmap (merge_list_to_stack RA st l).
Proof.
  revert l. induction st as [|[l'|] st IH]; intros l; [done| |done].
  change (None :: merge_list_to_stack RB (stack_fmap st) (list_merge RB (f <$> l') (f <$> l))
          = None :: stack_fmap (merge_list_to_stack RA st (list_merge RA l' l))).
  by rewrite list_merge_fmap, IH.
Qed.

Lemma merge_stack_fmap (st : list (option (list A))) :
  merge_stack RB (stack_fmap st) = f <$> merge_stack RA st.
Proof.
  induction st as [|[l'|] st IH]; [done| |exact IH].
  change (list_merge RB (f <$> l') (merge_stack RB (stack_fmap st))
          = f <$> list_merge RA l' (merge_stack RA st)).
  rewrite IH. apply list_merge_fmap.
Qed.

Lemma merge_sort_aux_fmap (st : list (option (list A))) (l : list A) :
  merge_sort_aux RB (stack_fmap st) (f <$> l) = f <$> merge_sort_aux RA st l.
Proof.
  revert st. induction l as [|x l IH]; intros st.
  - apply merge_stack_fmap.
  - change (merge_sort_aux RB (merge_list_to_stack RB (stack_fmap st) (f <$> [x])) (f <$> l)
            = f <$> merge_sort_aux RA (merge_list_to_stack RA st [x]) l).
    by rewrite merge_list_to_stack_fmap, IH.
Qed.

(** Sorting the images is the image of sorting, when the map respects the
    order. *)
Lemma merge_sort_fmap (l : list A) :
  merge_sort RB (f <$> l) = f <$> merge_sort RA l.
Proof. apply (merge_sort_aux_fmap [] l). Qed.

End SortMap.

(** X11.  Hourly mode only adds the two hourly columns: without them, the report
    of a run in hourly mode is, row for row and in the same order, the report
    of the same run without the option. *)
Theorem hourly_only_adds_columns (a : args) (cost : list (stamped cost_row))
  (rev : list (stamped rev_row)) :
  drop_hourly <$> report_of a cost rev =
  report_of (Args (date_from a) (date_to a) false) cost rev.
Proof.
  rewrite !report_of_frame. unfold sort_values.
  rewrite <- (merge_sort_fmap drop_hourly (key_of_le out_key) (key_of_le out_key))
    by done.
  f_equal. unfold report_frame. simpl.
  change (map ?g ?l) with (g <$> l). rewrite <- !list_fmap_compose.
  apply list_fmap_ext. intros i j _. done.
Qed.

(** ** The hour buckets of a report row *)

Lemma hourly_frame_rows (cost : list (stamped cost_row)) (rev : list (stamped rev_row)) :
  hourly_frame cost rev =
  map (fun k => fill_hour (k, cell k (cost_h cost), cell k (rev_h rev)))
      (unique_keys ((cost_h cost).*1 ++ (rev_h rev).*1)).
Proof.
  unfold hourly_frame.
  rewrite merge_outer_rows by (apply NoDup_groupby_keys). by rewrite map_map.
Qed.

Lemma rows_of_hourly_frame (F : Z * Z * string -> hour_row) (k1 : Z * string)
  (ks : list (Z * Z * string)) :
  (forall k, h_key (F k) = Some (day_of_hour_key k)) ->
  rows_of h_key k1 (map F ks) = map F (filter (fun k => day_of_hour_key k = k1) ks).
Proof.
  intros HF. unfold rows_of. induction ks as [|k ks IH]; [done|].
  cbn [map]. rewrite !filter_cons, IH, HF.
  destruct (decide (Some (day_of_hour_key k) = Some k1)) as [E|E],
           (decide (day_of_hour_key k = k1)) as [E'|E']; try done; congruence.
Qed.

(** A list without repetition whose members all lie among [n] numbers has at
    most [n] members. *)
Lemma length_bounded_by_range {A} (g : A -> Z) (n : nat) (l : list A) :
  NoDup l ->
  (forall x y, x ∈ l -> y ∈ l -> g x = g y -> x = y) ->
  (forall x, x ∈ l -> 0 <= g x < Z.of_nat n) ->
  (length l <= n)%nat.
Proof.
  intros Hnd Hinj Hrange.
  assert (Hsub : (fun x => Z.to_nat (g x)) <$> l ⊆+ seq 0 n);
    [|apply submseteq_length in Hsub; by rewrite length_fmap, length_seq in Hsub].
  apply NoDup_submseteq.
  - apply NoDup_fmap_2_strong; [|done].
    intros x y Hx Hy E. apply Hinj; [done..|].
    pose proof (Hrange x Hx). pose proof (Hrange y Hy). lia.
  - intros i (x & -> & Hx)%list_elem_of_fmap. apply elem_of_seq.
    pose proof (Hrange x Hx). lia.
Qed.

Lemma hour_of_day_range (d h : Z) :
  h mod pph = 0 -> d <= h < d + ppd -> 0 <= (h - d) / pph < Z.of_nat 24.
Proof.
  assert (Hp : 0 < pph) by (unfold pph, pps; lia).
  assert (Hd : ppd = 24 * pph) by reflexivity.
  intros _ Hb. split.
  - apply Z.div_pos; lia.
  - apply Z.div_lt_upper_bound; lia.
Qed.

Lemma hour_of_day_inj (d h1 h2 : Z) :
  d mod pph = 0 ->
  h1 mod pph = 0 -> h2 mod pph = 0 ->
  (h1 - d) / pph = (h2 - d) / pph -> h1 = h2.
Proof.
  assert (Hp : 0 < pph) by (unfold pph, pps; lia).
  intros Hd H1 H2 E.
  apply Z.mod_divide in Hd as [kd ->]; [|lia].
  apply Z.mod_divide in H1 as [k1 ->]; [|lia].
  apply Z.mod_divide in H2 as [k2 ->]; [|lia].
  replace (k1 * pph - kd * pph) with ((k1 - kd) * pph) in E by ring.
  replace (k2 * pph - kd * pph) with ((k2 - kd) * pph) in E by ring.
  rewrite !Z.div_mul in E by lia. f_equal. lia.
Qed.

Lemma hourly_key_bounds {A} (col cid : A -> option string) (df : list A)
  (out : list (stamped A)) (r : stamped A) (d h : Z) (c : string) :
  parse_est_to_utc col df = Some out -> r ∈ out ->
  hourly_key cid r = Some (d, h, c) ->
  d mod pph = 0 /\ h mod pph = 0 /\ d <= h < d + ppd.
Proof.
  intros Hp Hr Hk.
  destruct (parse_est_to_utc_stamps _ _ _ _ Hp Hr) as [Hd Hh].
  unfold hourly_key in Hk. rewrite Hd, Hh in Hk.
  destruct (dt_utc r) as [t|]; [|done]. simpl in Hk.
  destruct (cid (row_of r)); simplify_eq/=.
  assert (Hpph : 0 < pph) by (unfold pph, pps; lia).
  assert (Hppd : 0 < ppd) by (unfold ppd; lia).
  destruct (floor_to_spec pph t Hpph) as [Hm1 Hb1].
  destruct (floor_to_spec ppd t Hppd) as [Hm2 Hb2].
  destruct (floor_to_spec ppd (floor_to pph t) Hppd) as [_ Hb3].
  rewrite floor_day_of_hour in Hb3.
  split; [|split; [done|lia]].
  apply Z.mod_divide in Hm2 as [q Hq]; [|lia]. rewrite Hq.
  unfold ppd. rewrite Z.mul_assoc. apply Z.mod_mul. lia.
Qed.

(** X12.  In hourly mode every report row has at least one and at most 24 hour
    buckets, and its count of profitable hours lies between 0 and the number
    of its buckets. *)
Theorem hourly_buckets_bound (a : args) (cost : list cost_row) (rev : list rev_row)
  (scost : list (stamped cost_row)) (srev : list (stamped rev_row))
  (row : report_row) :
  hourly a = true ->
  parse_est_to_utc cost_data_date (map cast_cost cost) = Some scost ->
  parse_est_to_utc rev_data_date (map cast_rev rev) = Some srev ->
  row ∈ report_of a scost srev ->
  let h := hourly_frame
             (filter_window (floor_to ppd (date_from a)) (floor_to ppd (date_to a)) scost)
             (filter_window (floor_to ppd (date_from a)) (floor_to ppd (date_to a)) srev) in
  exists (d : Z) (hc : hourly_cols),
    date row = strftime d /\
    hourly_columns row = Some hc /\
    let buckets := rows_of h_key (d, campaign_id row) h in
    (1 <= length buckets <= 24)%nat /\
    0 <= positive_profit_hours hc <= Z.of_nat (length buckets).
Proof.
  intros Hh Hc Hr Hrow h.
  apply elem_of_report_of in Hrow as (j & Hj & ->). rewrite Hh. fold h.
  exists (j_date_utc j), (hourly_cols_of h (j_key j)).
  split; [done|]. split; [done|].
  change (campaign_id (format_row _)) with (j_campaign_id j).
  change (j_date_utc j, j_campaign_id j) with (j_key j).
  set (k1 := j_key j). intros buckets.
  set (cost' := filter_window _ _ scost) in *.
  set (rev' := filter_window _ _ srev) in *.
  set (ks := unique_keys ((cost_h cost').*1 ++ (rev_h rev').*1)).
  assert (Hbk : buckets =
            map (fun k => fill_hour (k, cell k (cost_h cost'), cell k (rev_h rev')))
                (filter (fun k => day_of_hour_key k = k1) ks)).
  { unfold buckets, h. rewrite hourly_frame_rows. apply rows_of_hourly_frame.
    intros [[d' h'] c']. done. }
  assert (Hks : forall k, k ∈ ks ->
            k.1.1 mod pph = 0 /\ k.1.2 mod pph = 0 /\ k.1.1 <= k.1.2 < k.1.1 + ppd).
  { intros [[d' h'] c'] Hk. unfold ks in Hk.
    apply elem_of_unique_keys, elem_of_app in Hk. unfold cost_h, rev_h in Hk.
    rewrite !elem_of_groupby_keys in Hk.
    destruct Hk as [(r & [_ Hin]%elem_of_filter_window & Hk)
                   |(r & [_ Hin]%elem_of_filter_window & Hk)].
    - exact (hourly_key_bounds _ _ _ _ _ _ _ _ Hc Hin Hk).
    - exact (hourly_key_bounds _ _ _ _ _ _ _ _ Hr Hin Hk). }
  assert (Hone : exists k, k ∈ ks /\ day_of_hour_key k = k1).
  { apply elem_of_reconcile in Hj as [Hk _]; [|apply NoDup_groupby_keys..].
    fold k1 in Hk. destruct k1 as [d c].
    assert (Hrow : (exists r, r ∈ cost' /\ daily_key cost_campaign_id r = Some (d, c)) \/
                   (exists r, r ∈ rev' /\ daily_key rev_campaign_id r = Some (d, c))).
    { destruct Hk as [Hk|Hk]; [left|right];
        unfold cost_daily, rev_daily in Hk; by apply elem_of_groupby_keys in Hk. }
    destruct Hrow as [(r & Hin & Hk')|(r & Hin & Hk')].
    - apply elem_of_filter_window in Hin as Hin'. destruct Hin' as [_ Hin'].
      destruct (daily_key_hourly _ cost_campaign_id _ _ r _ Hc Hin' Hk') as [k Hhk].
      exists k. split.
      + apply elem_of_unique_keys, elem_of_app. left. unfold cost_h.
        apply elem_of_groupby_keys. eauto.
      + apply hourly_key_daily in Hhk. congruence.
    - apply elem_of_filter_window in Hin as Hin'. destruct Hin' as [_ Hin'].
      destruct (daily_key_hourly _ rev_campaign_id _ _ r _ Hr Hin' Hk') as [k Hhk].
      exists k. split.
      + apply elem_of_unique_keys, elem_of_app. right. unfold rev_h.
        apply elem_of_groupby_keys. eauto.
      + apply hourly_key_daily in Hhk. congruence. }
  assert (Hlen : (1 <= length buckets <= 24)%nat).
  { rewrite Hbk, length_map. split.
    - destruct Hone as (k & Hk & Hday).
      assert (Hin : k ∈ filter (fun k => day_of_hour_key k = k1) ks)
        by (by apply list_elem_of_filter).
      destruct (filter _ ks); [by apply elem_of_nil in Hin|simpl; lia].
    - apply (length_bounded_by_range (fun k => (k.1.2 - k.1.1) / pph)).
      + apply NoDup_filter, NoDup_unique_keys.
      + intros [[d1 h1] c1] [[d2 h2] c2] [E1 Hk1]%list_elem_of_filter
          [E2 Hk2]%list_elem_of_filter Hg.
        unfold day_of_hour_key in E1, E2. simpl in *.
        assert (d1 = d2 /\ c1 = c2) as [-> ->] by (split; congruence).
        destruct (Hks _ Hk1) as (Hd1 & Hm1 & Hb1).
        destruct (Hks _ Hk2) as (Hd2 & Hm2 & Hb2).
        simpl in *. f_equal. f_equal.
        apply (hour_of_day_inj d2); done.
      + intros [[d1 h1] c1] [_ Hk1]%list_elem_of_filter.
        destruct (Hks _ Hk1) as (Hd1 & Hm1 & Hb1). simpl in *.
        by apply hour_of_day_range. }
  split; [exact Hlen|].
  unfold hourly_cols_of, pos_hours. cbn [positive_profit_hours].
  rewrite cell_groupby. fold buckets.
  destruct (decide _) as [Hin|Hin]; cbn [fmap option_fmap option_map default]; [|lia].
  rewrite rows_of_filter. fold buckets.
  pose proof (length_filter (fun b => Is_true (0 <? h_profit b)%float) buckets).
  unfold id. lia.
Qed.

Lemma hourly_buckets_bound_witness :
  exists (d : Z) (hc : hourly_cols),
    date Sample.two_hours_row = strftime d /\
    hourly_columns Sample.two_hours_row = Some hc /\
    (1 <= length (rows_of h_key (d, campaign_id Sample.two_hours_row)
                    (hourly_frame
                       (filter_window (floor_to ppd (date_from Sample.hourly_day))
                          (floor_to ppd (date_to Sample.hourly_day))
                          Sample.two_hours_cost_utc)
                       (filter_window (floor_to ppd (date_from Sample.hourly_day))
                          (floor_to ppd (date_to Sample.hourly_day))
                          Sample.two_hours_revenue_utc))) <= 24)%nat /\
    0 <= positive_profit_hours hc.
Proof.
  assert (E : report_of Sample.hourly_day Sample.two_hours_cost_utc
                Sample.two_hours_revenue_utc = [Sample.two_hours_row])
    by (vm_compute; reflexivity).
  destruct (hourly_buckets_bound Sample.hourly_day Sample.two_hours_cost
              Sample.two_hours_revenue Sample.two_hours_cost_utc
              Sample.two_hours_revenue_utc Sample.two_hours_row)
    as (d & hc & Hd & Hhc & Hlen & Hpos).
  - reflexivity.
  - vm_compute; reflexivity.
  - vm_compute; reflexivity.
  - rewrite E. left.
  - exists d, hc. repeat split; [exact Hd|exact Hhc|apply Hlen..|apply Hpos].
Defined.

(** ** The order of the report *)

Lemma date_text_step_table :
  holds_from (fun n => match String.compare (date_text n) (date_text (n + 1)) with
                       | Lt => true
                       | _ => false
                       end)
    first_day (Z.to_nat (last_day - first_day)) = true.
Proof. vm_compute. reflexivity. Qed.

Lemma holds_from_spec (p : Z -> bool) (n : Z) (k : nat) (x : Z) :
  holds_from p n k = true -> n <= x < n + Z.of_nat k -> p x = true.
Proof.
  revert n. induction k as [|k IH]; intros n H Hx; [lia|].
  simpl in H. apply andb_true_iff in H as [Hn Hk].
  destruct (decide (x = n)) as [->|Hne]; [done|].
  apply (IH (n + 1)); [done|lia].
Qed.

Lemma first_last_day : first_day = -365 /\ last_day = 36160.
Proof. split; reflexivity. Qed.

Lemma date_text_step (n : Z) :
  first_day <= n < last_day ->
  String.compare (date_text n) (date_text (n + 1)) = Lt.
Proof.
  intros Hn.
  pose proof (holds_from_spec _ _ _ n date_text_step_table) as H.
  assert (Hr : first_day <= n < first_day + Z.of_nat (Z.to_nat (last_day - first_day)))
    by (destruct first_last_day; lia).
  specialize (H Hr). cbv beta in H.
  by destruct (String.compare (date_text n) (date_text (n + 1))).
Qed.

Lemma date_text_lt_nat (n : Z) (k : nat) :
  first_day <= n -> n + 1 + Z.of_nat k <= last_day ->
  String.compare (date_text n) (date_text (n + 1 + Z.of_nat k)) = Lt.
Proof.
  intros H1. induction k as [|k IH]; intros H2.
  - rewrite Z.add_0_r. apply date_text_step. lia.
  - apply (string_compare_lt_trans _ (date_text (n + 1 + Z.of_nat k))); [apply IH; lia|].
    replace (n + 1 + Z.of_nat (S k)) with (n + 1 + Z.of_nat k + 1) by lia.
    apply date_text_step. lia.
Qed.

(** Within the days a feed can name, a later day has a greater text. *)
Lemma date_text_lt (n1 n2 : Z) :
  first_day <= n1 -> n1 < n2 -> n2 <= last_day ->
  String.compare (date_text n1) (date_text n2) = Lt.
Proof.
  intros H1 Hlt H2.
  replace n2 with (n1 + 1 + Z.of_nat (Z.to_nat (n2 - n1 - 1))) by lia.
  apply date_text_lt_nat; lia.
Qed.

Lemma string_compare_irrefl (s : string) : String.compare s s <> Lt.
Proof.
  intros H. pose proof (String.compare_antisym s s) as Ha.
  rewrite H in Ha. done.
Qed.

Lemma date_text_inj (n1 n2 : Z) :
  first_day <= n1 <= last_day -> first_day <= n2 <= last_day ->
  date_text n1 = date_text n2 -> n1 = n2.
Proof.
  intros H1 H2 E.
  destruct (Z.lt_trichotomy n1 n2) as [Hlt|[->|Hgt]]; [|done|].
  - assert (H := date_text_lt n1 n2 ltac:(lia) Hlt ltac:(lia)).
    rewrite E in H. by apply string_compare_irrefl in H.
  - assert (H := date_text_lt n2 n1 ltac:(lia) Hgt ltac:(lia)).
    rewrite E in H. by apply string_compare_irrefl in H.
Qed.

Lemma date_text_le (n1 n2 : Z) :
  first_day <= n1 <= last_day -> first_day <= n2 <= last_day ->
  string_le (date_text n1) (date_text n2) -> n1 <= n2.
Proof.
  intros H1 H2 Hle. destruct (Z.le_gt_cases n1 n2) as [|Hgt]; [done|].
  exfalso. assert (Hlt := date_text_lt n2 n1 ltac:(lia) ltac:(lia) ltac:(lia)).
  apply string_le_cases in Hle as [Hlt'|E].
  - apply (string_compare_irrefl (date_text n2)).
    by apply (string_compare_lt_trans _ (date_text n1)).
  - rewrite E in Hlt. by apply string_compare_irrefl in Hlt.
Qed.

Lemma strftime_date_text (t : Z) : strftime t = date_text (t / ppd).
Proof. reflexivity. Qed.

Lemma days_from_civil_range (y m d : Z) :
  1969 <= y <= 2068 -> 1 <= m <= 12 -> 1 <= d <= 31 ->
  first_day <= Calendar.days_from_civil y m d < last_day.
Proof.
  destruct first_last_day as [-> ->]. intros Hy Hm Hd.
  unfold Calendar.days_from_civil.
  destruct (Z.leb_spec m 2); Z.div_mod_to_equations; lia.
Qed.

Lemma strptime_range (s : string) (v : Z) :
  Strptime.strptime s = Some (Some v) ->
  first_day * ppd <= v < last_day * ppd.
Proof.
  unfold Strptime.strptime. destruct (_ || _); [done|].
  destruct (Strptime.p_format (list_ascii_of_string s))
    as [|[[[[[m d] y] H] M] rest] tl] eqn:E; [done|].
  destruct rest; [|done].
  destruct (Z.leb_spec d (Calendar.days_in_month (Strptime.full_year y) m)); [|done].
  intros [= <-].
  assert (Hin : ((m, d, y, H, M), []) ∈ Strptime.p_format (list_ascii_of_string s))
    by (rewrite E; left).
  apply yields_p_format in Hin as (Hm & Hd & Hy & HH & HM).
  assert (Hyear : 1969 <= Strptime.full_year y <= 2068)
    by (unfold Strptime.full_year; destruct (Z.leb_spec y 68); lia).
  pose proof (days_from_civil_range (Strptime.full_year y) m d Hyear Hm Hd) as Hr.
  revert Hr. generalize (Calendar.days_from_civil (Strptime.full_year y) m d).
  intros D Hr. unfold ppd, pph, ppm, pps. lia.
Qed.

(** Every instant of a normalized feed lies between the start of 1969 and
    the end of the first day of 2069. *)
Lemma parse_est_to_utc_range {A} (col : A -> option string) (df : list A)
  (out : list (stamped A)) (r : stamped A) (t : Z) :
  parse_est_to_utc col df = Some out -> r ∈ out -> dt_utc r = Some t ->
  first_day * ppd <= t < (last_day + 1) * ppd.
Proof.
  unfold parse_est_to_utc. intros Hp Hr Ht.
  destruct (to_datetime (map col df)) as [dt|] eqn:Edt; [|done]. simpl in Hp.
  destruct (tz_localize dt) as [dt'|] eqn:Etz; [|done]. simpl in Hp.
  injection Hp as <-.
  apply elem_of_lookup_zip_with in Hr as (i & x & t' & -> & Hx & Ht').
  simpl in Ht. subst t'.
  pose proof (tz_localize_cell dt dt' i Etz) as Hcell.
  destruct (dt !! i) as [[v|]|] eqn:Ev; [|congruence..].
  destruct Hcell as (t0 & Ht0 & Hb & _).
  assert (t0 = t) as -> by congruence.
  unfold to_datetime in Edt. apply mapM_Some in Edt.
  destruct (Forall2_lookup_r _ _ _ _ _ Edt Ev) as (c & _ & Hc).
  destruct c as [s|]; [|done].
  apply strptime_range in Hc.
  clear -Hb Hc. unfold ppd, pph, pps in *. lia.
Qed.

Lemma daily_key_range {A} (col cid : A -> option string) (df : list A)
  (out : list (stamped A)) (r : stamped A) (d : Z) (c : string) :
  parse_est_to_utc col df = Some out -> r ∈ out ->
  daily_key cid r = Some (d, c) ->
  d mod ppd = 0 /\ first_day <= d / ppd <= last_day.
Proof.
  intros Hp Hr Hk.
  destruct (parse_est_to_utc_stamps _ _ _ _ Hp Hr) as [Hd _].
  unfold daily_key in Hk. rewrite Hd in Hk.
  destruct (dt_utc r) as [t|] eqn:Et; [|done]. simpl in Hk.
  destruct (cid (row_of r)); simplify_eq/=.
  pose proof (parse_est_to_utc_range _ _ _ _ _ Hp Hr Et) as Hr'.
  assert (Hppd : 0 < ppd) by (unfold ppd, pph, pps; lia).
  split; [apply floor_to_mod; lia|].
  unfold floor_to. rewrite Zmod_eq_full by lia.
  replace (t - (t - t / ppd * ppd)) with (t / ppd * ppd) by ring.
  rewrite Z.div_mul by lia.
  split; [apply Z.div_le_lower_bound; lia|].
  assert (t / ppd < last_day + 1) by (apply Z.div_lt_upper_bound; lia). lia.
Qed.

Lemma StronglySorted_fmap_inv {A B} (R : relation B) (f : A -> B) (l : list A) :
  StronglySorted R (f <$> l) -> StronglySorted (fun x y => R (f x) (f y)) l.
Proof.
  induction l as [|x l IH]; [constructor|].
  rewrite fmap_cons. intros H. apply StronglySorted_inv in H as [H1 H2].
  constructor; [by apply IH|].
  by rewrite Forall_fmap in H2.
Qed.

Lemma StronglySorted_strengthen {A} (R R' : relation A) (l : list A) :
  NoDup l -> (forall x y, x ∈ l -> y ∈ l -> x <> y -> R x y -> R' x y) ->
  StronglySorted R l -> StronglySorted R' l.
Proof.
  intros Hnd HR Hs. induction Hs as [|x l Hs IH Hx]; [constructor|].
  apply NoDup_cons in Hnd as [Hnx Hnd].
  constructor.
  - apply IH; [done|]. intros y z Hy Hz. apply HR; by right.
  - apply Forall_forall. intros y Hy. rewrite Forall_forall in Hx.
    apply HR; [left|by right| |by apply Hx]. by intros ->.
Qed.

(** The (day, campaign) keys of a run's joined frame are UTC midnights of
    days a feed can name. *)
Lemma reconcile_key_range (a : args) (cost : list cost_row) (rev : list rev_row)
  (scost : list (stamped cost_row)) (srev : list (stamped rev_row)) (k : Z * string) :
  parse_est_to_utc cost_data_date (map cast_cost cost) = Some scost ->
  parse_est_to_utc rev_data_date (map cast_rev rev) = Some srev ->
  k ∈ unique_keys
        ((cost_daily (filter_window (floor_to ppd (date_from a))
                                    (floor_to ppd (date_to a)) scost)).*1 ++
         (rev_daily (filter_window (floor_to ppd (date_from a))
                                   (floor_to ppd (date_to a)) srev)).*1) ->
  k.1 mod ppd = 0 /\ first_day <= k.1 / ppd <= last_day.
Proof.
  intros Hc Hr Hk. destruct k as [d c].
  apply elem_of_unique_keys, elem_of_app in Hk. unfold cost_daily, rev_daily in Hk.
  rewrite !elem_of_groupby_keys in Hk.
  destruct Hk as [(r & [_ Hin]%elem_of_filter_window & Hk)
                 |(r & [_ Hin]%elem_of_filter_window & Hk)].
  - exact (daily_key_range _ _ _ _ _ _ _ Hc Hin Hk).
  - exact (daily_key_range _ _ _ _ _ _ _ Hr Hin Hk).
Qed.

(** X13.  The report is in strictly ascending order of (UTC day, campaign id): its
    (date, campaign) pairs are the texts of a list of UTC midnights paired
    with campaign ids, in which every entry has a later day than the one
    before it or the same day and a greater campaign id; no (date, campaign)
    pair occurs twice. *)
Theorem report_in_day_order (a : args) (cost : list cost_row) (rev : list rev_row)
  (report : list report_row) :
  main a cost rev = Some report ->
  NoDup (out_key <$> report) /\
  exists ks : list (Z * string),
    out_key <$> report = (fun k => (strftime k.1, k.2)) <$> ks /\
    Forall (fun k => k.1 mod ppd = 0) ks /\
    StronglySorted (fun k1 k2 => k1.1 < k2.1 \/
                                 (k1.1 = k2.1 /\ String.compare k1.2 k2.2 = Lt)) ks.
Proof.
  unfold main. intros Hm.
  destruct (parse_est_to_utc cost_data_date (map cast_cost cost)) as [scost|] eqn:Hc;
    [|done]. simpl in Hm.
  destruct (parse_est_to_utc rev_data_date (map cast_rev rev)) as [srev|] eqn:Hr;
    [|done]. simpl in Hm. injection Hm as <-.
  rewrite report_of_frame.
  assert (Hs : StronglySorted (key_of_le out_key)
                 (sort_values out_key (map format_row (report_frame a scost srev)))).
  { assert (Transitive (key_of_le (K := string * string) out_key))
      by (intros x y z; unfold key_of_le; apply transitivity).
    assert (Total (key_of_le (K := string * string) out_key))
      by (intros x y; unfold key_of_le; apply total, _).
    by apply StronglySorted_merge_sort. }
  assert (Hperm : sort_values out_key (map format_row (report_frame a scost srev))
                  ≡ₚ map format_row (report_frame a scost srev))
    by apply merge_sort_Permutation.
  destruct (Permutation_map_inv _ _ Hperm) as (fr & Hfr & Hpf).
  rewrite Hfr in *. clear Hfr Hperm.
  set (ks := (fun r : metrics_row * option hourly_cols => m_key r.1) <$> fr).
  assert (Hkeys : out_key <$> map format_row fr
                  = (fun k : Z * string => (strftime k.1, k.2)) <$> ks).
  { unfold ks. change (map format_row fr) with (format_row <$> fr).
    rewrite <- !list_fmap_compose. apply list_fmap_ext. by intros i [m hc] _. }
  set (cd := cost_daily (filter_window (floor_to ppd (date_from a))
                                       (floor_to ppd (date_to a)) scost)).
  set (rd := rev_daily (filter_window (floor_to ppd (date_from a))
                                      (floor_to ppd (date_to a)) srev)).
  assert (Hks : ks ≡ₚ unique_keys (cd.*1 ++ rd.*1)).
  { unfold ks. rewrite <- Hpf.
    rewrite <- reconcile_keys by apply NoDup_groupby_keys.
    unfold report_frame. change (map ?f ?l) with (f <$> l).
    rewrite <- list_fmap_compose. done. }
  assert (Hnd : NoDup ks) by (rewrite Hks; apply NoDup_unique_keys).
  assert (Hrange : forall k, k ∈ ks ->
            k.1 mod ppd = 0 /\ first_day <= k.1 / ppd <= last_day).
  { intros k Hk. rewrite Hks in Hk.
    exact (reconcile_key_range a cost rev scost srev k Hc Hr Hk). }
  assert (Hday : forall k1 k2, k1 ∈ ks -> k2 ∈ ks ->
            strftime k1.1 = strftime k2.1 -> k1.1 = k2.1).
  { intros k1 k2 H1 H2 E. rewrite !strftime_date_text in E.
    destruct (Hrange _ H1) as [Hm1 Hr1], (Hrange _ H2) as [Hm2 Hr2].
    apply date_text_inj in E; [|done..].
    rewrite (Z_div_exact_full_2 k1.1 ppd), (Z_div_exact_full_2 k2.1 ppd), E; try done;
      unfold ppd, pph, pps; lia. }
  split; [|exists ks; split; [done|split]].
  - rewrite Hkeys. apply NoDup_fmap_2_strong; [|done].
    intros [d1 c1] [d2 c2] H1 H2 E.
    pose proof (f_equal fst E) as E1. pose proof (f_equal snd E) as E2.
    cbn [fst snd] in E1, E2. f_equal; [|done].
    apply (Hday _ _ H1 H2 E1).
  - apply Forall_forall. intros k Hk. by apply Hrange.
  - apply (StronglySorted_fmap_inv _ format_row) in Hs.
    apply (StronglySorted_fmap
             (fun r : metrics_row * option hourly_cols => m_key r.1) _
             (fun k1 k2 : Z * string =>
                key_le (strftime k1.1, k1.2) (strftime k2.1, k2.2))) in Hs;
      [|by intros [m1 h1] [m2 h2]].
    fold ks in Hs. revert Hs. apply StronglySorted_strengthen; [done|].
    intros [d1 c1] [d2 c2] H1 H2 Hne [[Hle Hn]|[E Hle]]; cbn [fst snd] in *.
    + left. rewrite !strftime_date_text in Hle, Hn.
      destruct (Hrange _ H1) as [Hm1 Hr1], (Hrange _ H2) as [Hm2 Hr2].
      cbn [fst snd] in *.
      apply date_text_le in Hle; [|done..].
      assert (d1 / ppd <> d2 / ppd) by (intros E; by rewrite E in Hn).
      rewrite (Z_div_exact_full_2 d1 ppd), (Z_div_exact_full_2 d2 ppd); try done;
        unfold ppd, pph, pps in *; lia.
    + pose proof (Hday _ _ H1 H2 E) as Ed. cbn [fst snd] in Ed. subst d2.
      right. split; [done|].
      apply string_le_cases in Hle as [Hlt| ->]; [done|]. by destruct Hne.
Qed.

Lemma report_in_day_order_witness :
  let report := default [] (main Sample.three_days Sample.unordered_cost
                              Sample.unordered_revenue) in
  NoDup (out_key <$> report) /\
  exists ks : list (Z * string),
    out_key <$> report = (fun k => (strftime k.1, k.2)) <$> ks /\
    Forall (fun k => k.1 mod ppd = 0) ks /\
    StronglySorted (fun k1 k2 => k1.1 < k2.1 \/
                                 (k1.1 = k2.1 /\ String.compare k1.2 k2.2 = Lt)) ks.
Proof.
  apply (report_in_day_order Sample.three_days Sample.unordered_cost
           Sample.unordered_revenue).
  vm_compute. reflexivity.
Defined.

(** ** Narrowing the window *)

Lemma filter_fmap {A B} (f : A -> B) (P : B -> Prop) (Q : A -> Prop)
  `{!forall y, Decision (P y), !forall x, Decision (Q x)} (l : list A) :
  (forall x, P (f x) <-> Q x) ->
  filter P (f <$> l) = f <$> filter Q l.
Proof.
  intros HPQ. induction l as [|x l IH]; [done|].
  rewrite fmap_cons, !filter_cons.
  destruct (decide (P (f x))) as [Hx|Hx], (decide (Q x)) as [Hx'|Hx'];
    rewrite IH; try done; by apply HPQ in Hx || apply HPQ in Hx'.
Qed.

Lemma StronglySorted_filter {A} (R : relation A) (P : A -> Prop)
  `{!forall x, Decision (P x)} (l : list A) :
  StronglySorted R l -> StronglySorted R (filter P l).
Proof.
  induction 1 as [|x l Hs IH Hx]; [constructor|].
  rewrite filter_cons. destruct (decide (P x)); [|done].
  constructor; [done|]. apply Forall_forall.
  intros y [_ Hy]%list_elem_of_filter.
  rewrite Forall_forall in Hx. by apply Hx.
Qed.

Section KeyedFilter.
Context `{EqDecision K, KeyOrder K, !KeyLaws K}.
Context {A : Type} (key : A -> option K) (p : A -> Prop) (q : K -> Prop).
Context `{!forall r, Decision (p r), !forall k, Decision (q k)}.
Hypothesis p_q : forall r k, key r = Some k -> (p r <-> q k).

(** Filtering a column and taking its distinct keys in order commute. *)
Lemma unique_keys_filter (ks : list K) :
  unique_keys (filter q ks) = filter q (unique_keys ks).
Proof.
  apply (Sorted_unique key_le).
  - apply Sorted_merge_sort, _.
  - apply StronglySorted_Sorted, StronglySorted_filter, StronglySorted_merge_sort;
      apply _.
  - apply NoDup_Permutation.
    + apply NoDup_unique_keys.
    + apply NoDup_filter, NoDup_unique_keys.
    + intros k.
      by rewrite list_elem_of_filter, !elem_of_unique_keys, list_elem_of_filter.
Qed.

Lemma omap_filter_key (df : list A) :
  omap key (filter p df) = filter q (omap key df).
Proof.
  induction df as [|r df IH]; [done|].
  rewrite filter_cons.
  change (omap key (r :: df)) with
    (match key r with Some y => y :: omap key df | None => omap key df end).
  destruct (decide (p r)) as [Hr|Hr].
  - change (omap key (r :: ?l)) with
      (match key r with Some y => y :: omap key l | None => omap key l end).
    destruct (key r) as [k|] eqn:E; [|done].
    rewrite filter_cons, decide_True by (by apply (p_q r k)). by rewrite IH.
  - destruct (key r) as [k|] eqn:E; [|done].
    rewrite filter_cons, decide_False by (by rewrite <- (p_q r k)). done.
Qed.

Lemma rows_of_filter_key (k : K) (df : list A) :
  q k -> rows_of key k (filter p df) = rows_of key k df.
Proof.
  intros Hk. rewrite rows_of_filter. unfold rows_of.
  induction df as [|r df IH]; [done|].
  rewrite !filter_cons. destruct (decide (key r = Some k)) as [E|E]; [|done].
  rewrite filter_cons, decide_True by (by apply (p_q r k)). by rewrite IH.
Qed.

Lemma groupby_keys_filter {V} (agg : list A -> V) (df : list A) :
  (groupby key agg (filter p df)).*1 = filter q (groupby key agg df).*1.
Proof. by rewrite !groupby_keys, omap_filter_key, unique_keys_filter. Qed.

(** A group in the window is the same group, whether or not the rows out of
    the window were dropped first. *)
Lemma cell_groupby_filter {V} (agg : list A -> V) (df : list A) (k : K) :
  q k -> cell k (groupby key agg (filter p df)) = cell k (groupby key agg df).
Proof.
  intros Hk. rewrite !cell_groupby, omap_filter_key, rows_of_filter_key by done.
  destruct (decide (k ∈ filter q (omap key df))) as [Hin|Hin],
           (decide (k ∈ omap key df)) as [Hin'|Hin']; try done.
  - by apply list_elem_of_filter in Hin as [_ Hin].
  - destruct Hin. by apply list_elem_of_filter.
Qed.

End KeyedFilter.

Lemma in_window_narrow (f t f' t' : Z) (d : option Z) :
  f' <= f -> t <= t' -> in_window f t d -> in_window f' t' d.
Proof.
  intros Hf Ht. destruct d as [d|]; simpl; [|done].
  rewrite !andb_True, !Is_true_true, !Z.leb_le. lia.
Qed.

Lemma filter_window_narrow {A} (f t f' t' : Z) (df : list (stamped A)) :
  f' <= f -> t <= t' ->
  filter_window f t df =
  filter (fun r => in_window f t (date_utc r)) (filter_window f' t' df).
Proof.
  intros Hf Ht. unfold filter_window. rewrite list_filter_filter_l; [done|].
  intros r. by apply in_window_narrow.
Qed.

Lemma daily_key_window {A} (f t : Z) (cid : A -> option string) (r : stamped A)
  (k : Z * string) :
  daily_key cid r = Some k ->
  (in_window f t (date_utc r) <-> in_window f t (Some k.1)).
Proof.
  unfold daily_key. destruct (date_utc r) as [d|]; [|done]. simpl.
  destruct (cid (row_of r)); [|done]. by intros [= <-].
Qed.

Lemma hourly_key_window {A} (f t : Z) (cid : A -> option string) (r : stamped A)
  (k : Z * Z * string) :
  hourly_key cid r = Some k ->
  (in_window f t (date_utc r) <-> in_window f t (Some k.1.1)).
Proof.
  unfold hourly_key. destruct (date_utc r) as [d|]; [|done]. simpl.
  destruct (hour_utc r); [|done]. simpl.
  destruct (cid (row_of r)); [|done]. by intros [= <-].
Qed.

Section Narrowing.
Variables (f t f' t' : Z).
Hypothesis from_le : f' <= f.
Hypothesis to_le : t <= t'.
Variables (cost : list (stamped cost_row)) (rev : list (stamped rev_row)).

(** The joined daily frame of the narrow window is that of the wide window
    without the days outside the narrow one. *)
Lemma reconcile_narrow :
  reconcile (cost_daily (filter_window f t cost)) (rev_daily (filter_window f t rev)) =
  filter (fun j => in_window f t (Some (j_date_utc j)))
    (reconcile (cost_daily (filter_window f' t' cost))
               (rev_daily (filter_window f' t' rev))).
Proof.
  set (q := fun k : Z * string => Is_true (in_window f t (Some k.1))).
  rewrite !reconcile_rows by apply NoDup_groupby_keys.
  rewrite (filter_window_narrow f t f' t' cost), (filter_window_narrow f t f' t' rev)
    by done.
  unfold cost_daily, rev_daily.
  rewrite (groupby_keys_filter (daily_key cost_campaign_id)
             (fun r => in_window f t (date_utc r)) q)
    by (intros r k; apply daily_key_window).
  rewrite (groupby_keys_filter (daily_key rev_campaign_id)
             (fun r => in_window f t (date_utc r)) q)
    by (intros r k; apply daily_key_window).
  rewrite <- filter_app, unique_keys_filter.
  change (map ?g ?l) with (g <$> l).
  rewrite (filter_fmap _ (fun j => in_window f t (Some (j_date_utc j))) q)
    by (by intros [d c]).
  apply list_fmap_ext. intros i k [Hk _]%list_elem_of_lookup_2%list_elem_of_filter.
  rewrite (cell_groupby_filter (daily_key cost_campaign_id)
             (fun r => in_window f t (date_utc r)) q)
    by (try done; intros r k'; apply daily_key_window).
  rewrite (cell_groupby_filter (daily_key rev_campaign_id)
             (fun r => in_window f t (date_utc r)) q)
    by (try done; intros r k'; apply daily_key_window).
  done.
Qed.

End Narrowing.

(** X14.  Narrowing the window only removes (day, campaign) rows.  The frame
    of the report for a window has the keys of the frame for any wider
    window that fall on the days of the narrower one, in the same order and
    with the same campaign names.  Each key that remains has the same daily
    group and the same hourly groups of feed rows, in the same order, as in
    the wider window, so its totals add up the same cells. *)
Theorem window_narrowing (a a' : args) (cost : list (stamped cost_row))
  (rev : list (stamped rev_row)) :
  floor_to ppd (date_from a') <= floor_to ppd (date_from a) ->
  floor_to ppd (date_to a) <= floor_to ppd (date_to a') ->
  let inside := fun d : Z =>
    in_window (floor_to ppd (date_from a)) (floor_to ppd (date_to a)) (Some d) in
  let narrow_cost :=
    filter_window (floor_to ppd (date_from a)) (floor_to ppd (date_to a)) cost in
  let narrow_rev :=
    filter_window (floor_to ppd (date_from a)) (floor_to ppd (date_to a)) rev in
  let wide_cost :=
    filter_window (floor_to ppd (date_from a')) (floor_to ppd (date_to a')) cost in
  let wide_rev :=
    filter_window (floor_to ppd (date_from a')) (floor_to ppd (date_to a')) rev in
  let named := fun r : metrics_row * option hourly_cols =>
    (m_key r.1, m_campaign_name r.1) in
  named <$> report_frame a cost rev =
    filter (fun e => inside e.1.1) (named <$> report_frame a' cost rev) /\
  forall k : Z * string, inside k.1 ->
    rows_of (daily_key cost_campaign_id) k narrow_cost =
      rows_of (daily_key cost_campaign_id) k wide_cost /\
    rows_of (daily_key rev_campaign_id) k narrow_rev =
      rows_of (daily_key rev_campaign_id) k wide_rev /\
    forall hk : Z * Z * string, day_of_hour_key hk = k ->
      rows_of (hourly_key cost_campaign_id) hk narrow_cost =
        rows_of (hourly_key cost_campaign_id) hk wide_cost /\
      rows_of (hourly_key rev_campaign_id) hk narrow_rev =
        rows_of (hourly_key rev_campaign_id) hk wide_rev.
Proof.
  intros Hf Ht inside narrow_cost narrow_rev wide_cost wide_rev named. split.
  - unfold report_frame. fold narrow_cost narrow_rev wide_cost wide_rev.
    unfold narrow_cost, narrow_rev, wide_cost, wide_rev.
    rewrite (reconcile_narrow _ _ _ _ Hf Ht).
    change (map ?g ?l) with (g <$> l). rewrite <- !list_fmap_compose.
    rewrite (filter_fmap _ (fun e : Z * string * string => inside e.1.1)
               (fun j => in_window (floor_to ppd (date_from a))
                           (floor_to ppd (date_to a)) (Some (j_date_utc j))))
      by done.
    apply list_fmap_ext. by intros i j _.
  - intros k Hk.
    unfold narrow_cost, narrow_rev.
    rewrite (filter_window_narrow _ _ _ _ cost Hf Ht),
            (filter_window_narrow _ _ _ _ rev Hf Ht).
    fold wide_cost wide_rev.
    set (q := fun k : Z * string => Is_true (inside k.1)).
    set (qh := fun hk : Z * Z * string => Is_true (inside hk.1.1)).
    split; [|split].
    + apply (rows_of_filter_key _ _ q); [|done].
      intros r k'. apply daily_key_window.
    + apply (rows_of_filter_key _ _ q); [|done].
      intros r k'. apply daily_key_window.
    + intros [[d h] c] <-. split.
      * apply (rows_of_filter_key _ _ qh); [|done].
        intros r k'. apply hourly_key_window.
      * apply (rows_of_filter_key _ _ qh); [|done].
        intros r k'. apply hourly_key_window.
Qed.

Lemma window_narrowing_witness :
  let a := Args (utc_midnight 2019 1 2) (utc_midnight 2019 1 2) false in
  let a' := Sample.three_days in
  let cost := default [] (parse_est_to_utc cost_data_date
                            (map cast_cost Sample.unordered_cost)) in
  let rev := default [] (parse_est_to_utc rev_data_date
                           (map cast_rev Sample.unordered_revenue)) in
  let inside := fun d : Z =>
    in_window (floor_to ppd (date_from a)) (floor_to ppd (date_to a)) (Some d) in
  let narrow_cost :=
    filter_window (floor_to ppd (date_from a)) (floor_to ppd (date_to a)) cost in
  let narrow_rev :=
    filter_window (floor_to ppd (date_from a)) (floor_to ppd (date_to a)) rev in
  let wide_cost :=
    filter_window (floor_to ppd (date_from a')) (floor_to ppd (date_to a')) cost in
  let wide_rev :=
    filter_window (floor_to ppd (date_from a')) (floor_to ppd (date_to a')) rev in
  let named := fun r : metrics_row * option hourly_cols =>
    (m_key r.1, m_campaign_name r.1) in
  named <$> report_frame a cost rev =
    filter (fun e => inside e.1.1) (named <$> report_frame a' cost rev) /\
  forall k : Z * string, inside k.1 ->
    rows_of (daily_key cost_campaign_id) k narrow_cost =
      rows_of (daily_key cost_campaign_id) k wide_cost /\
    rows_of (daily_key rev_campaign_id) k narrow_rev =
      rows_of (daily_key rev_campaign_id) k wide_rev /\
    forall hk : Z * Z * string, day_of_hour_key hk = k ->
      rows_of (hourly_key cost_campaign_id) hk narrow_cost =
        rows_of (hourly_key cost_campaign_id) hk wide_cost /\
      rows_of (hourly_key rev_campaign_id) hk narrow_rev =
        rows_of (hourly_key rev_campaign_id) hk wide_rev.
Proof.
  apply (window_narrowing (Args (utc_midnight 2019 1 2) (utc_midnight 2019 1 2) false)
           Sample.three_days).
  - vm_compute. discriminate.
  - vm_compute. discriminate.
Defined.

(** ** Which feeds [main] takes *)

Lemma dst_hours_from_plain (vals : list (option Z)) :
  Forall (fun val => mismatch val = None) vals ->
  dst_hours_from vals [] = Some (replicate (length vals) None).
Proof.
  induction 1 as [|val vals Hv _ IH]; [done|].
  cbn [dst_hours_from]. rewrite Hv, IH. done.
Qed.

Lemma localize_one_plain (val d : option Z) :
  mismatch val = None -> is_Some (localize_one val d).
Proof.
  destruct val as [v|]; [|by eexists].
  unfold mismatch. cbn [mbind option_bind]. unfold ambiguous_bounds, localize_one.
  destruct (utc_bounds v) as [[a|] [b|]]; simpl; intros Hm; try by eexists.
  destruct (a =? b); [by eexists|done].
Qed.

Lemma tz_localize_plain (vals : list (option Z)) :
  Forall (fun val => mismatch val = None) vals -> is_Some (tz_localize vals).
Proof.
  intros Hall. unfold tz_localize, get_dst_hours.
  assert (E : omap mismatch vals = []).
  { induction Hall as [|val vals Hv _ IH]; [done|].
    change (omap mismatch (val :: vals)) with
      (match mismatch val with Some y => y :: omap mismatch vals
                          | None => omap mismatch vals end).
    by rewrite Hv. }
  rewrite E. cbn [length Nat.eqb]. rewrite (dst_hours_from_plain _ Hall).
  cbn [mbind option_bind]. apply mapM_is_Some, Forall_forall.
  intros [val d] Hin%elem_of_zip_l. apply localize_one_plain.
  rewrite Forall_forall in Hall. by apply Hall.
Qed.

Lemma parse_est_to_utc_plain {A} (col : A -> option string) (df : list A) :
  (forall r s, r ∈ df -> col r = Some s -> unambiguous_stamp s) ->
  is_Some (parse_est_to_utc col df).
Proof.
  intros Hall. unfold parse_est_to_utc, to_datetime.
  destruct (mapM _ (map col df)) as [dt|] eqn:Edt.
  - cbn [mbind option_bind].
    destruct (tz_localize_plain dt) as [dt' ->]; [|by eexists].
    apply mapM_Some in Edt. apply Forall_forall. intros val Hval.
    apply list_elem_of_lookup in Hval as [i Hi].
    destruct (Forall2_lookup_r _ _ _ _ _ Edt Hi) as (c & Hc & Hparse).
    destruct val as [v|]; [|done].
    destruct c as [s|]; [|done].
    change (map col df) with (col <$> df) in Hc.
    apply list_lookup_fmap_Some in Hc as (r & Hs & Hr%list_elem_of_lookup_2).
    destruct (Hall r s Hr (eq_sym Hs)) as (ov & Hov & Hplain).
    rewrite Hov in Hparse. injection Hparse as ->.
    unfold mismatch. cbn [mbind option_bind]. by rewrite (Hplain v eq_refl).
  - exfalso. apply mapM_None in Edt. apply Exists_exists in Edt as (c & Hc & Hnone).
    change (map col df) with (col <$> df) in Hc.
    apply list_elem_of_fmap in Hc as (r & -> & Hr).
    destruct (col r) as [s|] eqn:Es; [|done].
    destruct (Hall r s Hr Es) as (ov & Hov & _). congruence.
Qed.


(** X15.  [main] takes every pair of feeds in which each timestamp text is
    missing, reads as NaT, or denotes a wall-clock time that did not occur
    twice: it returns a report. *)
Theorem main_accepts_unambiguous (a : args) (cost : list cost_row) (rev : list rev_row) :
  (forall r s, r ∈ cost -> cost_data_date r = Some s -> unambiguous_stamp s) ->
  (forall r s, r ∈ rev -> rev_data_date r = Some s -> unambiguous_stamp s) ->
  exists report, main a cost rev = Some report.
Proof.
  intros Hc Hr. unfold main.
  destruct (parse_est_to_utc_plain cost_data_date (map cast_cost cost)) as [scost ->].
  { intros r s [r0 [-> Hr0]]%list_elem_of_fmap Hs. exact (Hc r0 s Hr0 Hs). }
  destruct (parse_est_to_utc_plain rev_data_date (map cast_rev rev)) as [srev ->].
  { intros r s [r0 [-> Hr0]]%list_elem_of_fmap Hs. exact (Hr r0 s Hr0 Hs). }
  by eexists.
Qed.

Lemma main_accepts_unambiguous_witness :
  exists report,
    main Sample.three_days Sample.unordered_cost Sample.unordered_revenue = Some report.
Proof.
  apply (main_accepts_unambiguous Sample.three_days Sample.unordered_cost
           Sample.unordered_revenue).
  - intros r s Hr Hs. unfold Sample.unordered_cost in Hr.
    repeat (apply elem_of_cons in Hr as [->|Hr]);
      [..|by apply elem_of_nil in Hr];
      injection Hs as <-; eexists; (split; [vm_compute; reflexivity|]);
      intros v [= <-]; vm_compute; reflexivity.
  - intros r s Hr Hs. unfold Sample.unordered_revenue in Hr.
    repeat (apply elem_of_cons in Hr as [->|Hr]);
      [..|by apply elem_of_nil in Hr];
      injection Hs as <-; eexists; (split; [vm_compute; reflexivity|]);
      intros v [= <-]; vm_compute; reflexivity.
Defined.



(** ** C7: the hourly columns of a report row *)

Section HourlyColumns.
Variables (a : args) (cost : list cost_row) (rev : list rev_row).
Variables (scost : list (stamped cost_row)) (srev : list (stamped rev_row)).
Hypothesis cost_parses : parse_est_to_utc cost_data_date (map cast_cost cost) = Some scost.
Hypothesis rev_parses : parse_est_to_utc rev_data_date (map cast_rev rev) = Some srev.

Let cost' := filter_window (floor_to ppd (date_from a)) (floor_to ppd (date_to a)) scost.
Let rev' := filter_window (floor_to ppd (date_from a)) (floor_to ppd (date_to a)) srev.

(** The key of a joined row is a UTC midnight of the window carried by a row
    of one of the filtered feeds. *)
Lemma joined_key_row (j : joined_row) :
  j ∈ reconcile (cost_daily cost') (rev_daily rev') ->
  (exists r, r ∈ cost' /\ daily_key cost_campaign_id r = Some (j_key j)) \/
  (exists r, r ∈ rev' /\ daily_key rev_campaign_id r = Some (j_key j)).
Proof.
  intros [Hk _]%elem_of_reconcile; [|apply NoDup_groupby_keys..].
  destruct Hk as [Hk|Hk]; [left|right];
    unfold cost_daily, rev_daily in Hk; by apply elem_of_groupby_keys in Hk.
Qed.

Lemma joined_day_in_window (j : joined_row) :
  j ∈ reconcile (cost_daily cost') (rev_daily rev') ->
  j_date_utc j mod ppd = 0 /\
  floor_to ppd (date_from a) <= j_date_utc j <= floor_to ppd (date_to a).
Proof.
  intros Hj. destruct (j_key j) as [d c] eqn:Ek.
  assert (d = j_date_utc j) as <- by (by injection Ek).
  assert (Hd : exists t : option Z, Some d = floor_D t /\
            in_window (floor_to ppd (date_from a)) (floor_to ppd (date_to a))
                      (Some d) = true).
  { destruct (joined_key_row j Hj) as [(r & Hin & Hk)|(r & Hin & Hk)];
      rewrite Ek in Hk; destruct (proj1 (daily_key_Some _ _ _ _) Hk) as [Hd _];
      apply elem_of_filter_window in Hin; destruct Hin as [Hw Hin].
    - destruct (parse_est_to_utc_stamps _ _ _ _ cost_parses Hin) as [E _].
      exists (dt_utc r). by rewrite <- E, <- Hd.
    - destruct (parse_est_to_utc_stamps _ _ _ _ rev_parses Hin) as [E _].
      exists (dt_utc r). by rewrite <- E, <- Hd. }
  destruct Hd as (t & Ht & Hw). split; [|by apply in_window_Some].
  destruct t as [t|]; [|done]. injection Ht as ->. by apply floor_to_mod.
Qed.

(** Every joined row has an hour bucket: the feed row that carries its key
    falls in some hour of its day. *)
Lemma joined_row_has_bucket (j : joined_row) :
  j ∈ reconcile (cost_daily cost') (rev_daily rev') ->
  rows_of h_key (j_key j) (hourly_frame cost' rev') <> [].
Proof.
  intros Hj. rewrite hourly_frame_rows.
  rewrite (rows_of_hourly_frame _ (j_key j)) by (by intros [[d' h'] c']).
  assert (Hone : exists k, k ∈ unique_keys ((cost_h cost').*1 ++ (rev_h rev').*1) /\
                           day_of_hour_key k = j_key j).
  { destruct (joined_key_row j Hj) as [(r & Hin & Hk)|(r & Hin & Hk)].
    - apply elem_of_filter_window in Hin as Hin'. destruct Hin' as [_ Hin'].
      destruct (daily_key_hourly _ cost_campaign_id _ _ r _ cost_parses Hin' Hk)
        as [k Hhk].
      exists k. split.
      + apply elem_of_unique_keys, elem_of_app. left. unfold cost_h.
        apply elem_of_groupby_keys. eauto.
      + apply hourly_key_daily in Hhk. congruence.
    - apply elem_of_filter_window in Hin as Hin'. destruct Hin' as [_ Hin'].
      destruct (daily_key_hourly _ rev_campaign_id _ _ r _ rev_parses Hin' Hk)
        as [k Hhk].
      exists k. split.
      + apply elem_of_unique_keys, elem_of_app. right. unfold rev_h.
        apply elem_of_groupby_keys. eauto.
      + apply hourly_key_daily in Hhk. congruence. }
  destruct Hone as (k & Hk & Hday).
  assert (Hin : k ∈ filter (fun k => day_of_hour_key k = j_key j)
                      (unique_keys ((cost_h cost').*1 ++ (rev_h rev').*1)))
    by (by apply list_elem_of_filter).
  destruct (filter _ _); [by apply elem_of_nil in Hin|done].
Qed.

End HourlyColumns.

(** A key without hour buckets gets the defaults of the two left joins. *)
Lemma enrich_without_buckets (h : list hour_row) (m : metrics_row) :
  rows_of h_key (m_key m) h = [] -> enrich h [m] = [(m, HourlyCols 0 0)].
Proof.
  intros Hnil. rewrite enrich_rows. cbn [map]. do 2 f_equal.
  unfold hourly_cols_of, avg_hourly_rev, pos_hours.
  rewrite !cell_groupby, rows_of_filter, Hnil.
  by destruct (decide _), (decide _).
Qed.

(** C7.  In hourly mode, take a run whose feeds parse and a row of its
    report.  The row is that of a (day, campaign) key ([d], [campaign_id]),
    [d] being a UTC midnight of the window, and the key has at least one
    bucket, the buckets of a key being the rows of the zero-filled hourly
    join [h] with that day and campaign.  Then:
    - [positive_profit_hours] is the number of buckets whose profit is
      strictly above zero, the profit of a bucket being its revenue minus its
      cost;
    - [hourly_avg_revenue] is the mean of the revenue over the buckets: the
      revenues of all the buckets of the key added up, divided by the number
      of all these buckets (a NaN mean, which needs revenues of opposite
      infinite sign, being written 0.0);
    - a key without buckets would get 0.0 and 0 from the two left joins. *)
Theorem hourly_columns_spec (a : args) (cost : list cost_row) (rev : list rev_row)
  (scost : list (stamped cost_row)) (srev : list (stamped rev_row))
  (out : list report_row) (row : report_row) :
  hourly a = true ->
  parse_est_to_utc cost_data_date (map cast_cost cost) = Some scost ->
  parse_est_to_utc rev_data_date (map cast_rev rev) = Some srev ->
  main a cost rev = Some out ->
  row ∈ out ->
  let h := hourly_frame
             (filter_window (floor_to ppd (date_from a)) (floor_to ppd (date_to a)) scost)
             (filter_window (floor_to ppd (date_from a)) (floor_to ppd (date_to a)) srev) in
  exists (d : Z) (hc : hourly_cols),
    date row = strftime d /\
    d mod ppd = 0 /\
    floor_to ppd (date_from a) <= d <= floor_to ppd (date_to a) /\
    hourly_columns row = Some hc /\
    let buckets := rows_of h_key (d, campaign_id row) h in
    buckets <> [] /\
    (forall b, b ∈ buckets -> h_profit b = (h_revenue b - h_cost b)%float) /\
    positive_profit_hours hc =
      Z.of_nat (length (filter (fun b => (0 <? h_profit b)%float) buckets)) /\
    (exists s, float64_sum_of (map h_revenue buckets) s /\
       hourly_avg_revenue hc = fillna 0 (s / float_of_nat (length buckets))) /\
    (forall m, rows_of h_key (m_key m) h = [] -> enrich h [m] = [(m, HourlyCols 0 0)]).
Proof.
  intros Hh Hc Hr Hm Hrow h.
  unfold main in Hm. rewrite Hc in Hm. simpl in Hm. rewrite Hr in Hm. simpl in Hm.
  injection Hm as <-.
  apply elem_of_report_of in Hrow as (j & Hj & ->). rewrite Hh. fold h.
  destruct (joined_day_in_window a cost rev scost srev Hc Hr j Hj) as [Hmid Hwin].
  pose proof (joined_row_has_bucket a cost rev scost srev Hc Hr j Hj) as Hne.
  fold h in Hne.
  exists (j_date_utc j), (hourly_cols_of h (j_key j)).
  split; [done|]. split; [done|]. split; [done|]. split; [done|].
  change (campaign_id (format_row _)) with (j_campaign_id j).
  change (j_date_utc j, j_campaign_id j) with (j_key j).
  set (k := j_key j) in *. intros buckets.
  assert (Hb : forall b, b ∈ buckets -> b ∈ h).
  { intros b Hb. unfold buckets, rows_of in Hb.
    by apply list_elem_of_filter in Hb as [_ ?]. }
  split; [exact Hne|]. split; [|split; [|split]].
  - intros b Hin%Hb. by apply hourly_frame_revenue in Hin as (_ & _ & ?).
  - unfold hourly_cols_of, pos_hours. cbn [positive_profit_hours].
    rewrite cell_groupby. unfold buckets. rewrite <- rows_of_filter.
    destruct (decide _) as [Hin|Hin]; cbn [fmap option_fmap option_map default]; [done|].
    by rewrite (rows_of_nil _ _ _ Hin).
  - exists (group_sum (map h_revenue buckets)). split; [apply group_sum_float64_sum|].
    unfold hourly_cols_of, avg_hourly_rev. cbn [hourly_avg_revenue].
    rewrite cell_groupby. fold buckets.
    destruct (decide _) as [Hin|Hin]; cbn [default].
    + unfold id. rewrite group_mean_no_nan, length_map; [done| |].
      * apply Forall_forall. intros v (b & -> & Hin'%Hb)%list_elem_of_fmap.
        by apply hourly_frame_revenue in Hin' as (? & _).
      * intros E. apply map_eq_nil in E. exact (Hne E).
    + destruct Hne. by apply rows_of_nil.
  - intros m. apply enrich_without_buckets.
Qed.

Lemma hourly_columns_spec_witness :
  let h := hourly_frame
             (filter_window (floor_to ppd (date_from Sample.hourly_day))
                            (floor_to ppd (date_to Sample.hourly_day))
                            Sample.two_hours_cost_utc)
             (filter_window (floor_to ppd (date_from Sample.hourly_day))
                            (floor_to ppd (date_to Sample.hourly_day))
                            Sample.two_hours_revenue_utc) in
  exists (d : Z) (hc : hourly_cols),
    date Sample.two_hours_row = strftime d /\
    d mod ppd = 0 /\
    floor_to ppd (date_from Sample.hourly_day) <= d
      <= floor_to ppd (date_to Sample.hourly_day) /\
    hourly_columns Sample.two_hours_row = Some hc /\
    let buckets := rows_of h_key (d, campaign_id Sample.two_hours_row) h in
    buckets <> [] /\
    (forall b, b ∈ buckets -> h_profit b = (h_revenue b - h_cost b)%float) /\
    positive_profit_hours hc =
      Z.of_nat (length (filter (fun b => (0 <? h_profit b)%float) buckets)) /\
    (exists s, float64_sum_of (map h_revenue buckets) s /\
       hourly_avg_revenue hc = fillna 0 (s / float_of_nat (length buckets))) /\
    (forall m, rows_of h_key (m_key m) h = [] -> enrich h [m] = [(m, HourlyCols 0 0)]).
Proof.
  apply (hourly_columns_spec Sample.hourly_day Sample.two_hours_cost
           Sample.two_hours_revenue Sample.two_hours_cost_utc
           Sample.two_hours_revenue_utc [Sample.two_hours_row] Sample.two_hours_row).
  - reflexivity.
  - vm_compute. reflexivity.
  - vm_compute. reflexivity.
  - vm_compute. reflexivity.
  - left.
Defined.
